(** * SceneManager: texture registry, material registry and shader binder

    A shallow embedding of [7-1_FinalProjectMilestones/Source/SceneManager.cpp].

    - C++ [int] and [GLuint] values are integers [Z]; the table index
      never leaves the range where wrap-around could matter, and the
      one place where a [GLuint] is stored into an [int]
      ([FindTextureID]) converts it with [int_of_GLuint].
    - C++ [float] is an abstract type [F] with the operations the code
      uses (class [Float32]); nothing is assumed about rounding.
    - The object's members are the fields of the record [SceneManager];
      the object together with the part of the outside world it talks
      to (OpenGL texture names, the calls it issues) is a [World].
    - Methods are computations in the monad [M]: they thread the world
      and stop with [Undefined] where C++ leaves the behaviour
      undefined (a null [m_pShaderManager] dereferenced, an index
      outside [m_textureIDs]). *)

From Stdlib Require Import ZArith QArith Qreals Reals SpecFloat Lia.
From stdpp Require Import base tactics option list strings gmap.

Local Open Scope string_scope.
Local Open Scope list_scope.
Local Open Scope Z_scope.

(** ** Single-precision numbers *)

(** The arithmetic of [float] that the translation unit relies on:
    literals, [+], [-], [*], and the three [<cmath>] functions that
    [glm::rotate] and [glm::normalize] call. *)
Class Float32 (F : Type) := {
  f_lit : Q -> F;
  f_add : F -> F -> F;
  f_sub : F -> F -> F;
  f_mul : F -> F -> F;
  f_cos : F -> F;
  f_sin : F -> F;
  f_inversesqrt : F -> F
}.

(** A decimal literal [m / d], as in [9.3f] = [dec 93 10]. *)
Definition dec `{Float32 F} (m : Z) (d : positive) : F := f_lit (Qmake m d).

(** An integer literal converted to [float]. *)
Definition flt `{Float32 F} (n : Z) : F := f_lit (Qmake n 1).

(** ** GLM vectors and matrices

    [glm::mat4] is column-major: four [vec4] columns.  The functions
    below follow GLM's generic (non-SIMD) implementations, operation by
    operation and in the same order of evaluation. *)
Module glm.
Section Glm.
Context {F : Type} `{Float32 F}.

Record vec2 := Vec2 { x2 : F; y2 : F }.
Record vec3 := Vec3 { x3 : F; y3 : F; z3 : F }.
Record vec4 := Vec4 { x4 : F; y4 : F; z4 : F; w4 : F }.
Record mat4 := Mat4 { col0 : vec4; col1 : vec4; col2 : vec4; col3 : vec4 }.

Definition zero : F := flt 0.
Definition one : F := flt 1.

(** [vec4 * T] and [vec4 + vec4]. *)
Definition vec4_muls (v : vec4) (s : F) : vec4 :=
  Vec4 (f_mul (x4 v) s) (f_mul (y4 v) s) (f_mul (z4 v) s) (f_mul (w4 v) s).
Definition vec4_add (a b : vec4) : vec4 :=
  Vec4 (f_add (x4 a) (x4 b)) (f_add (y4 a) (y4 b))
       (f_add (z4 a) (z4 b)) (f_add (w4 a) (w4 b)).

(** [vec3 * T] and [T * vec3]. *)
Definition vec3_muls (v : vec3) (s : F) : vec3 :=
  Vec3 (f_mul (x3 v) s) (f_mul (y3 v) s) (f_mul (z3 v) s).
Definition vec3_smul (s : F) (v : vec3) : vec3 :=
  Vec3 (f_mul s (x3 v)) (f_mul s (y3 v)) (f_mul s (z3 v)).

(** [glm::dot]: [tmp = a * b; return tmp.x + tmp.y + tmp.z]. *)
Definition dot (a b : vec3) : F :=
  f_add (f_add (f_mul (x3 a) (x3 b)) (f_mul (y3 a) (y3 b))) (f_mul (z3 a) (z3 b)).

(** [glm::normalize]: [v * inversesqrt(dot(v, v))]. *)
Definition normalize (v : vec3) : vec3 := vec3_muls v (f_inversesqrt (dot v v)).

(** [glm::radians]: [degrees * 0.01745329251994329576923690768489]. *)
Definition radians_factor : F :=
  f_lit (Qmake 1745329251994329576923690768489 100000000000000000000000000000000).
Definition radians (degrees : F) : F := f_mul degrees radians_factor.

(** [mat4(1.0f)]. *)
Definition identity : mat4 :=
  Mat4 (Vec4 one zero zero zero) (Vec4 zero one zero zero)
       (Vec4 zero zero one zero) (Vec4 zero zero zero one).

(** [operator*(mat4, mat4)]:
    [Result[j] = A0 * Bj[0] + A1 * Bj[1] + A2 * Bj[2] + A3 * Bj[3]]. *)
Definition mul_col (a : mat4) (b : vec4) : vec4 :=
  vec4_add
    (vec4_add
       (vec4_add (vec4_muls (col0 a) (x4 b)) (vec4_muls (col1 a) (y4 b)))
       (vec4_muls (col2 a) (z4 b)))
    (vec4_muls (col3 a) (w4 b)).
Definition mul (a b : mat4) : mat4 :=
  Mat4 (mul_col a (col0 b)) (mul_col a (col1 b))
       (mul_col a (col2 b)) (mul_col a (col3 b)).

(** [glm::translate(m, v)]:
    [Result = m; Result[3] = m[0]*v[0] + m[1]*v[1] + m[2]*v[2] + m[3]]. *)
Definition translate_m (m : mat4) (v : vec3) : mat4 :=
  Mat4 (col0 m) (col1 m) (col2 m)
    (vec4_add
       (vec4_add
          (vec4_add (vec4_muls (col0 m) (x3 v)) (vec4_muls (col1 m) (y3 v)))
          (vec4_muls (col2 m) (z3 v)))
       (col3 m)).

(** [glm::scale(m, v)]. *)
Definition scale_m (m : mat4) (v : vec3) : mat4 :=
  Mat4 (vec4_muls (col0 m) (x3 v)) (vec4_muls (col1 m) (y3 v))
       (vec4_muls (col2 m) (z3 v)) (col3 m).

(** [glm::rotate(m, angle, v)]. *)
Definition rotate_m (m : mat4) (angle : F) (v : vec3) : mat4 :=
  let a := angle in
  let c := f_cos a in
  let s := f_sin a in
  let axis := normalize v in
  let temp := vec3_smul (f_sub one c) axis in
  let r00 := f_add c (f_mul (x3 temp) (x3 axis)) in
  let r01 := f_add (f_mul (x3 temp) (y3 axis)) (f_mul s (z3 axis)) in
  let r02 := f_sub (f_mul (x3 temp) (z3 axis)) (f_mul s (y3 axis)) in
  let r10 := f_sub (f_mul (y3 temp) (x3 axis)) (f_mul s (z3 axis)) in
  let r11 := f_add c (f_mul (y3 temp) (y3 axis)) in
  let r12 := f_add (f_mul (y3 temp) (z3 axis)) (f_mul s (x3 axis)) in
  let r20 := f_add (f_mul (z3 temp) (x3 axis)) (f_mul s (y3 axis)) in
  let r21 := f_sub (f_mul (z3 temp) (y3 axis)) (f_mul s (x3 axis)) in
  let r22 := f_add c (f_mul (z3 temp) (z3 axis)) in
  let lin a0 a1 a2 :=
    vec4_add
      (vec4_add (vec4_muls (col0 m) a0) (vec4_muls (col1 m) a1))
      (vec4_muls (col2 m) a2) in
  Mat4 (lin r00 r01 r02) (lin r10 r11 r12) (lin r20 r21 r22) (col3 m).

(** The one-argument forms of [<glm/gtx/transform.hpp>], which start
    from the identity matrix. *)
Definition translate (v : vec3) : mat4 := translate_m identity v.
Definition rotate (angle : F) (v : vec3) : mat4 := rotate_m identity angle v.
Definition scale (v : vec3) : mat4 := scale_m identity v.
End Glm.
Arguments vec2 : clear implicits.
Arguments vec3 : clear implicits.
Arguments vec4 : clear implicits.
Arguments mat4 : clear implicits.
End glm.

(** ** Data model *)

(** [TEXTURE_INFO]: one slot of the texture table. *)
Record TEXTURE_INFO := { ID : Z; tag : string }.

(** [OBJECT_MATERIAL]; its tag field is [material_tag] here because
    [tag] already names the field of [TEXTURE_INFO]. *)
Record OBJECT_MATERIAL (F : Type) := {
  ambientColor : glm.vec3 F;
  ambientStrength : F;
  diffuseColor : glm.vec3 F;
  specularColor : glm.vec3 F;
  shininess : F;
  material_tag : string
}.
Arguments ambientColor {F} _.
Arguments ambientStrength {F} _.
Arguments diffuseColor {F} _.
Arguments specularColor {F} _.
Arguments shininess {F} _.
Arguments material_tag {F} _.

(** A value handed to one of [ShaderManager]'s setters, tagged with the
    setter's type. *)
Inductive uniform (F : Type) :=
| UInt (i : Z)
| UBool (b : bool)
| UFloat (x : F)
| UVec2 (v : glm.vec2 F)
| UVec3 (v : glm.vec3 F)
| UVec4 (v : glm.vec4 F)
| UMat4 (m : glm.mat4 F)
| USampler2D (slot : Z).
Arguments UInt {F} i.
Arguments UBool {F} b.
Arguments UFloat {F} x.
Arguments UVec2 {F} v.
Arguments UVec3 {F} v.
Arguments UVec4 {F} v.
Arguments UMat4 {F} m.
Arguments USampler2D {F} slot.

(** The state of a [ShaderManager] object: the parameter store, a map
    from names to typed values. *)
Abbreviation ShaderManager F := (gmap string (uniform F)).

(** The five primitive meshes of [ShapeMeshes]. *)
Inductive mesh := Plane | Box | Torus | TaperedCylinder | Prism.

(** The OpenGL enumerators used by [CreateGLTexture]. *)
Inductive GLenum :=
| GL_TEXTURE_WRAP_S | GL_TEXTURE_WRAP_T
| GL_TEXTURE_MIN_FILTER | GL_TEXTURE_MAG_FILTER
| GL_REPEAT | GL_LINEAR
| GL_RGB8 | GL_RGB | GL_RGBA8 | GL_RGBA.

(** What [stbi_load] reports about a decoded file (the pixels
    themselves are never inspected). *)
Record Image := { width : Z; height : Z; colorChannels : Z }.

(** The three lines the unit prints on [std::cout]. *)
Inductive message :=
| Successfully_loaded_image (filename : string) (img : Image)
| Not_implemented_to_handle_image (channels : Z)
| Could_not_load_image (filename : string).

(** The calls a method makes to its collaborators, in program order. *)
Inductive call (F : Type) :=
| cout (m : message)
| stbi_set_flip_vertically_on_load (flag : bool)
| stbi_image_free
| glGenTextures (name : Z)
| glBindTexture (name : Z)
| glTexParameteri (pname param : GLenum)
| glTexImage2D (internalformat : GLenum) (w h : Z) (format : GLenum)
| glGenerateMipmap
| glActiveTexture (unit : Z)
| setValue (name : string) (v : uniform F)
| DrawMesh (m : mesh).
Arguments cout {F} m.
Arguments stbi_set_flip_vertically_on_load {F} flag.
Arguments stbi_image_free {F}.
Arguments glGenTextures {F} name.
Arguments glBindTexture {F} name.
Arguments glTexParameteri {F} pname param.
Arguments glTexImage2D {F} internalformat w h format.
Arguments glGenerateMipmap {F}.
Arguments glActiveTexture {F} unit.
Arguments setValue {F} name v.
Arguments DrawMesh {F} m.

(** The members of [SceneManager].  [m_pShaderManager] is [None] for a
    null pointer and otherwise holds the state of the object it points
    to.  [m_basicMeshes] is allocated by the constructor and never null;
    its draw methods appear as [DrawMesh] calls. *)
Record SceneManager (F : Type) := {
  m_pShaderManager : option (ShaderManager F);
  m_loadedTextures : Z;
  m_textureIDs : list TEXTURE_INFO;
  m_objectMaterials : list (OBJECT_MATERIAL F)
}.
Arguments m_pShaderManager {F} _.
Arguments m_loadedTextures {F} _.
Arguments m_textureIDs {F} _.
Arguments m_objectMaterials {F} _.

(** Modelled from the spec: the declaration [TEXTURE_INFO m_textureIDs[N]]
    is in SceneManager.h, which is not among the sources; the spec and
    the comments of [BindGLTextures] and [LoadSceneTextures] give
    [N = 16]. *)
Definition TEXTURE_SLOTS : Z := 16.

(** The object and its surroundings: the texture names OpenGL has
    generated (none is ever deleted by this unit), and the calls made
    so far, oldest first. *)
Record World (F : Type) := {
  this : SceneManager F;
  gl_textures : list Z;
  calls : list (call F)
}.
Arguments this {F} _.
Arguments gl_textures {F} _.
Arguments calls {F} _.

(** ** Outcomes and the method monad *)

Inductive fault :=
| NullPointer            (* [m_pShaderManager->...] with a null pointer *)
| OutOfBounds (index : Z) (* [m_textureIDs[index]] outside the table *).

Inductive result (A : Type) :=
| Ok (a : A)
| Undefined (f : fault).
Arguments Ok {A} a.
Arguments Undefined {A} f.

Definition M (F A : Type) : Type := World F -> result (A * World F).

#[global] Instance M_ret {F} : MRet (M F) := fun A a w => Ok (a, w).
#[global] Instance M_bind {F} : MBind (M F) := fun A B f c w =>
  match c w with
  | Ok (a, w') => f a w'
  | Undefined u => Undefined u
  end.

(** ** The methods of [SceneManager] *)

Section Methods.
Context {F : Type} `{Float32 F}.

(** What [stbi_load] finds at a path: [None] when the file cannot be
    read or decoded. *)
Variable stbi_load : string -> option Image.

(** The contents of a local [OBJECT_MATERIAL] that has been declared
    but not assigned (its numeric members are left indeterminate by
    the default constructor). *)
Variable indeterminate : OBJECT_MATERIAL F.

(** *** Access to members and collaborators *)

Definition get {A} (member : SceneManager F -> A) : M F A :=
  fun w => Ok (member (this w), w).

Definition emit (c : call F) : M F unit :=
  fun w => Ok (tt, {| this := this w; gl_textures := gl_textures w;
                      calls := calls w ++ [c] |}).

Definition set_m_loadedTextures (n : Z) : M F unit :=
  fun w => Ok (tt, {| this := {| m_pShaderManager := m_pShaderManager (this w);
                                 m_loadedTextures := n;
                                 m_textureIDs := m_textureIDs (this w);
                                 m_objectMaterials := m_objectMaterials (this w) |};
                      gl_textures := gl_textures w; calls := calls w |}).

Definition push_back_m_objectMaterials (m : OBJECT_MATERIAL F) : M F unit :=
  fun w => Ok (tt, {| this := {| m_pShaderManager := m_pShaderManager (this w);
                                 m_loadedTextures := m_loadedTextures (this w);
                                 m_textureIDs := m_textureIDs (this w);
                                 m_objectMaterials := m_objectMaterials (this w) ++ [m] |};
                      gl_textures := gl_textures w; calls := calls w |}).

(** [m_textureIDs[index]] read: defined only inside the table. *)
Definition textureIDs_at (index : Z) : M F TEXTURE_INFO :=
  fun w =>
    if 0 <=? index then
      match m_textureIDs (this w) !! Z.to_nat index with
      | Some e => Ok (e, w)
      | None => Undefined (OutOfBounds index)
      end
    else Undefined (OutOfBounds index).

(** [m_textureIDs[index].field = ...]: defined only inside the table. *)
Definition textureIDs_assign (index : Z) (f : TEXTURE_INFO -> TEXTURE_INFO) : M F unit :=
  fun w =>
    if 0 <=? index then
      match m_textureIDs (this w) !! Z.to_nat index with
      | Some e =>
          Ok (tt, {| this := {| m_pShaderManager := m_pShaderManager (this w);
                                m_loadedTextures := m_loadedTextures (this w);
                                m_textureIDs := <[Z.to_nat index := f e]> (m_textureIDs (this w));
                                m_objectMaterials := m_objectMaterials (this w) |};
                     gl_textures := gl_textures w; calls := calls w |})
      | None => Undefined (OutOfBounds index)
      end
    else Undefined (OutOfBounds index).

Definition set_ID (id : Z) (e : TEXTURE_INFO) : TEXTURE_INFO := {| ID := id; tag := tag e |}.
Definition set_tag (t : string) (e : TEXTURE_INFO) : TEXTURE_INFO := {| ID := ID e; tag := t |}.

(** [glGenTextures(1, &name)]: OpenGL hands out a name that is not in
    use; here the least positive one above all names generated. *)
Definition fresh_name (used : list Z) : Z := 1 + foldr Z.max 0 used.

Definition gen_texture : M F Z :=
  fun w =>
    let name := fresh_name (gl_textures w) in
    Ok (name, {| this := this w; gl_textures := gl_textures w ++ [name];
                 calls := calls w ++ [glGenTextures name] |}).

(** Modelled from the spec: the setters of the class [ShaderManager],
    whose source is not part of this translation unit.  The spec
    describes the parameter store as a named key-to-value map
    accepting typed values, where the last write to a key wins.
    [shader_set] is the call [m_pShaderManager->set...Value(name, v)]
    as the methods below make it: the pointer is dereferenced
    without a check of its own. *)
Definition shader_set (name : string) (v : uniform F) : M F unit :=
  fun w =>
    match m_pShaderManager (this w) with
    | None => Undefined NullPointer
    | Some store =>
        Ok (tt, {| this := {| m_pShaderManager := Some (<[name := v]> store);
                              m_loadedTextures := m_loadedTextures (this w);
                              m_textureIDs := m_textureIDs (this w);
                              m_objectMaterials := m_objectMaterials (this w) |};
                   gl_textures := gl_textures w;
                   calls := calls w ++ [setValue name v] |})
    end.

Definition setMat4Value name (m : glm.mat4 F) := shader_set name (UMat4 m).
Definition setIntValue name (i : Z) := shader_set name (UInt i).
Definition setBoolValue name (b : bool) := shader_set name (UBool b).
Definition setFloatValue name (x : F) := shader_set name (UFloat x).
Definition setVec2Value name (v : glm.vec2 F) := shader_set name (UVec2 v).
Definition setVec3Value name (v : glm.vec3 F) := shader_set name (UVec3 v).
Definition setVec4Value name (v : glm.vec4 F) := shader_set name (UVec4 v).
Definition setSampler2DValue name (slot : Z) := shader_set name (USampler2D slot).

(** [if (NULL != m_pShaderManager) { body }]. *)
Definition if_shader_manager (body : M F unit) : M F unit :=
  p ← get m_pShaderManager;
  match p with
  | Some _ => body
  | None => mret tt
  end.

(** The global names of the anonymous namespace. *)
Definition g_ModelName := "model".
Definition g_ColorValueName := "objectColor".
Definition g_TextureValueName := "objectTexture".
Definition g_UseTextureName := "bUseTexture".
Definition g_UseLightingName := "bUseLighting".

(** *** Texture registry *)

(** Lines 93-103: the upload by channel count; [false] stands for the
    early [return false] of the unsupported-format branch. *)
Definition upload_image (image : Image) : M F bool :=
  if colorChannels image =? 3 then
    emit (glTexImage2D GL_RGB8 (width image) (height image) GL_RGB);;
    mret true
  else if colorChannels image =? 4 then
    emit (glTexImage2D GL_RGBA8 (width image) (height image) GL_RGBA);;
    mret true
  else
    emit (cout (Not_implemented_to_handle_image (colorChannels image)));;
    mret false.

(** Lines 112-117: register the texture under the tag.  No check
    precedes the two writes to [m_textureIDs[m_loadedTextures]]. *)
Definition register_texture (textureID : Z) (the_tag : string) : M F bool :=
  n ← get m_loadedTextures;
  textureIDs_assign n (set_ID textureID);;
  n ← get m_loadedTextures;
  textureIDs_assign n (set_tag the_tag);;
  n ← get m_loadedTextures;
  set_m_loadedTextures (n + 1);;
  mret true.

Definition CreateGLTexture (filename : string) (the_tag : string) : M F bool :=
  emit (stbi_set_flip_vertically_on_load true);;
  match stbi_load filename with
  | Some image =>
      emit (cout (Successfully_loaded_image filename image));;
      textureID ← gen_texture;
      emit (glBindTexture textureID);;
      emit (glTexParameteri GL_TEXTURE_WRAP_S GL_REPEAT);;
      emit (glTexParameteri GL_TEXTURE_WRAP_T GL_REPEAT);;
      emit (glTexParameteri GL_TEXTURE_MIN_FILTER GL_LINEAR);;
      emit (glTexParameteri GL_TEXTURE_MAG_FILTER GL_LINEAR);;
      uploaded ← upload_image image;
      match uploaded with
      | false => mret false
      | true =>
          emit glGenerateMipmap;;
          emit stbi_image_free;;
          emit (glBindTexture 0);;
          register_texture textureID the_tag
      end
  | None =>
      emit (cout (Could_not_load_image filename));;
      mret false
  end.

(** A [for (int i = 0; i < m_loadedTextures; i++)] loop: [remaining]
    is [m_loadedTextures - i], the number of iterations left. *)
Fixpoint for_each_loaded (remaining : nat) (i : Z) (body : Z -> M F unit) : M F unit :=
  match remaining with
  | O => mret tt
  | S r => body i;; for_each_loaded r (i + 1) body
  end.

Definition BindGLTextures : M F unit :=
  n ← get m_loadedTextures;
  for_each_loaded (Z.to_nat n) 0 (fun i =>
    emit (glActiveTexture i);;
    e ← textureIDs_at i;
    emit (glBindTexture (ID e))).

(** The loop body [glGenTextures(1, &m_textureIDs[i].ID)]: a new
    name is generated and stored over the slot's handle. *)
Definition regenerate_slot (i : Z) : M F unit :=
  _ ← textureIDs_at i;
  name ← gen_texture;
  textureIDs_assign i (set_ID name).

Definition DestroyGLTextures : M F unit :=
  n ← get m_loadedTextures;
  for_each_loaded (Z.to_nat n) 0 regenerate_slot.

(** The [while ((index < m_loadedTextures) && (bFound == false))]
    loops: [remaining] is [m_loadedTextures - index]; a match leaves
    the loop with the result, a mismatch advances [index]. *)
Fixpoint find_texture (remaining : nat) (the_tag : string) (index : Z)
    (found : Z -> TEXTURE_INFO -> Z) : M F Z :=
  match remaining with
  | O => mret (-1)
  | S r =>
      e ← textureIDs_at index;
      if String.eqb (tag e) the_tag then mret (found index e)
      else find_texture r the_tag (index + 1) found
  end.

(** The conversion in [textureID = m_textureIDs[index].ID], a 32-bit
    [GLuint] assigned to an [int]: the value congruent modulo 2^32
    that lies in [-2^31, 2^31) (the rule of C++20, and what the
    compilers did before it). *)
Definition int_of_GLuint (handle : Z) : Z :=
  (handle + 2147483648) mod 4294967296 - 2147483648.

Definition FindTextureID (the_tag : string) : M F Z :=
  n ← get m_loadedTextures;
  find_texture (Z.to_nat n) the_tag 0 (fun _ e => int_of_GLuint (ID e)).

Definition FindTextureSlot (the_tag : string) : M F Z :=
  n ← get m_loadedTextures;
  find_texture (Z.to_nat n) the_tag 0 (fun index _ => index).

Definition LoadSceneTextures : M F unit :=
  _ ← CreateGLTexture "../../Utilities/textures/stoneTexture.jpg" "stone";
  _ ← CreateGLTexture "../../Utilities/textures/bushTexture.jpg" "bush";
  _ ← CreateGLTexture "../../Utilities/textures/groundTexture.jpg" "ground";
  _ ← CreateGLTexture "../../Utilities/textures/skyTexture.jpg" "sky";
  BindGLTextures.

(** *** Material registry *)

(** The five assignments of [FindMaterial]'s match branch: every
    member of [material] except its tag is overwritten. *)
Definition copy_material (from material : OBJECT_MATERIAL F) : OBJECT_MATERIAL F :=
  {| ambientColor := ambientColor from;
     ambientStrength := ambientStrength from;
     diffuseColor := diffuseColor from;
     specularColor := specularColor from;
     shininess := shininess from;
     material_tag := material_tag material |}.

(** The [while] loop of [FindMaterial] over [m_objectMaterials[index..]]:
    the first entry with the tag is copied, a mismatch moves on. *)
Fixpoint find_material (entries : list (OBJECT_MATERIAL F)) (the_tag : string)
    (material : OBJECT_MATERIAL F) : OBJECT_MATERIAL F :=
  match entries with
  | [] => material
  | m :: rest =>
      if String.eqb (material_tag m) the_tag then copy_material m material
      else find_material rest the_tag material
  end.

(** [material] is passed by reference: the method returns its [bool]
    together with the referenced object's new value.  The loop's
    [bFound] is not what is returned: line 269 is [return(true)]. *)
Definition FindMaterial (the_tag : string) (material : OBJECT_MATERIAL F)
    : M F (bool * OBJECT_MATERIAL F) :=
  ms ← get m_objectMaterials;
  match ms with
  | [] => mret (false, material)
  | _ :: _ => mret (true, find_material ms the_tag material)
  end.

(** *** Shader parameter binder *)

Definition SetTransformations (scaleXYZ : glm.vec3 F)
    (XrotationDegrees YrotationDegrees ZrotationDegrees : F)
    (positionXYZ : glm.vec3 F) : M F unit :=
  let scale := glm.scale scaleXYZ in
  let rotationX := glm.rotate (glm.radians XrotationDegrees) (glm.Vec3 glm.one glm.zero glm.zero) in
  let rotationY := glm.rotate (glm.radians YrotationDegrees) (glm.Vec3 glm.zero glm.one glm.zero) in
  let rotationZ := glm.rotate (glm.radians ZrotationDegrees) (glm.Vec3 glm.zero glm.zero glm.one) in
  let translation := glm.translate positionXYZ in
  let modelView :=
    glm.mul (glm.mul (glm.mul (glm.mul translation rotationX) rotationY) rotationZ) scale in
  if_shader_manager (setMat4Value g_ModelName modelView).

Definition SetShaderColor (redColorValue greenColorValue blueColorValue alphaValue : F)
    : M F unit :=
  let currentColor := glm.Vec4 redColorValue greenColorValue blueColorValue alphaValue in
  if_shader_manager (
    setIntValue g_UseTextureName (Z.b2z false);;
    setVec4Value g_ColorValueName currentColor).

Definition SetShaderTexture (textureTag : string) : M F unit :=
  if_shader_manager (
    setIntValue g_UseTextureName (Z.b2z true);;
    textureID ← FindTextureSlot textureTag;
    setSampler2DValue g_TextureValueName textureID).

Definition SetTextureUVScale (u v : F) : M F unit :=
  if_shader_manager (setVec2Value "UVscale" (glm.Vec2 u v)).

Definition SetShaderMaterial (materialTag : string) : M F unit :=
  ms ← get m_objectMaterials;
  match ms with
  | _ :: _ =>
      let material := indeterminate in
      r ← FindMaterial materialTag material;
      let '(bReturn, material) := r in
      match bReturn with
      | true =>
          setVec3Value "material.ambientColor" (ambientColor material);;
          setFloatValue "material.ambientStrength" (ambientStrength material);;
          setVec3Value "material.diffuseColor" (diffuseColor material);;
          setVec3Value "material.specularColor" (specularColor material);;
          setFloatValue "material.shininess" (shininess material)
      | false => mret tt
      end
  | [] => mret tt
  end.

(** *** Scene composer *)

Definition define_material (ambient : glm.vec3 F) (strength : F)
    (diffuse specular : glm.vec3 F) (shine : F) (the_tag : string) : M F unit :=
  push_back_m_objectMaterials
    {| ambientColor := ambient; ambientStrength := strength;
       diffuseColor := diffuse; specularColor := specular;
       shininess := shine; material_tag := the_tag |}.

Definition v3 (a b c : F) : glm.vec3 F := glm.Vec3 a b c.

Definition DefineObjectMaterials : M F unit :=
  define_material (v3 (dec 1 10) (dec 1 10) (dec 1 10)) (dec 1 10)
    (v3 (dec 6 10) (dec 5 10) (dec 4 10)) (v3 (dec 2 10) (dec 3 10) (dec 4 10))
    (dec 5 10) "box1";;
  define_material (v3 (dec 1 10) (dec 1 10) (dec 1 10)) (dec 1 10)
    (v3 (dec 6 10) (dec 5 10) (dec 4 10)) (v3 (dec 2 10) (dec 3 10) (dec 4 10))
    (dec 5 10) "box2";;
  define_material (v3 (dec 1 10) (dec 1 10) (dec 1 10)) (dec 1 10)
    (v3 (dec 6 10) (dec 5 10) (dec 4 10)) (v3 (dec 2 10) (dec 3 10) (dec 4 10))
    (dec 5 10) "box3";;
  define_material (v3 (dec 1 10) (dec 1 10) (dec 1 10)) (dec 1 10)
    (v3 (dec 6 10) (dec 5 10) (dec 4 10)) (v3 (dec 2 10) (dec 3 10) (dec 4 10))
    (dec 5 10) "box4";;
  define_material (v3 (dec 1 10) (dec 1 10) (dec 1 10)) (dec 1 10)
    (v3 (dec 8 10) (dec 7 10) (dec 5 10)) (v3 (dec 2 10) (dec 3 10) (dec 4 10))
    (dec 5 10) "prism";;
  define_material (v3 (dec 1 10) (dec 1 10) (dec 1 10)) (dec 1 10)
    (v3 (dec 3 10) (dec 7 10) (dec 5 10)) (v3 (dec 2 10) (dec 3 10) (dec 4 10))
    (dec 7 10) "torus";;
  define_material (v3 (dec 1 10) (dec 1 10) (dec 1 10)) (dec 1 10)
    (v3 (dec 9 10) (dec 9 10) (dec 9 10)) (v3 (dec 5 10) (dec 5 10) (dec 5 10))
    (dec 8 10) "topPlane";;
  define_material (v3 (dec 1 10) (dec 1 10) (dec 1 10)) (dec 1 10)
    (v3 (dec 3 10) (dec 3 10) (dec 3 10)) (v3 (dec 5 10) (dec 5 10) (dec 5 10))
    (dec 3 10) "bottomPlane".

Definition RenderScene : M F unit :=
  (* Bottom Plane - GROUND *)
  SetTransformations (v3 (flt 20) (flt 1) (flt 10)) (flt 0) (flt 0) (flt 0)
    (v3 (flt 0) (flt 0) (flt 0));;
  SetShaderColor (flt 1) (flt 1) (flt 1) (flt 1);;
  SetShaderTexture "ground";;
  SetShaderMaterial "bottomPlane";;
  emit (DrawMesh Plane);;
  (* Top Plane - Background *)
  SetTransformations (v3 (flt 20) (flt 1) (flt 10)) (flt 90) (flt 0) (flt 0)
    (v3 (flt 0) (flt 9) (flt (-10)));;
  SetShaderColor (flt 1) (flt 1) (flt 1) (flt 1);;
  SetShaderTexture "sky";;
  SetShaderMaterial "topPlane";;
  emit (DrawMesh Plane);;
  (* Torus *)
  SetTransformations (v3 (flt 10) (flt 6) (flt 2)) (flt 90) (flt 0) (flt 0)
    (v3 (flt 0) (flt 0) (flt 2));;
  SetShaderColor (dec 243 1000) (dec 651 1000) (dec 286 1000) (flt 1);;
  SetShaderTexture "bush";;
  SetShaderMaterial "torus";;
  emit (DrawMesh Torus);;
  (* Box 1 *)
  SetTransformations (v3 (flt 7) (flt 4) (flt 3)) (flt 0) (flt 0) (flt 0)
    (v3 (flt 0) (flt 1) (dec 25 10));;
  SetShaderColor (dec 871 1000) (dec 804 1000) (dec 675 1000) (flt 1);;
  SetShaderTexture "stone";;
  SetShaderMaterial "box1";;
  emit (DrawMesh Box);;
  (* Box 2 *)
  SetTransformations (v3 (flt 5) (dec 25 10) (flt 3)) (flt 0) (flt 0) (flt 0)
    (v3 (flt 0) (dec 35 10) (dec 25 10));;
  SetShaderColor (dec 871 1000) (dec 804 1000) (dec 675 1000) (flt 1);;
  SetShaderTexture "stone";;
  SetShaderMaterial "box2";;
  emit (DrawMesh Box);;
  (* Box 3 *)
  SetTransformations (v3 (dec 35 10) (flt 3) (dec 25 10)) (flt 0) (flt 0) (flt 0)
    (v3 (flt 0) (flt 6) (flt 2));;
  SetShaderColor (dec 871 1000) (dec 804 1000) (dec 675 1000) (flt 1);;
  SetShaderTexture "stone";;
  SetShaderMaterial "box3";;
  emit (DrawMesh Box);;
  (* Box 4 *)
  SetTransformations (v3 (flt 2) (flt 1) (dec 25 10)) (flt 0) (flt 0) (flt 0)
    (v3 (flt 0) (flt 8) (flt 2));;
  SetShaderColor (dec 871 1000) (dec 804 1000) (dec 675 1000) (flt 1);;
  SetShaderTexture "stone";;
  SetShaderMaterial "box4";;
  emit (DrawMesh Box);;
  (* Prism *)
  SetTransformations (v3 (dec 175 100) (flt 2) (dec 23 10)) (flt (-90)) (flt 0) (flt 0)
    (v3 (flt 0) (dec 93 10) (flt 2));;
  SetShaderColor (dec 871 1000) (dec 804 1000) (dec 675 1000) (flt 1);;
  SetShaderTexture "stone";;
  SetShaderMaterial "prism";;
  emit (DrawMesh Prism).

(** *** Lights and scene preparation *)

(** The overload [setVec3Value(name, x, y, z)]. *)
Definition setVec3Value3 name (x y z : F) := shader_set name (UVec3 (glm.Vec3 x y z)).

(** [SetupSceneLights]: no method of the unit calls it, and none of
    its writes is guarded by a null check.  The [focalStrength] writes
    of lights 1 to 3 are commented out in the source. *)
Definition SetupSceneLights : M F unit :=
  (* light source 1 - the sun at midday *)
  setVec3Value3 "lightSources[0].position" (flt 10) (flt 14) (flt 5);;
  setVec3Value3 "lightSources[0].ambientColor" (dec 2 10) (dec 2 10) (dec 5 10);;
  setVec3Value3 "lightSources[0].diffuseColor" (flt 1) (dec 95 100) (dec 8 10);;
  setVec3Value3 "lightSources[0].specularColor" (flt 1) (flt 1) (dec 9 10);;
  setFloatValue "lightSources[0].focalStrength" (flt 64);;
  setFloatValue "lightSources[0].specularIntensity" (dec 8 10);;
  (* light source 2 - fill light *)
  setVec3Value3 "lightSources[1].position" (flt (-5)) (flt 5) (flt (-3));;
  setVec3Value3 "lightSources[1].ambientColor" (dec 5 100) (dec 1 10) (dec 5 100);;
  setVec3Value3 "lightSources[1].diffuseColor" (dec 2 10) (dec 3 10) (dec 2 10);;
  setVec3Value3 "lightSources[1].specularColor" (flt 0) (flt 0) (flt 0);;
  setFloatValue "lightSources[1].specularIntensity" (flt 0);;
  (* light source 3 - bounce light *)
  setVec3Value3 "lightSources[2].position" (flt 0) (dec 5 10) (flt 0);;
  setVec3Value3 "lightSources[2].ambientColor" (dec 5 100) (dec 4 100) (dec 3 100);;
  setVec3Value3 "lightSources[2].diffuseColor" (dec 1 10) (dec 1 10) (dec 8 100);;
  setVec3Value3 "lightSources[2].specularColor" (flt 0) (flt 0) (flt 0);;
  setFloatValue "lightSources[2].specularIntensity" (flt 0);;
  (* light source 4 - backlight *)
  setVec3Value3 "lightSources[3].position" (flt 0) (flt 14) (flt (-10));;
  setVec3Value3 "lightSources[3].ambientColor" (dec 5 100) (dec 5 100) (dec 5 100);;
  setVec3Value3 "lightSources[3].diffuseColor" (dec 2 10) (dec 2 10) (dec 2 10);;
  setVec3Value3 "lightSources[3].specularColor" (flt 0) (flt 0) (flt 0);;
  setFloatValue "lightSources[3].specularIntensity" (flt 0);;
  (* enabling custom lighting *)
  setBoolValue "bUseLighting" true.

(** Modelled from the spec: the class [ShapeMeshes] behind
    [m_basicMeshes], whose source is not part of this translation
    unit.  The spec's geometry provider builds the buffers of a mesh
    kind once; the object's state is kept as the list of the
    [Load...Mesh] calls made on it, oldest first. *)
Record Stage := {
  world : World F;
  m_basicMeshes : list mesh
}.

(** [PrepareScene]: the textures, then the five meshes. *)
Definition PrepareScene (st : Stage) : result (unit * Stage) :=
  match LoadSceneTextures (world st) with
  | Ok (_, w') =>
      Ok (tt, {| world := w';
                 m_basicMeshes :=
                   m_basicMeshes st ++ [Plane; Torus; Box; TaperedCylinder; Prism] |})
  | Undefined u => Undefined u
  end.
End Methods.
Arguments Stage : clear implicits.

(** ** Notions used by the specification *)

(** The pixel formats [CreateGLTexture] uploads: RGB and RGBA. *)
Definition supported (image : Image) : Prop :=
  colorChannels image = 3 \/ colorChannels image = 4.

Section Specification.
Context {F : Type} `{Float32 F}.

(** The texture table is intact: [m_textureIDs] has its declared
    size and the counter lies within it. *)
Definition table_ok (s : SceneManager F) : Prop :=
  Z.of_nat (length (m_textureIDs s)) = TEXTURE_SLOTS /\
  0 <= m_loadedTextures s <= TEXTURE_SLOTS.

(** The occupied slots, slot 0 first. *)
Definition occupied (s : SceneManager F) : list TEXTURE_INFO :=
  take (Z.to_nat (m_loadedTextures s)) (m_textureIDs s).

(** Lookup by tag as the spec words it: the position of the first
    entry whose tag equals the argument, or the sentinel [-1]. *)
Fixpoint first_match (entries : list TEXTURE_INFO) (the_tag : string) (slot : Z) : Z :=
  match entries with
  | [] => -1
  | e :: rest =>
      if String.eqb (tag e) the_tag then slot else first_match rest the_tag (slot + 1)
  end.
Definition lookup_by_tag (s : SceneManager F) (the_tag : string) : Z :=
  first_match (occupied s) the_tag 0.

(** Material lookup as the spec words it: the first match, if any. *)
Definition lookup_material (s : SceneManager F) (the_tag : string)
    : option (OBJECT_MATERIAL F) :=
  List.find (fun m => String.eqb (material_tag m) the_tag) (m_objectMaterials s).

(** The five parameters a material is bound to, in the order written. *)
Definition material_writes (m : OBJECT_MATERIAL F) : list (string * uniform F) :=
  [ ("material.ambientColor", UVec3 (ambientColor m));
    ("material.ambientStrength", UFloat (ambientStrength m));
    ("material.diffuseColor", UVec3 (diffuseColor m));
    ("material.specularColor", UVec3 (specularColor m));
    ("material.shininess", UFloat (shininess m)) ].

(** A sequence of writes applied to a store, the last write winning. *)
Definition apply_writes (ws : list (string * uniform F)) (store : ShaderManager F)
    : ShaderManager F :=
  foldl (fun st kv => <[kv.1 := kv.2]> st) store ws.

Definition write_calls (ws : list (string * uniform F)) : list (call F) :=
  map (fun kv => setValue kv.1 kv.2) ws.

(** The store the object's pointer refers to. *)
Definition store_of (w : World F) : option (ShaderManager F) := m_pShaderManager (this w).

(** The matrix that [SetTransformations] computes, through GLM:
    translate(position) * rotate X * rotate Y * rotate Z * scale(scale).
    The product in the spec's own terms is [spec_model_matrix] below. *)
Definition model_matrix (scaleXYZ : glm.vec3 F) (rx ry rz : F) (positionXYZ : glm.vec3 F)
    : glm.mat4 F :=
  let T := glm.translate positionXYZ in
  let Rx := glm.rotate (glm.radians rx) (glm.Vec3 glm.one glm.zero glm.zero) in
  let Ry := glm.rotate (glm.radians ry) (glm.Vec3 glm.zero glm.one glm.zero) in
  let Rz := glm.rotate (glm.radians rz) (glm.Vec3 glm.zero glm.zero glm.one) in
  let S := glm.scale scaleXYZ in
  glm.mul (glm.mul (glm.mul (glm.mul T Rx) Ry) Rz) S.

(** A matrix that only scales: the factors on the diagonal, a 1 in the
    homogeneous corner, zero everywhere else. *)
Definition pure_scale (sx sy sz : F) : glm.mat4 F :=
  glm.Mat4 (glm.Vec4 sx glm.zero glm.zero glm.zero)
           (glm.Vec4 glm.zero sy glm.zero glm.zero)
           (glm.Vec4 glm.zero glm.zero sz glm.zero)
           (glm.Vec4 glm.zero glm.zero glm.zero glm.one).

(** The facts of [float] arithmetic the scale example rests on.  All
    of them concern the exactly representable values 0, 1 and 2, on
    which IEEE arithmetic is exact, and the values the C library
    fixes for [cos] and [sin] at zero. *)
Definition small (x : F) : Prop := x = flt 0 \/ x = flt 1 \/ x = flt 2.

Class ExactOnSmall : Prop := {
  mul_0_l : forall x, small x -> f_mul (flt 0) x = flt 0;
  mul_0_r : forall x, small x -> f_mul x (flt 0) = flt 0;
  mul_1_l : forall x, small x -> f_mul (flt 1) x = x;
  mul_1_r : forall x, small x -> f_mul x (flt 1) = x;
  add_0_l : forall x, small x -> f_add (flt 0) x = x;
  add_0_r : forall x, small x -> f_add x (flt 0) = x;
  sub_0_0 : f_sub (flt 0) (flt 0) = flt 0;
  sub_1_1 : f_sub (flt 1) (flt 1) = flt 0;
  radians_0 : f_mul (flt 0) glm.radians_factor = flt 0;
  cos_0 : f_cos (flt 0) = flt 1;
  sin_0 : f_sin (flt 0) = flt 0;
  inversesqrt_1 : f_inversesqrt (flt 1) = flt 1
}.

(** *** The transformations as the spec names them

    The spec's model matrix is a product of five 4 x 4 matrices in the
    mathematical reading: [A i j] is the entry in row [i] and column
    [j], the product is rows by columns, and a matrix acts on a
    column vector (x, y, z, 1) from the left, so that in
    Translate * RotateX * RotateY * RotateZ * Scale the scale is
    applied first and the translation last.  The definitions below
    follow the spec's words and use nothing of GLM. *)
Definition matrix : Type := nat -> nat -> F.
Definition row : Type := (F * F * F * F)%type.

(** A matrix given by its four rows. *)
Definition rows (r0 r1 r2 r3 : row) : matrix := fun i j =>
  let '(a, b, c, d) :=
    match i with O => r0 | 1%nat => r1 | 2%nat => r2 | _ => r3 end in
  match j with O => a | 1%nat => b | 2%nat => c | _ => d end.

Definition negated (x : F) : F := f_sub (flt 0) x.

(** Translation by [p]: the identity with [p] in the last column. *)
Definition Translate (p : glm.vec3 F) : matrix :=
  rows (flt 1, flt 0, flt 0, glm.x3 p)
       (flt 0, flt 1, flt 0, glm.y3 p)
       (flt 0, flt 0, flt 1, glm.z3 p)
       (flt 0, flt 0, flt 0, flt 1).

(** The counter-clockwise rotations about the three axes, by an
    angle in radians. *)
Definition RotateX (angle : F) : matrix :=
  let c := f_cos angle in
  let s := f_sin angle in
  rows (flt 1, flt 0, flt 0, flt 0)
       (flt 0, c, negated s, flt 0)
       (flt 0, s, c, flt 0)
       (flt 0, flt 0, flt 0, flt 1).
Definition RotateY (angle : F) : matrix :=
  let c := f_cos angle in
  let s := f_sin angle in
  rows (c, flt 0, s, flt 0)
       (flt 0, flt 1, flt 0, flt 0)
       (negated s, flt 0, c, flt 0)
       (flt 0, flt 0, flt 0, flt 1).
Definition RotateZ (angle : F) : matrix :=
  let c := f_cos angle in
  let s := f_sin angle in
  rows (c, negated s, flt 0, flt 0)
       (s, c, flt 0, flt 0)
       (flt 0, flt 0, flt 1, flt 0)
       (flt 0, flt 0, flt 0, flt 1).

(** Scaling: the factors on the diagonal. *)
Definition Scale (s : glm.vec3 F) : matrix :=
  rows (glm.x3 s, flt 0, flt 0, flt 0)
       (flt 0, glm.y3 s, flt 0, flt 0)
       (flt 0, flt 0, glm.z3 s, flt 0)
       (flt 0, flt 0, flt 0, flt 1).

(** The matrix product, rows by columns. *)
Definition times (A B : matrix) : matrix := fun i j =>
  f_add
    (f_add
       (f_add (f_mul (A i 0%nat) (B 0%nat j)) (f_mul (A i 1%nat) (B 1%nat j)))
       (f_mul (A i 2%nat) (B 2%nat j)))
    (f_mul (A i 3%nat) (B 3%nat j)).

(** An angle in degrees as an angle in radians; the factor is pi / 180
    to 32 decimal places. *)
Definition degrees_to_radians (degrees : F) : F :=
  f_mul degrees
    (f_lit (Qmake 1745329251994329576923690768489 100000000000000000000000000000000)).

(** The model matrix in the spec's words. *)
Definition spec_model_matrix (scaleXYZ : glm.vec3 F) (rx ry rz : F)
    (positionXYZ : glm.vec3 F) : matrix :=
  times
    (times
       (times
          (times (Translate positionXYZ) (RotateX (degrees_to_radians rx)))
          (RotateY (degrees_to_radians ry)))
       (RotateZ (degrees_to_radians rz)))
    (Scale scaleXYZ).

(** A matrix acting on the point (x, y, z), read as the column
    (x, y, z, 1); and the five transformations as maps of points. *)
Definition acts_on (A : matrix) (v : glm.vec3 F) : glm.vec3 F :=
  let at_row i :=
    f_add
      (f_add
         (f_add (f_mul (A i 0%nat) (glm.x3 v)) (f_mul (A i 1%nat) (glm.y3 v)))
         (f_mul (A i 2%nat) (glm.z3 v)))
      (A i 3%nat) in
  glm.Vec3 (at_row 0%nat) (at_row 1%nat) (at_row 2%nat).

(** GLM stores a matrix by columns: [m[j][i]] is the entry in row
    [i] of column [j]. *)
Definition entry (m : glm.mat4 F) (i j : nat) : F :=
  let column :=
    match j with
    | O => glm.col0 m | 1%nat => glm.col1 m | 2%nat => glm.col2 m | _ => glm.col3 m
    end in
  match i with
  | O => glm.x4 column | 1%nat => glm.y4 column | 2%nat => glm.z4 column
  | _ => glm.w4 column
  end.
Definition as_mat4 (A : matrix) : glm.mat4 F :=
  let column j := glm.Vec4 (A 0%nat j) (A 1%nat j) (A 2%nat j) (A 3%nat j) in
  glm.Mat4 (column 0%nat) (column 1%nat) (column 2%nat) (column 3%nat).

(** Exact arithmetic: the laws of a commutative ring, and
    1 / sqrt 1 = 1.  The real numbers satisfy them.  [float] does not
    (its addition is not associative): there the code evaluates the
    same expressions with every operation rounded. *)
Class IdealArithmetic : Prop := {
  ideal_ring : ring_theory (flt 0) (flt 1) f_add f_mul f_sub negated eq;
  ideal_inversesqrt_1 : f_inversesqrt (flt 1) = flt 1
}.

(** *** The scene as a list of authored objects *)

Record RenderObject := {
  meshKind : mesh;
  scaleXYZ : glm.vec3 F;
  rotationDegrees : F * F * F;
  positionXYZ : glm.vec3 F;
  color : glm.vec4 F;
  textureTag : string;
  materialTag : string
}.

Definition object (k : mesh) (s : glm.vec3 F) (rx ry rz : F) (p : glm.vec3 F)
    (r g b a : F) (tex mat : string) : RenderObject :=
  {| meshKind := k; scaleXYZ := s; rotationDegrees := (rx, ry, rz); positionXYZ := p;
     color := glm.Vec4 r g b a; textureTag := tex; materialTag := mat |}.

(** The eight objects of [RenderScene], in the order of the source. *)
Definition authored_scene : list RenderObject :=
  [ object Plane (v3 (flt 20) (flt 1) (flt 10)) (flt 0) (flt 0) (flt 0)
      (v3 (flt 0) (flt 0) (flt 0)) (flt 1) (flt 1) (flt 1) (flt 1) "ground" "bottomPlane";
    object Plane (v3 (flt 20) (flt 1) (flt 10)) (flt 90) (flt 0) (flt 0)
      (v3 (flt 0) (flt 9) (flt (-10))) (flt 1) (flt 1) (flt 1) (flt 1) "sky" "topPlane";
    object Torus (v3 (flt 10) (flt 6) (flt 2)) (flt 90) (flt 0) (flt 0)
      (v3 (flt 0) (flt 0) (flt 2))
      (dec 243 1000) (dec 651 1000) (dec 286 1000) (flt 1) "bush" "torus";
    object Box (v3 (flt 7) (flt 4) (flt 3)) (flt 0) (flt 0) (flt 0)
      (v3 (flt 0) (flt 1) (dec 25 10))
      (dec 871 1000) (dec 804 1000) (dec 675 1000) (flt 1) "stone" "box1";
    object Box (v3 (flt 5) (dec 25 10) (flt 3)) (flt 0) (flt 0) (flt 0)
      (v3 (flt 0) (dec 35 10) (dec 25 10))
      (dec 871 1000) (dec 804 1000) (dec 675 1000) (flt 1) "stone" "box2";
    object Box (v3 (dec 35 10) (flt 3) (dec 25 10)) (flt 0) (flt 0) (flt 0)
      (v3 (flt 0) (flt 6) (flt 2))
      (dec 871 1000) (dec 804 1000) (dec 675 1000) (flt 1) "stone" "box3";
    object Box (v3 (flt 2) (flt 1) (dec 25 10)) (flt 0) (flt 0) (flt 0)
      (v3 (flt 0) (flt 8) (flt 2))
      (dec 871 1000) (dec 804 1000) (dec 675 1000) (flt 1) "stone" "box4";
    object Prism (v3 (dec 175 100) (flt 2) (dec 23 10)) (flt (-90)) (flt 0) (flt 0)
      (v3 (flt 0) (dec 93 10) (flt 2))
      (dec 871 1000) (dec 804 1000) (dec 675 1000) (flt 1) "stone" "prism" ].

(** The writes that precede one object's draw call, as [RenderScene]
    issues them when every lookup succeeds: the transform, the color
    (which clears the texture flag), the texture (which sets it
    again), and the material if the registry holds one. *)
Definition transform_writes (o : RenderObject) : list (string * uniform F) :=
  [ ("model", UMat4 (model_matrix (scaleXYZ o) (rotationDegrees o).1.1
                       (rotationDegrees o).1.2 (rotationDegrees o).2 (positionXYZ o))) ].
Definition color_writes (o : RenderObject) : list (string * uniform F) :=
  [ ("bUseTexture", UInt 0); ("objectColor", UVec4 (color o)) ].
Definition texture_writes (s : SceneManager F) (o : RenderObject) : list (string * uniform F) :=
  [ ("bUseTexture", UInt 1);
    ("objectTexture", USampler2D (lookup_by_tag s (textureTag o))) ].
Definition bound_material_writes (s : SceneManager F) (o : RenderObject)
    : list (string * uniform F) :=
  match lookup_material s (materialTag o) with
  | Some m => material_writes m
  | None => []
  end.
Definition object_writes (s : SceneManager F) (o : RenderObject) : list (string * uniform F) :=
  transform_writes o ++ color_writes o ++ texture_writes s o ++ bound_material_writes s o.
Definition object_calls (s : SceneManager F) (o : RenderObject) : list (call F) :=
  write_calls (object_writes s o) ++ [DrawMesh (meshKind o)].

(** The object's material tag is defined, or no material is defined
    at all; likewise for every object of the scene. *)
Definition resolves (s : SceneManager F) (o : RenderObject) : Prop :=
  m_objectMaterials s = [] \/ is_Some (lookup_material s (materialTag o)).
Definition materials_resolve (s : SceneManager F) : Prop :=
  Forall (resolves s) authored_scene.

(** *** Reading a call sequence frame by frame *)

(** The calls cut after each draw call: one frame per draw, holding
    the calls that precede it since the previous draw. *)
Fixpoint frames_from (pending : list (call F)) (cs : list (call F))
    : list (list (call F) * mesh) :=
  match cs with
  | [] => []
  | DrawMesh k :: rest => (pending, k) :: frames_from [] rest
  | c :: rest => frames_from (pending ++ [c]) rest
  end.
Definition frames (cs : list (call F)) : list (list (call F) * mesh) := frames_from [] cs.

Definition writes_to (name : string) (c : call F) : bool :=
  match c with
  | setValue n _ => String.eqb n name
  | _ => false
  end.
Definition is_material_write (c : call F) : bool :=
  match c with
  | setValue n _ => String.prefix "material." n
  | _ => false
  end.
Definition count (p : call F -> bool) (cs : list (call F)) : nat := length (List.filter p cs).

Definition transform_count := count (writes_to "model").
Definition set_color_count := count (writes_to "objectColor").
Definition set_texture_count := count (writes_to "objectTexture").
Definition material_count := count is_material_write.

(** The meshes drawn, in the order of the draw calls. *)
Definition draws (cs : list (call F)) : list mesh :=
  omap (fun c => match c with DrawMesh k => Some k | _ => None end) cs.

(** The frame shape the claim asks for: one transform write, one
    appearance write (color or texture, not both), and the material
    written once (five parameters) or skipped. *)
Definition frame_as_claimed (f : list (call F)) : Prop :=
  transform_count f = 1%nat /\
  (set_color_count f + set_texture_count f = 1)%nat /\
  (material_count f = 5%nat \/ material_count f = 0%nat).

(** The frame shape of the source: both appearance writes. *)
Definition frame_as_coded (f : list (call F)) : Prop :=
  transform_count f = 1%nat /\
  set_color_count f = 1%nat /\
  set_texture_count f = 1%nat /\
  (material_count f = 5%nat \/ material_count f = 0%nat).

(** *** The composer as a loop over the authored list *)

(** The spec's render-frame: for each object bind the transform, the
    appearance and the material, then draw. *)
Definition render_object (leftover_local : OBJECT_MATERIAL F) (o : RenderObject)
    : M F unit :=
  SetTransformations (scaleXYZ o) (rotationDegrees o).1.1 (rotationDegrees o).1.2
    (rotationDegrees o).2 (positionXYZ o);;
  SetShaderColor (glm.x4 (color o)) (glm.y4 (color o)) (glm.z4 (color o))
    (glm.w4 (color o));;
  SetShaderTexture (textureTag o);;
  SetShaderMaterial leftover_local (materialTag o);;
  emit (DrawMesh (meshKind o)).

Fixpoint render_all (leftover_local : OBJECT_MATERIAL F) (scene : list RenderObject)
    : M F unit :=
  match scene with
  | [] => mret tt
  | o :: rest => render_object leftover_local o;; render_all leftover_local rest
  end.

(** The world after a sequence of store writes through an attached
    shader manager, and after one more call. *)
Definition with_writes (ws : list (string * uniform F)) (w : World F) : World F :=
  {| this := {| m_pShaderManager := apply_writes ws <$> m_pShaderManager (this w);
                m_loadedTextures := m_loadedTextures (this w);
                m_textureIDs := m_textureIDs (this w);
                m_objectMaterials := m_objectMaterials (this w) |};
     gl_textures := gl_textures w;
     calls := calls w ++ write_calls ws |}.
Definition with_call (c : call F) (w : World F) : World F :=
  {| this := this w; gl_textures := gl_textures w; calls := calls w ++ [c] |}.
Definition drawn (s : SceneManager F) (w : World F) (o : RenderObject) : World F :=
  with_call (DrawMesh (meshKind o)) (with_writes (object_writes s o) w).
End Specification.

(** ** Scenarios *)

Section Scenarios.
Context {F : Type} `{Float32 F}.
Variable stbi_load : string -> option Image.

(** A run of [load] calls, each a path and a tag, in order. *)
Fixpoint load_all (requests : list (string * string)) : M F (list bool) :=
  match requests with
  | [] => mret []
  | (filename, the_tag) :: rest =>
      b ← CreateGLTexture stbi_load filename the_tag;
      bs ← load_all rest;
      mret (b :: bs)
  end.

(** The tags of the requests that [load_all] reported as loaded. *)
Fixpoint loaded_tags (requests : list (string * string)) (results : list bool)
    : list string :=
  match requests, results with
  | (_, the_tag) :: rest, true :: bs => the_tag :: loaded_tags rest bs
  | _ :: rest, false :: bs => loaded_tags rest bs
  | _, _ => []
  end.

(** A table of 16 default-constructed slots. *)
Definition blank_table : list TEXTURE_INFO :=
  replicate (Z.to_nat TEXTURE_SLOTS) {| ID := 0; tag := "" |}.

(** An object with both registries empty, as scene preparation
    expects to find it, attached to the given shader manager. *)
Definition fresh_scene (p : option (ShaderManager F)) : World F :=
  {| this := {| m_pShaderManager := p; m_loadedTextures := 0;
                m_textureIDs := blank_table; m_objectMaterials := [] |};
     gl_textures := []; calls := [] |}.

(** The world a computation ends in ([w] itself if it faults). *)
Definition after {A} (c : M F A) (w : World F) : World F :=
  match c w with
  | Ok (_, w') => w'
  | Undefined _ => w
  end.
End Scenarios.

(** A decoder that reads every file as a 64 x 64 image with the given
    number of channels, and one that reads nothing. *)
Definition decodes_with (channels : Z) : string -> option Image :=
  fun _ => Some {| width := 64; height := 64; colorChannels := channels |}.
Definition unreadable : string -> option Image := fun _ => None.
Definition rgb_image : Image := {| width := 64; height := 64; colorChannels := 3 |}.
Definition two_channel_image : Image := {| width := 64; height := 64; colorChannels := 2 |}.

(** Sixteen distinct load requests. *)
Definition sixteen_requests : list (string * string) :=
  map (fun t => ("t.jpg", t))
    ["t0"; "t1"; "t2"; "t3"; "t4"; "t5"; "t6"; "t7";
     "t8"; "t9"; "t10"; "t11"; "t12"; "t13"; "t14"; "t15"].

(** Real arithmetic as an instance of [Float32]: the arithmetic that
    [float] approximates. *)
#[global] Instance real_arithmetic : Float32 R := {|
  f_lit := Q2R;
  f_add := Rplus;
  f_sub := Rminus;
  f_mul := Rmult;
  f_cos := cos;
  f_sin := sin;
  f_inversesqrt := fun x => (/ sqrt x)%R
|}.

(** IEEE 754 single precision (24 bits of precision, exponents up to
    128) as an instance of [Float32], over the specification of
    floating-point arithmetic in the standard library.  A literal
    [m / d] is the quotient of the two integers, taken exactly and
    rounded once, to the nearest value; [glm::inversesqrt] is
    [1 / sqrt x].  The C library's [cos] and [sin] are left as
    parameters. *)
Definition binary32_of_Z (n : Z) : spec_float := binary_normalize 24 128 n 0 false.

(** An integer as a floating-point datum of that exact value: the
    mantissa is the integer itself, not rounded to 24 bits. *)
Definition exact_Z (n : Z) : spec_float :=
  match n with
  | Z0 => S754_zero false
  | Zpos p => S754_finite false p 0
  | Zneg p => S754_finite true p 0
  end.

Definition binary32 (cosf sinf : spec_float -> spec_float) : Float32 spec_float := {|
  f_lit := fun q => SFdiv 24 128 (exact_Z (Qnum q)) (exact_Z (Zpos (Qden q)));
  f_add := SFadd 24 128;
  f_sub := SFsub 24 128;
  f_mul := SFmul 24 128;
  f_cos := cosf;
  f_sin := sinf;
  f_inversesqrt := fun x => SFdiv 24 128 (binary32_of_Z 1) (SFsqrt 24 128 x)
|}.

(** An arbitrary content for an unassigned local material. *)
Definition leftover : OBJECT_MATERIAL R :=
  {| ambientColor := glm.Vec3 7%R 7%R 7%R; ambientStrength := 7%R;
     diffuseColor := glm.Vec3 7%R 7%R 7%R; specularColor := glm.Vec3 7%R 7%R 7%R;
     shininess := 7%R; material_tag := "" |}.

(** The scene as [DefineObjectMaterials] and [LoadSceneTextures] leave
    it when all four texture files decode as RGB images. *)
Definition prepared_scene {F : Type} `{Float32 F} : World F :=
  after (DefineObjectMaterials;; LoadSceneTextures (decodes_with 3)) (fresh_scene (Some ∅)).

(** The same materials on an object constructed with a null shader
    manager. *)
Definition unattached_scene {F : Type} `{Float32 F} : World F :=
  after DefineObjectMaterials (fresh_scene None).

(** The registry filled to capacity by sixteen loads. *)
Definition full_registry {F : Type} `{Float32 F} : World F :=
  after (load_all (decodes_with 3) sixteen_requests) (fresh_scene (Some ∅)).

(** ** Further notions, for the rest of the unit *)

Section FurtherNotions.
Context {F : Type} `{Float32 F}.
Variable stbi_load : string -> option Image.

(** The calls that bind a run of slots to consecutive texture units,
    starting at [unit]. *)
Fixpoint bind_calls (entries : list TEXTURE_INFO) (unit : Z) : list (call F) :=
  match entries with
  | [] => []
  | e :: rest => glActiveTexture unit :: glBindTexture (ID e) :: bind_calls rest (unit + 1)
  end.

(** The first entry carrying a tag, with its position. *)
Fixpoint first_entry (entries : list TEXTURE_INFO) (the_tag : string) (slot : Z)
    : option (Z * TEXTURE_INFO) :=
  match entries with
  | [] => None
  | e :: rest =>
      if String.eqb (tag e) the_tag then Some (slot, e)
      else first_entry rest the_tag (slot + 1)
  end.

(** Whether a load request finds a readable image of a supported
    format. *)
Definition decodes (request : string * string) : bool :=
  match stbi_load request.1 with
  | Some image => (colorChannels image =? 3) || (colorChannels image =? 4)
  | None => false
  end.

(** The handles of the occupied slots are positive texture names that
    OpenGL has generated, no two of them equal. *)
Definition handles_ok (w : World F) : Prop :=
  NoDup (map ID (occupied (this w))) /\
  Forall (fun id => 0 < id /\ id ∈ gl_textures w) (map ID (occupied (this w))).

(** The value a sequence of writes leaves under a key, if it writes
    the key at all. *)
Fixpoint last_write (ws : list (string * uniform F)) (name : string) : option (uniform F) :=
  match ws with
  | [] => None
  | (n, v) :: rest =>
      match last_write rest name with
      | Some v' => Some v'
      | None => if String.eqb n name then Some v else None
      end
  end.

(** The keys [RenderScene] may write. *)
Definition render_key (name : string) : bool :=
  String.eqb name "model" || String.eqb name "bUseTexture" ||
  String.eqb name "objectColor" || String.eqb name "objectTexture" ||
  String.prefix "material." name.

(** All the writes of one frame, in order. *)
Definition scene_writes (s : SceneManager F) : list (string * uniform F) :=
  concat (map (object_writes s) authored_scene).

(** The store in force at each draw call of a call sequence replayed
    from a given store. *)
Fixpoint draw_states (cs : list (call F)) (store : ShaderManager F)
    : list (mesh * ShaderManager F) :=
  match cs with
  | [] => []
  | DrawMesh k :: rest => (k, store) :: draw_states rest store
  | setValue n v :: rest => draw_states rest (<[n := v]> store)
  | _ :: rest => draw_states rest store
  end.

(** What is in force when an object is drawn: its mesh, the texture
    flag set, the slot of its texture tag as sampler, its color and
    its model matrix. *)
Definition drawn_with (s : SceneManager F) (o : RenderObject)
    (d : mesh * ShaderManager F) : Prop :=
  d.1 = meshKind o /\
  d.2 !! "bUseTexture" = Some (UInt 1) /\
  d.2 !! "objectTexture" = Some (USampler2D (lookup_by_tag s (textureTag o))) /\
  d.2 !! "objectColor" = Some (UVec4 (color o)) /\
  d.2 !! "model" =
    Some (UMat4 (model_matrix (scaleXYZ o) (rotationDegrees o).1.1
                   (rotationDegrees o).1.2 (rotationDegrees o).2 (positionXYZ o))).

(** The writes of [SetupSceneLights], in order. *)
Definition light_writes : list (string * uniform F) :=
  [ ("lightSources[0].position", UVec3 (glm.Vec3 (flt 10) (flt 14) (flt 5)));
    ("lightSources[0].ambientColor", UVec3 (glm.Vec3 (dec 2 10) (dec 2 10) (dec 5 10)));
    ("lightSources[0].diffuseColor", UVec3 (glm.Vec3 (flt 1) (dec 95 100) (dec 8 10)));
    ("lightSources[0].specularColor", UVec3 (glm.Vec3 (flt 1) (flt 1) (dec 9 10)));
    ("lightSources[0].focalStrength", UFloat (flt 64));
    ("lightSources[0].specularIntensity", UFloat (dec 8 10));
    ("lightSources[1].position", UVec3 (glm.Vec3 (flt (-5)) (flt 5) (flt (-3))));
    ("lightSources[1].ambientColor", UVec3 (glm.Vec3 (dec 5 100) (dec 1 10) (dec 5 100)));
    ("lightSources[1].diffuseColor", UVec3 (glm.Vec3 (dec 2 10) (dec 3 10) (dec 2 10)));
    ("lightSources[1].specularColor", UVec3 (glm.Vec3 (flt 0) (flt 0) (flt 0)));
    ("lightSources[1].specularIntensity", UFloat (flt 0));
    ("lightSources[2].position", UVec3 (glm.Vec3 (flt 0) (dec 5 10) (flt 0)));
    ("lightSources[2].ambientColor", UVec3 (glm.Vec3 (dec 5 100) (dec 4 100) (dec 3 100)));
    ("lightSources[2].diffuseColor", UVec3 (glm.Vec3 (dec 1 10) (dec 1 10) (dec 8 100)));
    ("lightSources[2].specularColor", UVec3 (glm.Vec3 (flt 0) (flt 0) (flt 0)));
    ("lightSources[2].specularIntensity", UFloat (flt 0));
    ("lightSources[3].position", UVec3 (glm.Vec3 (flt 0) (flt 14) (flt (-10))));
    ("lightSources[3].ambientColor", UVec3 (glm.Vec3 (dec 5 100) (dec 5 100) (dec 5 100)));
    ("lightSources[3].diffuseColor", UVec3 (glm.Vec3 (dec 2 10) (dec 2 10) (dec 2 10)));
    ("lightSources[3].specularColor", UVec3 (glm.Vec3 (flt 0) (flt 0) (flt 0)));
    ("lightSources[3].specularIntensity", UFloat (flt 0));
    ("bUseLighting", UBool true) ].

(** The eight materials of [DefineObjectMaterials], in order. *)
Definition material (ambient : F) (diffuse specular : glm.vec3 F) (shine : F)
    (the_tag : string) : OBJECT_MATERIAL F :=
  {| ambientColor := v3 ambient ambient ambient; ambientStrength := dec 1 10;
     diffuseColor := diffuse; specularColor := specular;
     shininess := shine; material_tag := the_tag |}.

Definition scene_materials : list (OBJECT_MATERIAL F) :=
  let brown := v3 (dec 6 10) (dec 5 10) (dec 4 10) in
  let blueish := v3 (dec 2 10) (dec 3 10) (dec 4 10) in
  let grey := v3 (dec 5 10) (dec 5 10) (dec 5 10) in
  [ material (dec 1 10) brown blueish (dec 5 10) "box1";
    material (dec 1 10) brown blueish (dec 5 10) "box2";
    material (dec 1 10) brown blueish (dec 5 10) "box3";
    material (dec 1 10) brown blueish (dec 5 10) "box4";
    material (dec 1 10) (v3 (dec 8 10) (dec 7 10) (dec 5 10)) blueish (dec 5 10) "prism";
    material (dec 1 10) (v3 (dec 3 10) (dec 7 10) (dec 5 10)) blueish (dec 7 10) "torus";
    material (dec 1 10) (v3 (dec 9 10) (dec 9 10) (dec 9 10)) grey (dec 8 10) "topPlane";
    material (dec 1 10) (v3 (dec 3 10) (dec 3 10) (dec 3 10)) grey (dec 3 10) "bottomPlane" ].

(** The calls up to the upload, common to every readable image. *)
Definition opening_calls (filename : string) (image : Image) (name : Z) : list (call F) :=
  [ stbi_set_flip_vertically_on_load true;
    cout (Successfully_loaded_image filename image);
    glGenTextures name;
    glBindTexture name;
    glTexParameteri GL_TEXTURE_WRAP_S GL_REPEAT;
    glTexParameteri GL_TEXTURE_WRAP_T GL_REPEAT;
    glTexParameteri GL_TEXTURE_MIN_FILTER GL_LINEAR;
    glTexParameteri GL_TEXTURE_MAG_FILTER GL_LINEAR ].

(** The four loads of [LoadSceneTextures]. *)
Definition scene_textures : list (string * string) :=
  [ ("../../Utilities/textures/stoneTexture.jpg", "stone");
    ("../../Utilities/textures/bushTexture.jpg", "bush");
    ("../../Utilities/textures/groundTexture.jpg", "ground");
    ("../../Utilities/textures/skyTexture.jpg", "sky") ].
End FurtherNotions.

(** A decoder that cannot read the stone texture and reads the other
    files as RGBA images. *)
Definition stone_missing : string -> option Image :=
  fun filename =>
    if String.eqb filename "../../Utilities/textures/stoneTexture.jpg" then None
    else Some {| width := 64; height := 64; colorChannels := 4 |}.

(** An object whose counter holds a value outside the table.  The
    constructor of the unit assigns the shader manager and the mesh
    provider only. *)
Definition overcounted {F : Type} `{Float32 F} : World F :=
  {| this := {| m_pShaderManager := Some ∅; m_loadedTextures := 17;
                m_textureIDs := blank_table; m_objectMaterials := [] |};
     gl_textures := []; calls := [] |}.

(** A stage on which nothing has been loaded. *)
Definition empty_stage {F : Type} `{Float32 F} : Stage F :=
  {| world := fresh_scene (Some ∅); m_basicMeshes := [] |}.

(** * Verification *)

(** ** Running the monad *)

Section Running.
Context {F : Type} `{Float32 F}.

Lemma bind_Ok {A B} (c : M F A) (f : A -> M F B) w a w' :
  c w = Ok (a, w') -> (c ≫= f) w = f a w'.
Proof. intros E. unfold mbind, M_bind. now rewrite E. Qed.

Lemma bind_Undefined {A B} (c : M F A) (f : A -> M F B) w u :
  c w = Undefined u -> (c ≫= f) w = Undefined u.
Proof. intros E. unfold mbind, M_bind. now rewrite E. Qed.

Lemma bind_assoc {A B C} (c : M F A) (f : A -> M F B) (g : B -> M F C) w :
  ((c ≫= f) ≫= g) w = (c ≫= (fun a => f a ≫= g)) w.
Proof.
  unfold mbind, M_bind. destruct (c w) as [[a w']|u]; reflexivity.
Qed.

(** *** The table accessors inside the table *)

Lemma textureIDs_at_in (w : World F) index e :
  0 <= index -> m_textureIDs (this w) !! Z.to_nat index = Some e ->
  textureIDs_at index w = Ok (e, w).
Proof.
  intros Hi He. unfold textureIDs_at.
  destruct (Z.leb_spec 0 index); [|lia]. now rewrite He.
Qed.

Lemma textureIDs_at_out (w : World F) index :
  Z.of_nat (length (m_textureIDs (this w))) <= index ->
  textureIDs_at index w = Undefined (OutOfBounds index).
Proof.
  intros Hi. unfold textureIDs_at.
  destruct (Z.leb_spec 0 index); [|reflexivity].
  rewrite (proj2 (lookup_ge_None _ _)); [reflexivity|lia].
Qed.

Lemma textureIDs_assign_out (w : World F) index f :
  Z.of_nat (length (m_textureIDs (this w))) <= index ->
  textureIDs_assign index f w = Undefined (OutOfBounds index).
Proof.
  intros Hi. unfold textureIDs_assign.
  destruct (Z.leb_spec 0 index); [|reflexivity].
  rewrite (proj2 (lookup_ge_None _ _)); [reflexivity|lia].
Qed.

(** *** Lookup by tag: the loop computes [first_match] *)

Lemma find_texture_first_match (w : World F) the_tag :
  forall remaining index,
    0 <= index ->
    (Z.to_nat index + remaining <= length (m_textureIDs (this w)))%nat ->
    find_texture remaining the_tag index (fun i _ => i) w =
    Ok (first_match (take remaining (drop (Z.to_nat index) (m_textureIDs (this w))))
          the_tag index, w).
Proof.
  induction remaining as [|r IH]; intros index Hi Hlen; [reflexivity|].
  destruct (lookup_lt_is_Some_2 (m_textureIDs (this w)) (Z.to_nat index)) as [e He]; [lia|].
  cbn [find_texture].
  rewrite (bind_Ok _ _ _ _ _ (textureIDs_at_in w index e Hi He)).
  rewrite (drop_S _ _ _ He). cbn [take first_match].
  destruct (String.eqb (tag e) the_tag); [reflexivity|].
  rewrite IH by lia.
  replace (Z.to_nat (index + 1)) with (S (Z.to_nat index)) by lia.
  reflexivity.
Qed.

Lemma FindTextureSlot_lookup (w : World F) the_tag :
  m_loadedTextures (this w) <= Z.of_nat (length (m_textureIDs (this w))) ->
  FindTextureSlot the_tag w = Ok (lookup_by_tag (this w) the_tag, w).
Proof.
  intros Hn. unfold FindTextureSlot.
  rewrite (bind_Ok _ _ w (m_loadedTextures (this w)) w) by reflexivity.
  rewrite find_texture_first_match by (cbn; lia).
  reflexivity.
Qed.

(** *** Facts about [first_match] *)

Lemma first_match_none entries the_tag slot :
  the_tag ∉ map tag entries -> first_match entries the_tag slot = -1.
Proof.
  revert slot. induction entries as [|e rest IH]; intros slot Hnot; [reflexivity|].
  cbn [first_match]. rewrite map_cons in Hnot.
  destruct (String.eqb_spec (tag e) the_tag) as [Heq|_].
  - exfalso. apply Hnot. rewrite Heq. left.
  - apply IH. intros Hin. apply Hnot. now right.
Qed.

Lemma first_match_range entries the_tag slot :
  first_match entries the_tag slot = -1 \/
  slot <= first_match entries the_tag slot < slot + Z.of_nat (length entries).
Proof.
  revert slot. induction entries as [|e rest IH]; intros slot; [now left|].
  cbn [first_match length]. destruct (String.eqb (tag e) the_tag); [right; lia|].
  destruct (IH (slot + 1)) as [->|?]; [now left|right; lia].
Qed.

(** The slot returned holds the tag and no earlier slot does. *)
Lemma first_match_found entries the_tag slot k :
  0 <= slot -> first_match entries the_tag slot = k -> k <> -1 ->
  exists e, entries !! Z.to_nat (k - slot) = Some e /\ tag e = the_tag /\
    forall j e', (j < Z.to_nat (k - slot))%nat -> entries !! j = Some e' -> tag e' <> the_tag.
Proof.
  revert slot. induction entries as [|e rest IH]; intros slot Hs Hk Hne; [cbn in Hk; lia|].
  cbn [first_match] in Hk. destruct (String.eqb_spec (tag e) the_tag) as [Heq|Hneq].
  - subst k. exists e. replace (Z.to_nat (slot - slot)) with 0%nat by lia.
    split; [reflexivity|]. split; [assumption|]. intros j e' Hj. lia.
  - destruct (first_match_range rest the_tag (slot + 1)) as [E|E]; [congruence|].
    destruct (IH (slot + 1) ltac:(lia) Hk Hne) as (e0 & He0 & Ht & Hbefore).
    exists e0. replace (Z.to_nat (k - slot)) with (S (Z.to_nat (k - (slot + 1)))) by lia.
    split; [exact He0|]. split; [exact Ht|].
    intros [|j] e' Hj He'; cbn in He'.
    + now inversion He'; subst.
    + apply (Hbefore j e'); [lia|exact He'].
Qed.

(** A tag first met at position [k] is found there. *)
Lemma first_match_at entries the_tag slot (k : nat) e :
  entries !! k = Some e -> tag e = the_tag ->
  (forall j e', (j < k)%nat -> entries !! j = Some e' -> tag e' <> the_tag) ->
  first_match entries the_tag slot = slot + Z.of_nat k.
Proof.
  revert slot k. induction entries as [|e0 rest IH]; intros slot k He Ht Hbefore;
    [now rewrite lookup_nil in He|].
  cbn [first_match]. destruct k as [|k]; cbn in He.
  - inversion He; subst e0. rewrite (proj2 (String.eqb_eq _ _) Ht). lia.
  - destruct (String.eqb_spec (tag e0) the_tag) as [Heq|_].
    + exfalso. apply (Hbefore 0%nat e0); [lia|reflexivity|exact Heq].
    + rewrite (IH (slot + 1) k He Ht); [lia|].
      intros j e' Hj He'. apply (Hbefore (S j) e'); [lia|exact He'].
Qed.

End Running.

(** ** The shader parameter binder *)

Section Binder.
Context {F : Type} `{Float32 F}.

(** Opening a world whose shader manager is attached. *)
Ltac attached w Hsm :=
  let ptr := fresh "ptr" in
  destruct w as [[ptr ? ? ?] ? ?]; cbn in Hsm; subst ptr.

Lemma find_texture_pure (w w' : World F) the_tag found :
  forall remaining index k,
    find_texture remaining the_tag index found w = Ok (k, w') -> w' = w.
Proof.
  induction remaining as [|r IH]; intros index k E; cbn [find_texture] in E.
  - now inversion E.
  - unfold mbind, M_bind in E.
    destruct (textureIDs_at index w) as [[e w1]|u] eqn:Eat; [|discriminate].
    assert (w1 = w) as ->.
    { unfold textureIDs_at in Eat. destruct (0 <=? index); [|discriminate].
      destruct (m_textureIDs (this w) !! Z.to_nat index); now inversion Eat. }
    destruct (String.eqb (tag e) the_tag); [now inversion E|].
    exact (IH _ _ E).
Qed.

Lemma FindTextureSlot_pure (w w' : World F) the_tag k :
  FindTextureSlot the_tag w = Ok (k, w') -> w' = w.
Proof. unfold FindTextureSlot. intros E. exact (find_texture_pure _ _ _ _ _ _ _ E). Qed.

(** [SetShaderTexture] keeps the shader manager attached. *)
Lemma SetShaderTexture_attached (w w1 : World F) store textureTag :
  store_of w = Some store -> SetShaderTexture textureTag w = Ok (tt, w1) ->
  exists store1, store_of w1 = Some store1.
Proof.
  intros Hsm E. attached w Hsm.
  unfold SetShaderTexture, if_shader_manager, mbind, M_bind, get in E. cbn in E.
  match type of E with
  | context [FindTextureSlot textureTag ?w0] =>
      destruct (FindTextureSlot textureTag w0) as [[k w2]|u] eqn:Efind;
      [apply FindTextureSlot_pure in Efind; subst w2|]
  end; cbn in E; [|discriminate].
  inversion E; subst w1. eexists. reflexivity.
Qed.

(** *** The scale example, factor by factor *)

Section ScaleOnly.
Context `{!ExactOnSmall}.

Let S0 : small (flt 0) := or_introl eq_refl.
Let S1 : small (flt 1) := or_intror (or_introl eq_refl).
Let S2 : small (flt 2) := or_intror (or_intror eq_refl).

Ltac glm_unfold :=
  cbv [pure_scale v3 glm.translate glm.rotate glm.scale glm.radians
       glm.translate_m glm.rotate_m glm.scale_m glm.mul glm.mul_col glm.identity
       glm.normalize glm.dot glm.vec3_muls glm.vec3_smul glm.vec4_muls glm.vec4_add
       glm.zero glm.one glm.x3 glm.y3 glm.z3 glm.x4 glm.y4 glm.z4 glm.w4
       glm.col0 glm.col1 glm.col2 glm.col3].

Ltac exact_arith :=
  repeat first
    [ rewrite (mul_0_l _ S0) | rewrite (mul_0_l _ S1) | rewrite (mul_0_l _ S2)
    | rewrite (mul_0_r _ S1) | rewrite (mul_0_r _ S2)
    | rewrite (mul_1_l _ S1) | rewrite (mul_1_l _ S2)
    | rewrite (mul_1_r _ S2)
    | rewrite (add_0_l _ S0) | rewrite (add_0_l _ S1) | rewrite (add_0_l _ S2)
    | rewrite (add_0_r _ S1) | rewrite (add_0_r _ S2)
    | rewrite sub_0_0 | rewrite sub_1_1 | rewrite inversesqrt_1
    | rewrite cos_0 | rewrite sin_0 ].

Lemma radians_zero : glm.radians (flt 0) = flt 0.
Proof. unfold glm.radians. apply radians_0. Qed.

Lemma translate_origin : glm.translate (v3 (flt 0) (flt 0) (flt 0)) = glm.identity.
Proof. glm_unfold. exact_arith. reflexivity. Qed.

Lemma rotate_zero_X :
  glm.rotate (flt 0) (glm.Vec3 glm.one glm.zero glm.zero) = glm.identity.
Proof. glm_unfold. exact_arith. reflexivity. Qed.

Lemma rotate_zero_Y :
  glm.rotate (flt 0) (glm.Vec3 glm.zero glm.one glm.zero) = glm.identity.
Proof. glm_unfold. exact_arith. reflexivity. Qed.

Lemma rotate_zero_Z :
  glm.rotate (flt 0) (glm.Vec3 glm.zero glm.zero glm.one) = glm.identity.
Proof. glm_unfold. exact_arith. reflexivity. Qed.

Lemma scale_2_1_1 :
  glm.scale (v3 (flt 2) (flt 1) (flt 1)) = pure_scale (flt 2) (flt 1) (flt 1).
Proof. glm_unfold. exact_arith. reflexivity. Qed.

Lemma mul_identity_identity : glm.mul glm.identity glm.identity = glm.identity.
Proof. glm_unfold. exact_arith. reflexivity. Qed.

Lemma mul_identity_scale :
  glm.mul glm.identity (pure_scale (flt 2) (flt 1) (flt 1)) =
  pure_scale (flt 2) (flt 1) (flt 1).
Proof. glm_unfold. exact_arith. reflexivity. Qed.

Lemma model_matrix_scale_only :
  model_matrix (v3 (flt 2) (flt 1) (flt 1)) (flt 0) (flt 0) (flt 0)
    (v3 (flt 0) (flt 0) (flt 0)) = pure_scale (flt 2) (flt 1) (flt 1).
Proof.
  unfold model_matrix.
  rewrite radians_zero, translate_origin, rotate_zero_X, rotate_zero_Y, rotate_zero_Z.
  rewrite scale_2_1_1, !mul_identity_identity. apply mul_identity_scale.
Qed.
End ScaleOnly.

(** *** The GLM computation against the spec's matrices *)

Section IdealMatrices.
Context `{!IdealArithmetic}.

Add Ring ideal_arithmetic : ideal_ring.

Ltac by_entries :=
  cbv [glm.translate glm.rotate glm.scale glm.translate_m glm.rotate_m glm.scale_m
       glm.mul glm.mul_col glm.identity glm.normalize glm.dot
       glm.vec3_muls glm.vec3_smul glm.vec4_muls glm.vec4_add glm.zero glm.one
       glm.x3 glm.y3 glm.z3 glm.x4 glm.y4 glm.z4 glm.w4
       glm.col0 glm.col1 glm.col2 glm.col3
       as_mat4 rows times Translate RotateX RotateY RotateZ Scale].

Lemma unit_axis_length :
  f_inversesqrt (f_add (f_add (f_mul (flt 1) (flt 1)) (f_mul (flt 0) (flt 0)))
                   (f_mul (flt 0) (flt 0))) = flt 1 /\
  f_inversesqrt (f_add (f_add (f_mul (flt 0) (flt 0)) (f_mul (flt 1) (flt 1)))
                   (f_mul (flt 0) (flt 0))) = flt 1 /\
  f_inversesqrt (f_add (f_add (f_mul (flt 0) (flt 0)) (f_mul (flt 0) (flt 0)))
                   (f_mul (flt 1) (flt 1))) = flt 1.
Proof.
  repeat split;
    match goal with
    | |- f_inversesqrt ?sum = _ =>
        replace sum with (flt 1) by ring; apply ideal_inversesqrt_1
    end.
Qed.

Lemma translate_as_spec (p : glm.vec3 F) : glm.translate p = as_mat4 (Translate p).
Proof. destruct p as [x y z]. by_entries. f_equal; f_equal; ring. Qed.

Lemma scale_as_spec (s : glm.vec3 F) : glm.scale s = as_mat4 (Scale s).
Proof. destruct s as [x y z]. by_entries. f_equal; f_equal; ring. Qed.

Lemma rotate_X_as_spec (angle : F) :
  glm.rotate angle (glm.Vec3 glm.one glm.zero glm.zero) = as_mat4 (RotateX angle).
Proof.
  destruct unit_axis_length as (HX & _ & _).
  by_entries. rewrite HX. unfold negated. f_equal; f_equal; ring.
Qed.

Lemma rotate_Y_as_spec (angle : F) :
  glm.rotate angle (glm.Vec3 glm.zero glm.one glm.zero) = as_mat4 (RotateY angle).
Proof.
  destruct unit_axis_length as (_ & HY & _).
  by_entries. rewrite HY. unfold negated. f_equal; f_equal; ring.
Qed.

Lemma rotate_Z_as_spec (angle : F) :
  glm.rotate angle (glm.Vec3 glm.zero glm.zero glm.one) = as_mat4 (RotateZ angle).
Proof.
  destruct unit_axis_length as (_ & _ & HZ).
  by_entries. rewrite HZ. unfold negated. f_equal; f_equal; ring.
Qed.

Lemma mul_as_spec (A B : @matrix F) :
  glm.mul (as_mat4 A) (as_mat4 B) = as_mat4 (times A B).
Proof. by_entries. f_equal; f_equal; ring. Qed.

Lemma model_matrix_as_spec (s : glm.vec3 F) (rx ry rz : F) (p : glm.vec3 F) :
  model_matrix s rx ry rz p = as_mat4 (spec_model_matrix s rx ry rz p).
Proof.
  unfold model_matrix, spec_model_matrix. cbv zeta.
  rewrite translate_as_spec, rotate_X_as_spec, rotate_Y_as_spec, rotate_Z_as_spec,
    scale_as_spec, !mul_as_spec.
  reflexivity.
Qed.

(** What the product does to a point: scale, then the rotations
    about Z, Y and X, then the translation. *)
Lemma times_acts (A B : @matrix F) (v : glm.vec3 F) :
  B 3%nat 0%nat = flt 0 -> B 3%nat 1%nat = flt 0 -> B 3%nat 2%nat = flt 0 ->
  B 3%nat 3%nat = flt 1 ->
  acts_on (times A B) v = acts_on A (acts_on B v).
Proof.
  intros Hb0 Hb1 Hb2 Hb3. unfold acts_on, times. cbn [glm.x3 glm.y3 glm.z3].
  rewrite Hb0, Hb1, Hb2, Hb3. f_equal; ring.
Qed.

Lemma spec_model_matrix_acts (s : glm.vec3 F) (rx ry rz : F) (p v : glm.vec3 F) :
  acts_on (spec_model_matrix s rx ry rz p) v =
  acts_on (Translate p)
    (acts_on (RotateX (degrees_to_radians rx))
       (acts_on (RotateY (degrees_to_radians ry))
          (acts_on (RotateZ (degrees_to_radians rz)) (acts_on (Scale s) v)))).
Proof.
  unfold spec_model_matrix. rewrite !times_acts by reflexivity. reflexivity.
Qed.

End IdealMatrices.

Lemma entry_as_mat4 (A : @matrix F) (i j : nat) :
  (i < 4)%nat -> (j < 4)%nat -> entry (as_mat4 A) i j = A i j.
Proof.
  intros Hi Hj.
  destruct i as [|[|[|[|i]]]]; [| | | |lia];
    (destruct j as [|[|[|[|j]]]]; [| | | |lia]); reflexivity.
Qed.

(** C3.  With a shader manager attached, [SetTransformations] makes
    one write, to the key "model", of the matrix that GLM computes as
    translation * rotationX * rotationY * rotationZ * scale, the
    product taken left to right in exactly that order.  In exact
    arithmetic that matrix is, entry by entry, the spec's
    Translate(position) * RotateX(rx) * RotateY(ry) * RotateZ(rz) *
    Scale(scale), the five matrices and the rows-by-columns product
    being those defined above from the spec's words, with the angles
    in degrees; it maps a point by scaling it first, rotating it
    about Z, then Y, then X, and translating it last.  For scale
    (2,1,1), no rotation and no translation the matrix written is the
    pure scale matrix diag(2,1,1,1), given only that [float]
    arithmetic is exact on 0, 1 and 2. *)
Theorem SetTransformations_model_matrix (w : World F) (store : ShaderManager F)
    (scaleXYZ : glm.vec3 F) (rx ry rz : F) (positionXYZ : glm.vec3 F) :
  store_of w = Some store ->
  let product :=
    glm.mul
      (glm.mul
         (glm.mul
            (glm.mul (glm.translate positionXYZ)
               (glm.rotate (glm.radians rx) (glm.Vec3 glm.one glm.zero glm.zero)))
            (glm.rotate (glm.radians ry) (glm.Vec3 glm.zero glm.one glm.zero)))
         (glm.rotate (glm.radians rz) (glm.Vec3 glm.zero glm.zero glm.one)))
      (glm.scale scaleXYZ) in
  (exists w',
      SetTransformations scaleXYZ rx ry rz positionXYZ w = Ok (tt, w') /\
      store_of w' = Some (<["model" := UMat4 product]> store) /\
      calls w' = (calls w ++ [setValue "model" (UMat4 product)])%list /\
      gl_textures w' = gl_textures w /\
      m_loadedTextures (this w') = m_loadedTextures (this w) /\
      m_textureIDs (this w') = m_textureIDs (this w) /\
      m_objectMaterials (this w') = m_objectMaterials (this w)) /\
  (ExactOnSmall ->
   forall w2,
     SetTransformations (v3 (flt 2) (flt 1) (flt 1)) (flt 0) (flt 0) (flt 0)
       (v3 (flt 0) (flt 0) (flt 0)) w = Ok (tt, w2) ->
     exists store2, store_of w2 = Some store2 /\
       store2 !! "model" = Some (UMat4 (pure_scale (flt 2) (flt 1) (flt 1)))) /\
  (IdealArithmetic ->
   (forall i j : nat, (i < 4)%nat -> (j < 4)%nat ->
      entry product i j = spec_model_matrix scaleXYZ rx ry rz positionXYZ i j) /\
   (forall v : glm.vec3 F,
      acts_on (entry product) v =
      acts_on (Translate positionXYZ)
        (acts_on (RotateX (degrees_to_radians rx))
           (acts_on (RotateY (degrees_to_radians ry))
              (acts_on (RotateZ (degrees_to_radians rz))
                 (acts_on (Scale scaleXYZ) v)))))).
Proof.
  intros Hsm product.
  assert (forall s a b c p,
    exists w', SetTransformations s a b c p w = Ok (tt, w') /\
      store_of w' = Some (<["model" := UMat4 (model_matrix s a b c p)]> store) /\
      calls w' = (calls w ++ [setValue "model" (UMat4 (model_matrix s a b c p))])%list /\
      gl_textures w' = gl_textures w /\
      m_loadedTextures (this w') = m_loadedTextures (this w) /\
      m_textureIDs (this w') = m_textureIDs (this w) /\
      m_objectMaterials (this w') = m_objectMaterials (this w)) as Hgen.
  { intros s a b c p. attached w Hsm. eexists. split; [reflexivity|].
    cbn. repeat split; reflexivity. }
  split; [exact (Hgen scaleXYZ rx ry rz positionXYZ)|]. split.
  - intros Laws w2 E.
    destruct (Hgen (v3 (flt 2) (flt 1) (flt 1)) (flt 0) (flt 0) (flt 0)
                (v3 (flt 0) (flt 0) (flt 0))) as (w' & E' & Hstore & _).
    rewrite E' in E. inversion E; subst w2.
    eexists. split; [exact Hstore|].
    rewrite lookup_insert_eq, model_matrix_scale_only. reflexivity.
  - intros Ideal.
    assert (forall i j : nat, (i < 4)%nat -> (j < 4)%nat ->
              entry product i j = spec_model_matrix scaleXYZ rx ry rz positionXYZ i j)
      as Hentries.
    { intros i j Hi Hj.
      change product with (model_matrix scaleXYZ rx ry rz positionXYZ).
      rewrite model_matrix_as_spec. now apply entry_as_mat4. }
    split; [exact Hentries|].
    intros v. rewrite <- spec_model_matrix_acts. unfold acts_on.
    rewrite !Hentries by lia. reflexivity.
Qed.

(** C8.  With a shader manager attached, [SetShaderColor r g b a]
    writes the vector (r, g, b, a) to the key "objectColor" and the
    value false (the integer 0) to the key "bUseTexture", whatever
    the store held before; in particular after any [SetShaderTexture]
    call the texture flag reads false again. *)
Theorem SetShaderColor_clears_texture_flag (w : World F) (store : ShaderManager F)
    (r g b a : F) :
  store_of w = Some store ->
  (exists w' store',
      SetShaderColor r g b a w = Ok (tt, w') /\
      store_of w' = Some store' /\
      store' = <["objectColor" := UVec4 (glm.Vec4 r g b a)]>
                 (<["bUseTexture" := UInt 0]> store) /\
      store' !! "objectColor" = Some (UVec4 (glm.Vec4 r g b a)) /\
      store' !! "bUseTexture" = Some (UInt (Z.b2z false)) /\
      calls w' = (calls w ++ [setValue "bUseTexture" (UInt 0);
                              setValue "objectColor" (UVec4 (glm.Vec4 r g b a))])%list) /\
  (forall textureTag w1,
      SetShaderTexture textureTag w = Ok (tt, w1) ->
      exists w2 store2,
        SetShaderColor r g b a w1 = Ok (tt, w2) /\
        store_of w2 = Some store2 /\
        store2 !! "bUseTexture" = Some (UInt (Z.b2z false)) /\
        store2 !! "objectColor" = Some (UVec4 (glm.Vec4 r g b a))).
Proof.
  intros Hsm.
  assert (forall (w0 : World F) st, store_of w0 = Some st ->
    exists w' store',
      SetShaderColor r g b a w0 = Ok (tt, w') /\
      store_of w' = Some store' /\
      store' = <["objectColor" := UVec4 (glm.Vec4 r g b a)]>
                 (<["bUseTexture" := UInt 0]> st) /\
      store' !! "objectColor" = Some (UVec4 (glm.Vec4 r g b a)) /\
      store' !! "bUseTexture" = Some (UInt (Z.b2z false)) /\
      calls w' = (calls w0 ++ [setValue "bUseTexture" (UInt 0);
                               setValue "objectColor" (UVec4 (glm.Vec4 r g b a))])%list)
    as Hcolor.
  { intros w0 st H0. attached w0 H0. do 2 eexists.
    split; [reflexivity|]. split; [reflexivity|]. split; [reflexivity|].
    split; [apply lookup_insert_eq|]. split.
    - rewrite lookup_insert_ne by discriminate. apply lookup_insert_eq.
    - cbn. now rewrite <- app_assoc. }
  split; [exact (Hcolor w store Hsm)|].
  intros textureTag w1 E.
  destruct (SetShaderTexture_attached w w1 store textureTag Hsm E) as [store1 H1].
  destruct (Hcolor w1 store1 H1) as (w2 & store2 & E2 & Hs2 & _ & Hc & Hf & _).
  exists w2, store2. repeat split; assumption.
Qed.

(** C5.  With a shader manager attached and the texture counter
    inside the table, [SetShaderTexture tag] writes true (the integer
    1) to "bUseTexture" and, as the sampler "objectTexture", the very
    index [FindTextureSlot tag] returns.  That index is [k] when slot
    [k] is the first occupied slot holding the tag, and the sentinel
    -1 when no occupied slot holds it. *)
Theorem SetShaderTexture_binds_slot (w : World F) (store : ShaderManager F)
    (textureTag : string) :
  store_of w = Some store ->
  m_loadedTextures (this w) <= Z.of_nat (length (m_textureIDs (this w))) ->
  exists w' store' slot,
    FindTextureSlot textureTag w = Ok (slot, w) /\
    SetShaderTexture textureTag w = Ok (tt, w') /\
    store_of w' = Some store' /\
    store' !! "bUseTexture" = Some (UInt (Z.b2z true)) /\
    store' !! "objectTexture" = Some (USampler2D slot) /\
    (forall (k : nat) e,
        occupied (this w) !! k = Some e -> tag e = textureTag ->
        (forall j e', (j < k)%nat -> occupied (this w) !! j = Some e' ->
                      tag e' <> textureTag) ->
        slot = Z.of_nat k) /\
    (textureTag ∉ map tag (occupied (this w)) -> slot = -1).
Proof.
  intros Hsm Hn.
  pose proof (FindTextureSlot_lookup w textureTag Hn) as Hfind.
  attached w Hsm. cbn in Hn.
  match goal with
  | |- context [SetShaderTexture _ {| this := {| m_loadedTextures := ?n;
                                                 m_textureIDs := ?t;
                                                 m_objectMaterials := ?ms |};
                                      gl_textures := ?gl; calls := ?cs |}] =>
      pose proof (FindTextureSlot_lookup
        {| this := {| m_pShaderManager := Some (<["bUseTexture" := UInt 1]> store);
                      m_loadedTextures := n; m_textureIDs := t;
                      m_objectMaterials := ms |};
           gl_textures := gl;
           calls := cs ++ [setValue "bUseTexture" (UInt 1)] |} textureTag Hn) as Hmid
  end.
  eexists _, _, _. split; [exact Hfind|].
  split.
  { unfold SetShaderTexture, if_shader_manager, mbind, M_bind, get. cbn.
    unfold g_UseTextureName, lookup_by_tag, occupied in *. cbn in *.
    rewrite Hmid. reflexivity. }
  split; [reflexivity|].
  split; [rewrite lookup_insert_ne by discriminate; apply lookup_insert_eq|].
  split; [apply lookup_insert_eq|].
  split.
  - intros k e He Ht Hbefore. unfold lookup_by_tag.
    rewrite (first_match_at _ _ 0 k e He Ht Hbefore). lia.
  - intros Hnot. now apply first_match_none.
Qed.

(** C10.  With a null [m_pShaderManager], [SetTransformations],
    [SetShaderColor], [SetShaderTexture] and [SetTextureUVScale]
    return without any effect, for all arguments.  [SetShaderMaterial]
    has no such guard: when the registry is non-empty and holds the
    tag it goes on to its writes and dereferences the null pointer.
    Only with an empty registry does it return without effect. *)
Theorem null_shader_manager_guards (w : World F) :
  store_of w = None ->
  (forall s rx ry rz p, SetTransformations s rx ry rz p w = Ok (tt, w)) /\
  (forall r g b a, SetShaderColor r g b a w = Ok (tt, w)) /\
  (forall textureTag, SetShaderTexture textureTag w = Ok (tt, w)) /\
  (forall u v, SetTextureUVScale u v w = Ok (tt, w)) /\
  (forall leftover_local materialTag m,
      m_objectMaterials (this w) <> [] ->
      lookup_material (this w) materialTag = Some m ->
      SetShaderMaterial leftover_local materialTag w = Undefined NullPointer) /\
  (forall leftover_local materialTag,
      m_objectMaterials (this w) = [] ->
      SetShaderMaterial leftover_local materialTag w = Ok (tt, w)).
Proof.
  intros Hnull. destruct w as [[ptr n table ms] gl cs]. cbn in Hnull. subst ptr.
  repeat split; try reflexivity.
  - intros leftover_local materialTag m Hne _. cbn in Hne.
    destruct ms as [|m0 ms]; [congruence|]. reflexivity.
  - intros leftover_local materialTag Hempty. cbn in Hempty. subst ms. reflexivity.
Qed.
End Binder.

(** ** The material registry *)

Section Materials.
Context {F : Type} `{Float32 F}.

Lemma find_material_lookup (ms : list (OBJECT_MATERIAL F)) the_tag material :
  find_material ms the_tag material =
  match List.find (fun m => String.eqb (material_tag m) the_tag) ms with
  | Some m => copy_material m material
  | None => material
  end.
Proof.
  induction ms as [|m rest IH]; [reflexivity|].
  cbn [find_material List.find].
  destruct (String.eqb (material_tag m) the_tag); [reflexivity|exact IH].
Qed.

Lemma material_writes_copy (m material : OBJECT_MATERIAL F) :
  material_writes (copy_material m material) = material_writes m.
Proof. reflexivity. Qed.

(** Whatever the tag, a non-empty registry makes [SetShaderMaterial]
    write the five members of its local [material], which
    [FindMaterial] has filled only if the tag matched. *)
Lemma SetShaderMaterial_nonempty (w : World F) (store : ShaderManager F)
    (leftover_local : OBJECT_MATERIAL F) (materialTag : string) :
  store_of w = Some store ->
  m_objectMaterials (this w) <> [] ->
  let material := find_material (m_objectMaterials (this w)) materialTag leftover_local in
  exists w',
    SetShaderMaterial leftover_local materialTag w = Ok (tt, w') /\
    store_of w' = Some (apply_writes (material_writes material) store) /\
    calls w' = (calls w ++ write_calls (material_writes material))%list /\
    gl_textures w' = gl_textures w /\
    m_loadedTextures (this w') = m_loadedTextures (this w) /\
    m_textureIDs (this w') = m_textureIDs (this w) /\
    m_objectMaterials (this w') = m_objectMaterials (this w).
Proof.
  intros Hsm Hne material.
  destruct w as [[ptr n table ms] gl cs]. cbn in Hsm, Hne. subst ptr.
  destruct ms as [|m0 ms]; [congruence|].
  eexists. split.
  { unfold SetShaderMaterial, FindMaterial, mbind, M_bind, mret, M_ret, get.
    cbn -[find_material]. reflexivity. }
  cbn -[find_material]. repeat split; try reflexivity.
  rewrite <- !app_assoc. reflexivity.
Qed.

Lemma SetShaderMaterial_empty (w : World F) (leftover_local : OBJECT_MATERIAL F)
    (materialTag : string) :
  m_objectMaterials (this w) = [] ->
  SetShaderMaterial leftover_local materialTag w = Ok (tt, w).
Proof.
  destruct w as [[ptr n table ms] gl cs]. cbn. intros ->. reflexivity.
Qed.

(** The matched half of the material contract: the five parameters
    take the fields of the first material carrying the tag, and
    nothing else is written. *)
Lemma SetShaderMaterial_matched (w : World F) (store : ShaderManager F)
    (leftover_local m : OBJECT_MATERIAL F) (materialTag : string) :
  store_of w = Some store ->
  lookup_material (this w) materialTag = Some m ->
  exists w',
    SetShaderMaterial leftover_local materialTag w = Ok (tt, w') /\
    store_of w' = Some (apply_writes (material_writes m) store) /\
    calls w' = (calls w ++ write_calls (material_writes m))%list /\
    gl_textures w' = gl_textures w /\
    m_loadedTextures (this w') = m_loadedTextures (this w) /\
    m_textureIDs (this w') = m_textureIDs (this w) /\
    m_objectMaterials (this w') = m_objectMaterials (this w).
Proof.
  intros Hsm Hfound.
  assert (m_objectMaterials (this w) <> []) as Hne.
  { unfold lookup_material in Hfound. intros E. rewrite E in Hfound. discriminate. }
  destruct (SetShaderMaterial_nonempty w store leftover_local materialTag Hsm Hne)
    as (w' & E & Hrest).
  rewrite find_material_lookup in Hrest. unfold lookup_material in Hfound.
  rewrite Hfound, material_writes_copy in Hrest.
  exists w'. split; [exact E|exact Hrest].
Qed.

(** C1 (the code departs from it).  On a non-empty registry and a tag
    that matches no entry, [SetShaderMaterial] does not skip the
    writes: [FindMaterial] returns true all the same, and the five
    parameters are overwritten with the members of the local
    [material], which nothing has assigned. *)
Theorem SetShaderMaterial_unmatched_still_writes (w : World F) (store : ShaderManager F)
    (leftover_local : OBJECT_MATERIAL F) (materialTag : string) :
  store_of w = Some store ->
  m_objectMaterials (this w) <> [] ->
  lookup_material (this w) materialTag = None ->
  FindMaterial materialTag leftover_local w = Ok ((true, leftover_local), w) /\
  exists w' store',
    SetShaderMaterial leftover_local materialTag w = Ok (tt, w') /\
    store_of w' = Some store' /\
    calls w' = (calls w ++ write_calls (material_writes leftover_local))%list /\
    store' !! "material.ambientColor" = Some (UVec3 (ambientColor leftover_local)) /\
    store' !! "material.ambientStrength" = Some (UFloat (ambientStrength leftover_local)) /\
    store' !! "material.diffuseColor" = Some (UVec3 (diffuseColor leftover_local)) /\
    store' !! "material.specularColor" = Some (UVec3 (specularColor leftover_local)) /\
    store' !! "material.shininess" = Some (UFloat (shininess leftover_local)).
Proof.
  intros Hsm Hne Hnone.
  pose proof (find_material_lookup (m_objectMaterials (this w)) materialTag leftover_local)
    as Hfm.
  unfold lookup_material in Hnone. rewrite Hnone in Hfm.
  split.
  - destruct w as [[ptr n table ms] gl cs]. cbn in Hne, Hfm.
    destruct ms as [|m0 ms]; [congruence|].
    unfold FindMaterial, mbind, M_bind, mret, M_ret, get. cbn -[find_material].
    rewrite Hfm. reflexivity.
  - destruct (SetShaderMaterial_nonempty w store leftover_local materialTag Hsm Hne)
      as (w' & E & Hstore & Hcalls & _).
    rewrite Hfm in Hstore, Hcalls.
    exists w', (apply_writes (material_writes leftover_local) store).
    split; [exact E|]. split; [exact Hstore|]. split; [exact Hcalls|].
    cbn. repeat split;
      repeat first [ apply lookup_insert_eq
                   | rewrite lookup_insert_ne by discriminate ].
Qed.
End Materials.

(** ** The texture registry *)

Section Textures.
Context {F : Type} `{Float32 F}.
Variable stbi_load : string -> option Image.

(** *** What one [CreateGLTexture] call does *)

Lemma upload_image_supported (image : Image) (w : World F) :
  supported image ->
  exists c, upload_image image w =
    Ok (true, {| this := this w; gl_textures := gl_textures w;
                 calls := calls w ++ [c] |}).
Proof.
  intros [E|E]; unfold upload_image; rewrite E; cbn; eexists; reflexivity.
Qed.

Lemma upload_image_unsupported (image : Image) (w : World F) :
  ~ supported image ->
  upload_image image w =
    Ok (false, {| this := this w; gl_textures := gl_textures w;
                  calls := calls w ++ [cout (Not_implemented_to_handle_image
                                               (colorChannels image))] |}).
Proof.
  intros Hno. unfold upload_image, supported in *.
  destruct (Z.eqb_spec (colorChannels image) 3); [tauto|].
  destruct (Z.eqb_spec (colorChannels image) 4); [tauto|].
  reflexivity.
Qed.

(** The registration in a free slot. *)
Lemma register_texture_in (w : World F) textureID the_tag :
  0 <= m_loadedTextures (this w) < Z.of_nat (length (m_textureIDs (this w))) ->
  register_texture textureID the_tag w =
    Ok (true,
        {| this := {| m_pShaderManager := m_pShaderManager (this w);
                      m_loadedTextures := m_loadedTextures (this w) + 1;
                      m_textureIDs :=
                        <[Z.to_nat (m_loadedTextures (this w)) :=
                            {| ID := textureID; tag := the_tag |}]> (m_textureIDs (this w));
                      m_objectMaterials := m_objectMaterials (this w) |};
           gl_textures := gl_textures w; calls := calls w |}).
Proof.
  intros Hn. destruct w as [[ptr n table ms] gl cs]. cbn in Hn.
  destruct (lookup_lt_is_Some_2 table (Z.to_nat n)) as [e He]; [lia|].
  unfold register_texture, mbind, M_bind, mret, M_ret, get, textureIDs_assign,
    set_m_loadedTextures. cbn.
  assert ((0 <=? n) = true) as Hle by (apply Z.leb_le; lia).
  rewrite Hle, He. cbn. rewrite Hle.
  rewrite list_lookup_insert_eq by (apply lookup_lt_is_Some_1; eauto). cbn.
  rewrite list_insert_insert_eq. reflexivity.
Qed.

(** The registration with the counter outside the table. *)
Lemma register_texture_out (w : World F) textureID the_tag :
  m_loadedTextures (this w) < 0 \/
  Z.of_nat (length (m_textureIDs (this w))) <= m_loadedTextures (this w) ->
  register_texture textureID the_tag w =
    Undefined (OutOfBounds (m_loadedTextures (this w))).
Proof.
  intros Hn. destruct w as [[ptr n table ms] gl cs]. cbn in Hn.
  unfold register_texture, mbind, M_bind, get, textureIDs_assign. cbn.
  destruct (Z.leb_spec 0 n); [|reflexivity].
  rewrite (proj2 (lookup_ge_None _ _)); [reflexivity|lia].
Qed.

Lemma CreateGLTexture_unreadable (w : World F) filename the_tag :
  stbi_load filename = None ->
  exists w', CreateGLTexture stbi_load filename the_tag w = Ok (false, w') /\
    this w' = this w /\ gl_textures w' = gl_textures w.
Proof.
  intros E. unfold CreateGLTexture. rewrite E. eexists. split; [reflexivity|].
  split; reflexivity.
Qed.

Lemma CreateGLTexture_unsupported (w : World F) filename the_tag image :
  stbi_load filename = Some image -> ~ supported image ->
  exists w', CreateGLTexture stbi_load filename the_tag w = Ok (false, w') /\
    this w' = this w.
Proof.
  intros E Hno. unfold CreateGLTexture. rewrite E.
  unfold mbind, M_bind, emit, gen_texture. cbn.
  rewrite upload_image_unsupported by exact Hno. cbn.
  eexists. split; reflexivity.
Qed.

Lemma CreateGLTexture_supported (w : World F) filename the_tag image :
  stbi_load filename = Some image -> supported image ->
  exists w1,
    this w1 = this w /\
    gl_textures w1 = gl_textures w ++ [fresh_name (gl_textures w)] /\
    CreateGLTexture stbi_load filename the_tag w =
      register_texture (fresh_name (gl_textures w)) the_tag w1.
Proof.
  intros E Hyes. unfold CreateGLTexture. rewrite E.
  unfold mbind, M_bind, emit, gen_texture. cbn.
  match goal with
  | |- context [upload_image image ?w0] =>
      destruct (upload_image_supported image w0 Hyes) as [c Hup]; rewrite Hup
  end. cbn.
  eexists. split; [|split]; [| |reflexivity]; reflexivity.
Qed.

(** A readable image of a supported format and a free slot: the
    load returns true. *)
Lemma CreateGLTexture_succeeds (w : World F) filename the_tag image :
  stbi_load filename = Some image -> supported image ->
  0 <= m_loadedTextures (this w) < Z.of_nat (length (m_textureIDs (this w))) ->
  exists w', CreateGLTexture stbi_load filename the_tag w = Ok (true, w').
Proof.
  intros Hsome Hyes Hn.
  destruct (CreateGLTexture_supported w filename the_tag image Hsome Hyes)
    as (w1 & Hthis & _ & Hreg).
  rewrite Hreg, register_texture_in by (rewrite Hthis; exact Hn).
  eexists. reflexivity.
Qed.

(** Every way a call can end. *)
Lemma CreateGLTexture_cases (w w' : World F) filename the_tag b :
  CreateGLTexture stbi_load filename the_tag w = Ok (b, w') ->
  (b = false /\ this w' = this w /\
   (stbi_load filename = None \/
    exists image, stbi_load filename = Some image /\ ~ supported image)) \/
  (b = true /\
   (exists image, stbi_load filename = Some image /\ supported image) /\
   0 <= m_loadedTextures (this w) < Z.of_nat (length (m_textureIDs (this w))) /\
   this w' =
     {| m_pShaderManager := m_pShaderManager (this w);
        m_loadedTextures := m_loadedTextures (this w) + 1;
        m_textureIDs :=
          <[Z.to_nat (m_loadedTextures (this w)) :=
              {| ID := fresh_name (gl_textures w); tag := the_tag |}]>
            (m_textureIDs (this w));
        m_objectMaterials := m_objectMaterials (this w) |}).
Proof.
  intros E.
  destruct (stbi_load filename) as [image|] eqn:Edec.
  - assert (Decision (supported image)) as [Hyes|Hno]
      by (unfold supported; apply _).
    + destruct (CreateGLTexture_supported w filename the_tag image Edec Hyes)
        as (w1 & Hthis & _ & Hreg).
      rewrite Hreg in E.
      destruct (decide (0 <= m_loadedTextures (this w1)
                        < Z.of_nat (length (m_textureIDs (this w1))))) as [Hin|Hout].
      * rewrite register_texture_in in E by exact Hin.
        inversion E; subst b w'. right. cbn. rewrite Hthis in *.
        split; [reflexivity|]. split; [eauto|]. split; [exact Hin|reflexivity].
      * rewrite register_texture_out in E by lia. discriminate.
    + destruct (CreateGLTexture_unsupported w filename the_tag image Edec Hno)
        as (w1 & E1 & Hthis).
      rewrite E1 in E. inversion E; subst b w'. left. eauto 10.
  - destruct (CreateGLTexture_unreadable w filename the_tag Edec) as (w1 & E1 & Hthis & _).
    rewrite E1 in E. inversion E; subst b w'. left. eauto.
Qed.

(** C7.  A load that fails, because the decoder cannot read the file
    or because the image has neither 3 nor 4 channels, returns false
    and leaves the registry as it was: the counter, every slot of the
    table, and with them the occupied entries. *)
Theorem CreateGLTexture_failure_keeps_registry (w : World F) (filename the_tag : string) :
  (stbi_load filename = None \/
   exists image, stbi_load filename = Some image /\
     colorChannels image <> 3 /\ colorChannels image <> 4) ->
  exists w',
    CreateGLTexture stbi_load filename the_tag w = Ok (false, w') /\
    m_loadedTextures (this w') = m_loadedTextures (this w) /\
    m_textureIDs (this w') = m_textureIDs (this w) /\
    occupied (this w') = occupied (this w) /\
    this w' = this w.
Proof.
  intros [Hnone|(image & Hsome & H3 & H4)].
  - destruct (CreateGLTexture_unreadable w filename the_tag Hnone) as (w' & E & Hthis & _).
    exists w'. rewrite Hthis. auto.
  - assert (~ supported image) as Hno by (unfold supported; tauto).
    destruct (CreateGLTexture_unsupported w filename the_tag image Hsome Hno)
      as (w' & E & Hthis).
    exists w'. rewrite Hthis. auto.
Qed.

(** C2 (the code departs from it).  With all 16 slots occupied, a
    load whose image decodes with 3 or 4 channels does not fail: it
    reaches the assignment to [m_textureIDs[16]], one past the end of
    the table.  No capacity error is reported and nothing stops the
    write. *)
Theorem CreateGLTexture_full_table_overruns (w : World F) (filename the_tag : string)
    (image : Image) :
  Z.of_nat (length (m_textureIDs (this w))) = TEXTURE_SLOTS ->
  m_loadedTextures (this w) = TEXTURE_SLOTS ->
  stbi_load filename = Some image ->
  supported image ->
  CreateGLTexture stbi_load filename the_tag w = Undefined (OutOfBounds TEXTURE_SLOTS).
Proof.
  intros Hlen Hfull Hsome Hyes.
  destruct (CreateGLTexture_supported w filename the_tag image Hsome Hyes)
    as (w1 & Hthis & _ & Hreg).
  rewrite Hreg, register_texture_out; rewrite Hthis; [now rewrite Hfull|lia].
Qed.

(** *** Lookup after loading *)

Lemma first_match_snoc entries e the_tag slot :
  0 <= slot ->
  first_match (entries ++ [e]) the_tag slot =
  if decide (first_match entries the_tag slot = -1)
  then (if String.eqb (tag e) the_tag then slot + Z.of_nat (length entries) else -1)
  else first_match entries the_tag slot.
Proof.
  revert slot. induction entries as [|a rest IH]; intros slot Hs.
  - cbn. rewrite Z.add_0_r. reflexivity.
  - cbn [app first_match length]. destruct (String.eqb (tag a) the_tag).
    + destruct (decide (slot = -1)); [lia|reflexivity].
    + rewrite IH by lia.
      replace (slot + 1 + Z.of_nat (length rest))
        with (slot + Z.of_nat (S (length rest))) by lia.
      reflexivity.
Qed.

Lemma occupied_length (s : SceneManager F) :
  0 <= m_loadedTextures s <= Z.of_nat (length (m_textureIDs s)) ->
  Z.of_nat (length (occupied s)) = m_loadedTextures s.
Proof. intros Hn. unfold occupied. rewrite length_take_le by lia. lia. Qed.

(** A successful load appends one entry to the occupied slots. *)
Lemma occupied_after_load (w w' : World F) filename the_tag :
  CreateGLTexture stbi_load filename the_tag w = Ok (true, w') ->
  0 <= m_loadedTextures (this w) < Z.of_nat (length (m_textureIDs (this w))) /\
  m_loadedTextures (this w') = m_loadedTextures (this w) + 1 /\
  length (m_textureIDs (this w')) = length (m_textureIDs (this w)) /\
  occupied (this w') =
    occupied (this w) ++ [{| ID := fresh_name (gl_textures w); tag := the_tag |}].
Proof.
  intros E. destruct (CreateGLTexture_cases w w' filename the_tag true E)
    as [(Hb & _)|(_ & _ & Hn & Hthis)]; [discriminate|].
  rewrite Hthis. cbn. split; [exact Hn|]. split; [reflexivity|].
  split; [apply length_insert|].
  unfold occupied. cbn.
  replace (Z.to_nat (m_loadedTextures (this w) + 1))
    with (S (Z.to_nat (m_loadedTextures (this w)))) by lia.
  rewrite (take_S_r _ _ {| ID := fresh_name (gl_textures w); tag := the_tag |})
    by (apply list_lookup_insert_eq; lia).
  rewrite take_insert_ge by lia. reflexivity.
Qed.

Lemma loaded_tags_requested requests : forall results t,
  t ∈ loaded_tags requests results -> t ∈ map snd requests.
Proof.
  induction requests as [|[f t0] rest IH]; intros results t Hin; [now destruct results|].
  destruct results as [|[|] bs]; cbn in Hin.
  - inversion Hin.
  - rewrite map_cons. apply elem_of_cons in Hin as [->|Hin]; [left|right; eauto].
  - rewrite map_cons. right. eauto.
Qed.

(** The occupied slots after a run of loads: the tags of the loads
    that succeeded, in the order of the calls. *)
Lemma load_all_occupied requests : forall (w w' : World F) results,
  0 <= m_loadedTextures (this w) <= Z.of_nat (length (m_textureIDs (this w))) ->
  load_all stbi_load requests w = Ok (results, w') ->
  map tag (occupied (this w')) =
    map tag (occupied (this w)) ++ loaded_tags requests results /\
  m_loadedTextures (this w') =
    m_loadedTextures (this w) + Z.of_nat (length (loaded_tags requests results)) /\
  length (m_textureIDs (this w')) = length (m_textureIDs (this w)) /\
  0 <= m_loadedTextures (this w') <= Z.of_nat (length (m_textureIDs (this w'))).
Proof.
  induction requests as [|[f t] rest IH]; intros w w' results Hn E.
  - cbn in E. inversion E; subst. cbn. rewrite app_nil_r, Z.add_0_r. auto.
  - cbn [load_all] in E. unfold mbind, M_bind in E.
    destruct (CreateGLTexture stbi_load f t w) as [[b w1]|u] eqn:Eload; [|discriminate].
    destruct (load_all stbi_load rest w1) as [[bs w2]|u] eqn:Erest; [|discriminate].
    cbn in E. inversion E; subst results w2. clear E.
    destruct b.
    + destruct (occupied_after_load w w1 f t Eload) as (Hin & Hcount & Hlen & Hocc).
      destruct (IH w1 w' bs ltac:(lia) Erest) as (Htags & Hc & Hl & Hr).
      cbn [loaded_tags length]. rewrite Htags, Hocc, map_app, <- app_assoc. cbn.
      repeat split; try reflexivity; try lia; congruence.
    + destruct (CreateGLTexture_cases w w1 f t false Eload)
        as [(_ & Hthis & _)|(Hb & _)]; [|discriminate].
      destruct (IH w1 w' bs ltac:(rewrite Hthis; lia) Erest) as (Htags & Hc & Hl & Hr).
      rewrite Hthis in *. cbn [loaded_tags]. auto.
Qed.

(** C6.  On an intact table, a load that succeeds raises the count
    of occupied slots by exactly one and puts the tag into the slot
    numbered by the old count; a lookup of that tag afterwards
    returns the first slot that holds the tag, which is this new slot
    whenever the tag was not in the registry before.  In a registry
    filled from empty by load calls, slot i holds the tag of the i-th
    successful load, and the lookup of a tag that was never passed to
    a load returns -1. *)
Theorem load_then_lookup (w : World F) :
  table_ok (this w) ->
  (forall filename the_tag w',
      CreateGLTexture stbi_load filename the_tag w = Ok (true, w') ->
      m_loadedTextures (this w') = m_loadedTextures (this w) + 1 /\
      length (occupied (this w')) = S (length (occupied (this w))) /\
      occupied (this w') !! Z.to_nat (m_loadedTextures (this w)) =
        Some {| ID := fresh_name (gl_textures w); tag := the_tag |} /\
      exists slot,
        FindTextureSlot the_tag w' = Ok (slot, w') /\
        0 <= slot <= m_loadedTextures (this w) /\
        (exists e, occupied (this w') !! Z.to_nat slot = Some e /\ tag e = the_tag) /\
        (forall j e', (j < Z.to_nat slot)%nat -> occupied (this w') !! j = Some e' ->
                      tag e' <> the_tag) /\
        (the_tag ∉ map tag (occupied (this w)) -> slot = m_loadedTextures (this w))) /\
  (m_loadedTextures (this w) = 0 ->
   forall requests results w',
      load_all stbi_load requests w = Ok (results, w') ->
      map tag (occupied (this w')) = loaded_tags requests results /\
      m_loadedTextures (this w') = Z.of_nat (length (loaded_tags requests results)) /\
      forall t, t ∉ map snd requests -> FindTextureSlot t w' = Ok (-1, w')).
Proof.
  intros [Hlen Hn]. split.
  - intros filename the_tag w' E.
    destruct (occupied_after_load w w' filename the_tag E) as (Hin & Hcount & Hlen' & Hocc).
    pose proof (occupied_length (this w) ltac:(lia)) as Holen.
    split; [exact Hcount|].
    split; [rewrite Hocc, length_app; cbn; lia|].
    split.
    { rewrite Hocc, lookup_app_r by lia.
      replace (Z.to_nat (m_loadedTextures (this w)) - length (occupied (this w)))%nat
        with 0%nat by lia. reflexivity. }
    exists (lookup_by_tag (this w') the_tag).
    split; [apply FindTextureSlot_lookup; lia|].
    unfold lookup_by_tag. rewrite Hocc.
    pose proof (first_match_snoc (occupied (this w))
      {| ID := fresh_name (gl_textures w); tag := the_tag |} the_tag 0 ltac:(lia)) as Hsnoc.
    cbn [tag] in Hsnoc. rewrite String.eqb_refl in Hsnoc.
    pose proof (first_match_range (occupied (this w)) the_tag 0) as Hrange.
    set (slot := first_match (occupied (this w) ++ _) the_tag 0) in *.
    assert (0 <= slot <= m_loadedTextures (this w)) as Hslot.
    { destruct (decide (first_match (occupied (this w)) the_tag 0 = -1)); lia. }
    split; [exact Hslot|].
    destruct (first_match_found _ the_tag 0 slot ltac:(lia) eq_refl ltac:(lia))
      as (e & He & Ht & Hbefore).
    rewrite Z.sub_0_r in He, Hbefore.
    split; [eauto|]. split; [exact Hbefore|].
    intros Hnot. rewrite (first_match_none _ _ 0 Hnot) in Hsnoc.
    destruct (decide (-1 = -1)); lia.
  - intros Hzero requests results w' E.
    destruct (load_all_occupied requests w w' results ltac:(lia) E)
      as (Htags & Hcount & Hlen' & Hrange).
    assert (occupied (this w) = []) as Hempty
      by (unfold occupied; rewrite Hzero; reflexivity).
    rewrite Hempty in Htags. cbn in Htags.
    split; [exact Htags|]. split; [lia|].
    intros t Hnot. rewrite FindTextureSlot_lookup by lia.
    unfold lookup_by_tag. rewrite first_match_none; [reflexivity|].
    rewrite Htags. intros Hin. apply Hnot. eapply loaded_tags_requested, Hin.
Qed.

(** *** Teardown *)

Lemma regenerate_slot_in (w : World F) i e :
  0 <= i -> m_textureIDs (this w) !! Z.to_nat i = Some e ->
  regenerate_slot i w =
    Ok (tt,
        {| this := {| m_pShaderManager := m_pShaderManager (this w);
                      m_loadedTextures := m_loadedTextures (this w);
                      m_textureIDs :=
                        <[Z.to_nat i := set_ID (fresh_name (gl_textures w)) e]>
                          (m_textureIDs (this w));
                      m_objectMaterials := m_objectMaterials (this w) |};
           gl_textures := gl_textures w ++ [fresh_name (gl_textures w)];
           calls := calls w ++ [glGenTextures (fresh_name (gl_textures w))] |}).
Proof.
  intros Hi He. destruct w as [[ptr n table ms] gl cs]. cbn in He.
  assert ((0 <=? i) = true) as Hle by (apply Z.leb_le; lia).
  unfold regenerate_slot, mbind, M_bind, textureIDs_at, gen_texture, textureIDs_assign.
  cbn. rewrite Hle, He. cbn. rewrite He. reflexivity.
Qed.

(** The loop of [DestroyGLTextures] over slots [i .. i + remaining - 1]:
    it only generates names. *)
Lemma regenerate_all remaining : forall i (w : World F),
  0 <= i ->
  (Z.to_nat i + remaining <= length (m_textureIDs (this w)))%nat ->
  exists w' names,
    for_each_loaded remaining i regenerate_slot w = Ok (tt, w') /\
    length names = remaining /\
    gl_textures w' = gl_textures w ++ names /\
    calls w' = calls w ++ map glGenTextures names /\
    m_loadedTextures (this w') = m_loadedTextures (this w) /\
    length (m_textureIDs (this w')) = length (m_textureIDs (this w)) /\
    map tag (m_textureIDs (this w')) = map tag (m_textureIDs (this w)) /\
    m_pShaderManager (this w') = m_pShaderManager (this w) /\
    m_objectMaterials (this w') = m_objectMaterials (this w).
Proof.
  induction remaining as [|r IH]; intros i w Hi Hlen.
  - exists w, []. cbn. rewrite !app_nil_r. repeat split; reflexivity.
  - destruct (lookup_lt_is_Some_2 (m_textureIDs (this w)) (Z.to_nat i)) as [e He]; [lia|].
    cbn [for_each_loaded].
    rewrite (bind_Ok _ _ _ _ _ (regenerate_slot_in w i e Hi He)).
    match goal with
    | |- context [for_each_loaded r (i + 1) regenerate_slot ?w1] =>
        destruct (IH (i + 1) w1 ltac:(lia) ltac:(cbn; rewrite length_insert; lia))
          as (w' & names & E & Hn & Hgl & Hcalls & Hcount & Hl & Htags & Hp & Hm)
    end.
    cbn in Hgl, Hcalls, Hcount, Hl, Htags, Hp, Hm.
    exists w', (fresh_name (gl_textures w) :: names).
    split; [exact E|]. split; [cbn; lia|].
    split; [rewrite Hgl, <- app_assoc; reflexivity|].
    split; [rewrite Hcalls, <- app_assoc; reflexivity|].
    split; [exact Hcount|].
    split; [rewrite Hl; apply length_insert|].
    split; [|split; assumption].
    rewrite Htags, list_fmap_insert. cbn. apply list_insert_id.
    rewrite list_lookup_fmap, He. reflexivity.
Qed.

(** C9 (the code departs from it).  On an intact table with n
    occupied slots, [DestroyGLTextures] deletes nothing: its only
    calls are n calls of [glGenTextures], every texture name that
    existed before still exists afterwards, and n new names exist
    besides.  The counter is left at n, so a second call is not
    without effect either: it generates n names more. *)
Theorem DestroyGLTextures_releases_nothing (w : World F) :
  table_ok (this w) ->
  exists w' names,
    DestroyGLTextures w = Ok (tt, w') /\
    Z.of_nat (length names) = m_loadedTextures (this w) /\
    gl_textures w' = gl_textures w ++ names /\
    (forall name, name ∈ gl_textures w -> name ∈ gl_textures w') /\
    calls w' = calls w ++ map glGenTextures names /\
    m_loadedTextures (this w') = m_loadedTextures (this w) /\
    (0 < m_loadedTextures (this w) ->
     exists w'', DestroyGLTextures w' = Ok (tt, w'') /\ w'' <> w' /\
       length (gl_textures w'') =
         (length (gl_textures w') + Z.to_nat (m_loadedTextures (this w)))%nat).
Proof.
  intros [Hlen Hn].
  assert (forall w0 : World F,
    0 <= m_loadedTextures (this w0) <= Z.of_nat (length (m_textureIDs (this w0))) ->
    exists w' names,
      DestroyGLTextures w0 = Ok (tt, w') /\
      length names = Z.to_nat (m_loadedTextures (this w0)) /\
      gl_textures w' = gl_textures w0 ++ names /\
      calls w' = calls w0 ++ map glGenTextures names /\
      m_loadedTextures (this w') = m_loadedTextures (this w0) /\
      length (m_textureIDs (this w')) = length (m_textureIDs (this w0))) as Hrun.
  { intros w0 H0.
    destruct (regenerate_all (Z.to_nat (m_loadedTextures (this w0))) 0 w0
                ltac:(lia) ltac:(lia))
      as (w' & names & E & Hnames & Hgl & Hcalls & Hcount & Hl & _).
    exists w', names. unfold DestroyGLTextures.
    rewrite (bind_Ok _ _ w0 (m_loadedTextures (this w0)) w0) by reflexivity.
    auto 10. }
  destruct (Hrun w ltac:(lia)) as (w' & names & E & Hnames & Hgl & Hcalls & Hcount & Hl).
  exists w', names.
  split; [exact E|]. split; [lia|]. split; [exact Hgl|].
  split; [intros name Hin; rewrite Hgl; apply elem_of_app; now left|].
  split; [exact Hcalls|]. split; [exact Hcount|].
  intros Hpos.
  destruct (Hrun w' ltac:(lia)) as (w'' & names' & E' & Hnames' & Hgl' & _).
  exists w''. split; [exact E'|].
  assert (length (gl_textures w'') =
          (length (gl_textures w') + Z.to_nat (m_loadedTextures (this w)))%nat) as Hgrow
    by (rewrite Hgl', length_app, Hnames', Hcount; reflexivity).
  split; [|exact Hgrow].
  intros Heq. rewrite Heq in Hgrow. lia.
Qed.
End Textures.

(** ** The scene composer *)

Section Composer.
Context {F : Type} `{Float32 F}.
Variable leftover_local : OBJECT_MATERIAL F.

(** *** The binder calls as store writes *)

Lemma with_writes_nil (w : World F) : with_writes [] w = w.
Proof.
  destruct w as [[[store|] n table ms] gl cs]; unfold with_writes; cbn;
    rewrite app_nil_r; reflexivity.
Qed.

Lemma with_writes_app (ws1 ws2 : list (string * uniform F)) (w : World F) :
  with_writes ws2 (with_writes ws1 w) = with_writes (ws1 ++ ws2) w.
Proof.
  destruct w as [[[store|] n table ms] gl cs]; unfold with_writes, write_calls, apply_writes;
    cbn; rewrite ?foldl_app, map_app, <- app_assoc; reflexivity.
Qed.

Lemma SetTransformations_run (w : World F) store s a b c p :
  store_of w = Some store ->
  SetTransformations s a b c p w =
    Ok (tt, with_writes [("model", UMat4 (model_matrix s a b c p))] w).
Proof.
  intros Hsm. destruct w as [[ptr n table ms] gl cs]. cbn in Hsm. subst ptr. reflexivity.
Qed.

Lemma SetShaderColor_run (w : World F) store r g b a :
  store_of w = Some store ->
  SetShaderColor r g b a w =
    Ok (tt, with_writes [("bUseTexture", UInt 0);
                         ("objectColor", UVec4 (glm.Vec4 r g b a))] w).
Proof.
  intros Hsm. destruct w as [[ptr n table ms] gl cs]. cbn in Hsm. subst ptr.
  unfold SetShaderColor, if_shader_manager, setIntValue, setVec4Value, shader_set,
    mbind, M_bind, get, with_writes.
  cbn. rewrite <- app_assoc. reflexivity.
Qed.

Lemma SetShaderTexture_run (w : World F) store textureTag :
  store_of w = Some store ->
  m_loadedTextures (this w) <= Z.of_nat (length (m_textureIDs (this w))) ->
  SetShaderTexture textureTag w =
    Ok (tt, with_writes [("bUseTexture", UInt 1);
                         ("objectTexture",
                          USampler2D (lookup_by_tag (this w) textureTag))] w).
Proof.
  intros Hsm Hn. destruct w as [[ptr n table ms] gl cs]. cbn in Hsm, Hn. subst ptr.
  unfold SetShaderTexture, if_shader_manager, mbind, M_bind, get. cbn.
  rewrite FindTextureSlot_lookup by exact Hn.
  unfold setSampler2DValue, shader_set, with_writes. cbn.
  rewrite <- app_assoc. reflexivity.
Qed.

Lemma SetShaderMaterial_run (w : World F) store materialTag :
  store_of w = Some store ->
  m_objectMaterials (this w) = [] \/ is_Some (lookup_material (this w) materialTag) ->
  SetShaderMaterial leftover_local materialTag w =
    Ok (tt, with_writes
              match lookup_material (this w) materialTag with
              | Some m => material_writes m
              | None => []
              end w).
Proof.
  intros Hsm [Hempty|[m Hm]].
  - rewrite SetShaderMaterial_empty by exact Hempty.
    unfold lookup_material. rewrite Hempty. cbn. now rewrite with_writes_nil.
  - rewrite Hm.
    destruct (SetShaderMaterial_matched w store leftover_local m materialTag Hsm Hm)
      as (w' & E & Hstore & Hcalls & Hgl & Hcount & Htable & Hms).
    rewrite E. f_equal. f_equal.
    destruct w as [[ptr n table ms] gl cs], w' as [[ptr' n' table' ms'] gl' cs'].
    cbn in *. subst. reflexivity.
Qed.

(** *** One object, then the whole list *)

Lemma with_writes_attached (w : World F) store ws :
  store_of w = Some store -> store_of (with_writes ws w) = Some (apply_writes ws store).
Proof. unfold store_of, with_writes. cbn. now intros ->. Qed.

Lemma render_object_run (w : World F) store (o : RenderObject) :
  store_of w = Some store ->
  m_loadedTextures (this w) <= Z.of_nat (length (m_textureIDs (this w))) ->
  resolves (this w) o ->
  render_object leftover_local o w = Ok (tt, drawn (this w) w o).
Proof.
  intros Hsm Hn Hres. unfold render_object.
  rewrite (bind_Ok _ _ _ _ _ (SetTransformations_run w store _ _ _ _ _ Hsm)).
  pose proof (with_writes_attached w store
    [("model", UMat4 (model_matrix (scaleXYZ o) (rotationDegrees o).1.1
                        (rotationDegrees o).1.2 (rotationDegrees o).2 (positionXYZ o)))]
    Hsm) as H1.
  rewrite (bind_Ok _ _ _ _ _ (SetShaderColor_run _ _ _ _ _ _ H1)).
  pose proof (with_writes_attached _ _
    [("bUseTexture", UInt 0);
     ("objectColor", UVec4 (glm.Vec4 (glm.x4 (color o)) (glm.y4 (color o))
                              (glm.z4 (color o)) (glm.w4 (color o))))] H1) as H2.
  rewrite (bind_Ok _ _ _ _ _ (SetShaderTexture_run _ _ (textureTag o) H2 Hn)).
  pose proof (with_writes_attached _ _
    [("bUseTexture", UInt 1);
     ("objectTexture", USampler2D (lookup_by_tag (this w) (textureTag o)))] H2) as H3.
  rewrite (bind_Ok _ _ _ _ _ (SetShaderMaterial_run _ _ (materialTag o) H3 Hres)).
  unfold emit, drawn, with_call. f_equal. f_equal.
  rewrite !with_writes_app.
  destruct o as [k s rot p [r g b a] tex mat]. reflexivity.
Qed.

Lemma object_writes_registry (s s' : SceneManager F) (o : RenderObject) :
  m_loadedTextures s' = m_loadedTextures s ->
  m_textureIDs s' = m_textureIDs s ->
  m_objectMaterials s' = m_objectMaterials s ->
  object_writes s' o = object_writes s o.
Proof.
  intros Hn Ht Hm.
  unfold object_writes, texture_writes, bound_material_writes, lookup_by_tag,
    lookup_material, occupied.
  now rewrite Hn, Ht, Hm.
Qed.

Lemma drawn_registry (s s' : SceneManager F) (w : World F) (o : RenderObject) :
  m_loadedTextures s' = m_loadedTextures s ->
  m_textureIDs s' = m_textureIDs s ->
  m_objectMaterials s' = m_objectMaterials s ->
  drawn s' w o = drawn s w o.
Proof.
  intros Hn Ht Hm. unfold drawn.
  now rewrite (object_writes_registry s s' o Hn Ht Hm).
Qed.

Lemma render_all_run (s : SceneManager F) (scene : list RenderObject) :
  forall (w : World F) store,
    store_of w = Some store ->
    m_loadedTextures (this w) = m_loadedTextures s ->
    m_textureIDs (this w) = m_textureIDs s ->
    m_objectMaterials (this w) = m_objectMaterials s ->
    m_loadedTextures s <= Z.of_nat (length (m_textureIDs s)) ->
    Forall (resolves s) scene ->
    render_all leftover_local scene w = Ok (tt, foldl (drawn s) w scene).
Proof.
  induction scene as [|o rest IH]; intros w store Hsm Hn Ht Hm Hbound Hres; [reflexivity|].
  apply Forall_cons in Hres as [Ho Hrest].
  cbn [render_all foldl].
  assert (resolves (this w) o) as Ho'.
  { unfold resolves, lookup_material in *. now rewrite Hm. }
  rewrite (bind_Ok _ _ _ _ _
    (render_object_run w store o Hsm ltac:(rewrite Hn, Ht; exact Hbound) Ho')).
  rewrite (drawn_registry s (this w) w o Hn Ht Hm).
  apply (IH (drawn s w o) (apply_writes (object_writes s o) store)).
  - exact (with_writes_attached w store (object_writes s o) Hsm).
  - exact Hn.
  - exact Ht.
  - exact Hm.
  - exact Hbound.
  - exact Hrest.
Qed.

Lemma calls_drawn_all (s : SceneManager F) (scene : list RenderObject) :
  forall w : World F,
    calls (foldl (drawn s) w scene) = calls w ++ concat (map (object_calls s) scene).
Proof.
  induction scene as [|o rest IH]; intros w; cbn [foldl map concat].
  - now rewrite app_nil_r.
  - rewrite IH. unfold drawn, with_call, with_writes, object_calls.
    cbn [calls]. now rewrite <- !app_assoc.
Qed.

(** *** Frames of a sequence of object blocks *)

Lemma frames_from_block (ws : list (string * uniform F)) (k : mesh) rest :
  forall pending,
    frames_from pending (write_calls ws ++ DrawMesh k :: rest) =
    (pending ++ write_calls ws, k) :: frames_from [] rest.
Proof.
  induction ws as [|[n v] ws IH]; intros pending; cbn.
  - now rewrite app_nil_r.
  - rewrite IH, <- app_assoc. reflexivity.
Qed.

Lemma frames_object_calls (s : SceneManager F) (scene : list RenderObject) :
  frames (concat (map (object_calls s) scene)) =
  map (fun o => (write_calls (object_writes s o), meshKind o)) scene.
Proof.
  unfold frames. induction scene as [|o rest IH]; [reflexivity|].
  cbn [map concat]. unfold object_calls at 1. rewrite <- app_assoc. cbn [app].
  rewrite frames_from_block, IH. reflexivity.
Qed.

Lemma draws_app (a b : list (call F)) : draws (a ++ b) = draws a ++ draws b.
Proof. apply omap_app. Qed.

Lemma draws_write_calls (ws : list (string * uniform F)) : draws (write_calls ws) = [].
Proof. induction ws as [|[n v] ws IH]; [reflexivity|exact IH]. Qed.

Lemma draws_object_calls (s : SceneManager F) (scene : list RenderObject) :
  draws (concat (map (object_calls s) scene)) = map meshKind scene.
Proof.
  induction scene as [|o rest IH]; [reflexivity|].
  cbn [map concat]. unfold object_calls at 1.
  rewrite !draws_app, draws_write_calls, IH. reflexivity.
Qed.

Lemma count_app (p : call F -> bool) (a b : list (call F)) :
  count p (a ++ b) = (count p a + count p b)%nat.
Proof. unfold count. now rewrite List.filter_app, length_app. Qed.

(** Each object's block has the shape of the source: one transform
    write, one color write, one texture write, and the material's
    five parameters or none. *)
Lemma object_frame_as_coded (s : SceneManager F) (o : RenderObject) :
  frame_as_coded (write_calls (object_writes s o)).
Proof.
  unfold frame_as_coded, transform_count, set_color_count, set_texture_count,
    material_count, object_writes, write_calls.
  rewrite !map_app, !count_app.
  unfold bound_material_writes.
  destruct (lookup_material s (materialTag o)) as [m|]; cbn; auto.
Qed.

(** *** The source's straight-line code is the loop over the list *)

Lemma RenderScene_render_all (w : World F) :
  RenderScene leftover_local w = render_all leftover_local authored_scene w.
Proof.
  cbv [RenderScene render_all authored_scene render_object object v3
       scaleXYZ rotationDegrees positionXYZ color textureTag materialTag meshKind
       glm.x4 glm.y4 glm.z4 glm.w4 fst snd mbind M_bind mret M_ret emit].
  repeat
    (match goal with
     | |- context [SetTransformations ?a ?b ?c ?d ?e ?w0] =>
         destruct (SetTransformations a b c d e w0) as [[[] ?]|?]
     | |- context [SetShaderColor ?a ?b ?c ?d ?w0] =>
         destruct (SetShaderColor a b c d w0) as [[[] ?]|?]
     | |- context [SetShaderTexture ?a ?w0] =>
         destruct (SetShaderTexture a w0) as [[[] ?]|?]
     | |- context [SetShaderMaterial ?a ?b ?w0] =>
         destruct (SetShaderMaterial a b w0) as [[[] ?]|?]
     end; try reflexivity).
Qed.

Lemma RenderScene_run (w : World F) (store : ShaderManager F) :
  store_of w = Some store ->
  m_loadedTextures (this w) <= Z.of_nat (length (m_textureIDs (this w))) ->
  materials_resolve (this w) ->
  RenderScene leftover_local w = Ok (tt, foldl (drawn (this w)) w authored_scene).
Proof.
  intros Hsm Hbound Hres. rewrite RenderScene_render_all.
  exact (render_all_run (this w) authored_scene w store Hsm eq_refl eq_refl eq_refl
           Hbound Hres).
Qed.

Lemma coded_not_claimed (f : list (call F)) : frame_as_coded f -> ~ frame_as_claimed f.
Proof. intros (_ & Hc & Ht & _) (_ & Hsum & _). lia. Qed.

(** C4 (as amended).  With a shader manager attached, the texture
    counter inside the table and every material tag of the scene
    defined (or no material defined at all), [RenderScene] issues
    exactly eight draw calls, one per authored object and in the
    authored order: Plane, Plane, Torus, Box, Box, Box, Box, Prism.
    The calls between one draw and the next are the writes of that
    object alone: one write of the model matrix, then the color write
    and the texture write, both of them and in this order, then the
    five material parameters (none when the registry is empty). *)
Theorem RenderScene_frames (w : World F) (store : ShaderManager F) :
  store_of w = Some store ->
  m_loadedTextures (this w) <= Z.of_nat (length (m_textureIDs (this w))) ->
  materials_resolve (this w) ->
  exists w' new,
    RenderScene leftover_local w = Ok (tt, w') /\
    calls w' = calls w ++ new /\
    new = concat (map (object_calls (this w)) authored_scene) /\
    draws new = [Plane; Plane; Torus; Box; Box; Box; Box; Prism] /\
    length (draws new) = length authored_scene /\
    frames new =
      map (fun o => (write_calls (object_writes (this w) o), meshKind o)) authored_scene /\
    Forall (fun f => frame_as_coded f.1) (frames new) /\
    Forall (fun f => set_color_count f.1 = 1%nat /\ set_texture_count f.1 = 1%nat)
      (frames new).
Proof.
  intros Hsm Hbound Hres.
  exists (foldl (drawn (this w)) w authored_scene),
         (concat (map (object_calls (this w)) authored_scene)).
  assert (Forall (fun f : list (call F) * mesh => frame_as_coded f.1)
            (frames (concat (map (object_calls (this w)) authored_scene)))) as Hcoded.
  { rewrite frames_object_calls. apply Forall_map, Forall_forall.
    intros o _. apply object_frame_as_coded. }
  split; [exact (RenderScene_run w store Hsm Hbound Hres)|].
  split; [apply calls_drawn_all|].
  split; [reflexivity|].
  split; [rewrite draws_object_calls; reflexivity|].
  split; [rewrite draws_object_calls; apply length_map|].
  split; [apply frames_object_calls|].
  split; [exact Hcoded|].
  eapply Forall_impl; [exact Hcoded|].
  intros f (_ & Hc & Ht & _). split; assumption.
Qed.
End Composer.

(** ** Concrete scenes *)

Section ConcreteScenes.
Context {F : Type} `{Float32 F}.

Lemma prepared_scene_store : store_of (prepared_scene (F:=F)) = Some ∅.
Proof. vm_compute. reflexivity. Qed.

Lemma prepared_scene_occupied :
  occupied (this (prepared_scene (F:=F))) =
    [ {| ID := 1; tag := "stone" |}; {| ID := 2; tag := "bush" |};
      {| ID := 3; tag := "ground" |}; {| ID := 4; tag := "sky" |} ].
Proof. vm_compute. reflexivity. Qed.

Lemma prepared_scene_table :
  table_ok (this (prepared_scene (F:=F))) /\ m_loadedTextures (this (prepared_scene (F:=F))) = 4.
Proof. vm_compute. intuition discriminate. Qed.

Lemma prepared_scene_materials :
  map material_tag (m_objectMaterials (this (prepared_scene (F:=F)))) =
    ["box1"; "box2"; "box3"; "box4"; "prism"; "torus"; "topPlane"; "bottomPlane"].
Proof. vm_compute. reflexivity. Qed.

Lemma prepared_scene_resolves : materials_resolve (this (prepared_scene (F:=F))).
Proof.
  unfold materials_resolve, authored_scene.
  repeat first
    [ apply List.Forall_nil
    | apply List.Forall_cons; [right; vm_compute; eexists; reflexivity|] ].
Qed.

Lemma prepared_scene_unmatched :
  lookup_material (this (prepared_scene (F:=F))) "nonexistent" = None.
Proof. vm_compute. reflexivity. Qed.

Lemma prepared_scene_names : gl_textures (prepared_scene (F:=F)) = [1; 2; 3; 4].
Proof. vm_compute. reflexivity. Qed.

Lemma fresh_scene_table p : table_ok (this (fresh_scene (F:=F) p)).
Proof. vm_compute. intuition discriminate. Qed.

Lemma unattached_scene_store : store_of (unattached_scene (F:=F)) = None.
Proof. vm_compute. reflexivity. Qed.

Lemma unattached_scene_box1 :
  m_objectMaterials (this (unattached_scene (F:=F))) <> [] /\
  is_Some (lookup_material (this (unattached_scene (F:=F))) "box1").
Proof. vm_compute. split; [discriminate|eexists; reflexivity]. Qed.

Lemma sixteen_loads :
  load_all (decodes_with 3) sixteen_requests (fresh_scene (F:=F) (Some ∅)) =
    Ok (replicate 16 true, full_registry).
Proof. vm_compute. reflexivity. Qed.

Lemma full_registry_full :
  Z.of_nat (length (m_textureIDs (this (full_registry (F:=F))))) = TEXTURE_SLOTS /\
  m_loadedTextures (this (full_registry (F:=F))) = TEXTURE_SLOTS.
Proof. vm_compute. split; reflexivity. Qed.
End ConcreteScenes.

(** ** Real arithmetic satisfies the arithmetic facts *)

Lemma real_lit (n : Z) : flt (F:=R) n = IZR n.
Proof. unfold flt, f_lit, real_arithmetic, Q2R. cbn. rewrite Rinv_1. apply Rmult_1_r. Qed.

Lemma real_small (x : R) : small x -> x = 0%R \/ x = 1%R \/ x = 2%R.
Proof. unfold small. rewrite !real_lit. tauto. Qed.

#[global] Instance real_exact_on_small : ExactOnSmall (F:=R).
Proof.
  split; try (intros x Hx%real_small); rewrite ?real_lit; cbn.
  - apply Rmult_0_l.
  - apply Rmult_0_r.
  - apply Rmult_1_l.
  - apply Rmult_1_r.
  - apply Rplus_0_l.
  - apply Rplus_0_r.
  - apply Rminus_diag.
  - apply Rminus_diag.
  - apply Rmult_0_l.
  - apply Rtrigo_def.cos_0.
  - apply Rtrigo_def.sin_0.
  - rewrite sqrt_1. apply Rinv_1.
Qed.

#[global] Instance real_ideal_arithmetic : IdealArithmetic (F:=R).
Proof.
  split.
  - unfold negated. rewrite !real_lit. cbn [f_add f_mul f_sub real_arithmetic].
    constructor; intros; ring.
  - rewrite real_lit. cbn. rewrite sqrt_1. apply Rinv_1.
Qed.

(** ** Single-precision arithmetic satisfies them too

    With any [cos] and [sin] that are exact at zero, as Annex F of the
    C standard requires. *)

Section Binary32.
Variables cosf sinf : spec_float -> spec_float.
Hypothesis cosf_zero : cosf (S754_zero false) = binary32_of_Z 1.
Hypothesis sinf_zero : sinf (S754_zero false) = S754_zero false.

Let arithmetic : Float32 spec_float := binary32 cosf sinf.
#[local] Existing Instance arithmetic.

Lemma binary32_zero : flt 0 = S754_zero false.
Proof. vm_compute. reflexivity. Qed.

Lemma binary32_one : flt 1 = binary32_of_Z 1.
Proof. vm_compute. reflexivity. Qed.

Lemma binary32_exact_on_small : ExactOnSmall.
Proof.
  split;
    try (intros x [-> | [-> | ->]]; vm_compute; reflexivity);
    try (vm_compute; reflexivity).
  - rewrite binary32_zero, binary32_one. exact cosf_zero.
  - rewrite binary32_zero. exact sinf_zero.
Qed.

(** So in single precision the matrix of the scale example is exactly
    diag(2, 1, 1, 1). *)
Corollary binary32_scale_only :
  model_matrix (v3 (flt 2) (flt 1) (flt 1)) (flt 0) (flt 0) (flt 0)
    (v3 (flt 0) (flt 0) (flt 0)) = pure_scale (flt 2) (flt 1) (flt 1).
Proof. exact (@model_matrix_scale_only _ arithmetic binary32_exact_on_small). Qed.
End Binary32.

(** ** Worked instances over real arithmetic *)

Lemma prepared_scene_bound :
  m_loadedTextures (this (prepared_scene (F:=R))) <=
  Z.of_nat (length (m_textureIDs (this (prepared_scene (F:=R))))).
Proof. destruct (prepared_scene_table (F:=R)) as [[Hlen Hn] _]. lia. Qed.

(** The scale example of C3 on a fresh scene, and the matrix of the
    upright plane of the scene (scale (20,1,10), 90 degrees about X,
    position (0,9,-10)) against the spec's product. *)
Lemma SetTransformations_model_matrix_witness :
  (exists w' store',
     SetTransformations (F:=R) (v3 (flt 2) (flt 1) (flt 1)) (flt 0) (flt 0) (flt 0)
       (v3 (flt 0) (flt 0) (flt 0)) (fresh_scene (Some ∅)) = Ok (tt, w') /\
     store_of w' = Some store' /\
     store' !! "model" = Some (UMat4 (pure_scale (flt 2) (flt 1) (flt 1)))) /\
  (exists w' m,
     SetTransformations (F:=R) (v3 (flt 20) (flt 1) (flt 10)) (flt 90) (flt 0) (flt 0)
       (v3 (flt 0) (flt 9) (flt (-10))) (fresh_scene (Some ∅)) = Ok (tt, w') /\
     store_of w' = Some (<["model" := UMat4 m]> ∅) /\
     forall i j : nat, (i < 4)%nat -> (j < 4)%nat ->
       entry m i j =
       spec_model_matrix (v3 (flt 20) (flt 1) (flt 10)) (flt 90) (flt 0) (flt 0)
         (v3 (flt 0) (flt 9) (flt (-10))) i j).
Proof.
  split.
  - pose proof (SetTransformations_model_matrix (F:=R) (fresh_scene (Some ∅)) ∅
      (v3 (flt 2) (flt 1) (flt 1)) (flt 0) (flt 0) (flt 0) (v3 (flt 0) (flt 0) (flt 0))
      eq_refl) as Hthm.
    cbv zeta in Hthm. destruct Hthm as [(w' & E & _) [Hscale _]].
    destruct (Hscale real_exact_on_small w' E) as (store' & Hs & Hm).
    exists w', store'. split; [exact E|]. split; [exact Hs|exact Hm].
  - pose proof (SetTransformations_model_matrix (F:=R) (fresh_scene (Some ∅)) ∅
      (v3 (flt 20) (flt 1) (flt 10)) (flt 90) (flt 0) (flt 0)
      (v3 (flt 0) (flt 9) (flt (-10))) eq_refl) as Hthm.
    cbv zeta in Hthm. destruct Hthm as [(w' & E & Hs & _) [_ Hideal]].
    destruct (Hideal real_ideal_arithmetic) as [Hentries _].
    eexists w', _. split; [exact E|]. split; [exact Hs|exact Hentries].
Defined.

(** Red, then the stone texture, then red again: the flag is false. *)
Lemma SetShaderColor_clears_texture_flag_witness :
  exists w1 w2 store2,
    SetShaderTexture (F:=R) "stone" prepared_scene = Ok (tt, w1) /\
    SetShaderColor (flt 1) (flt 0) (flt 0) (flt 1) w1 = Ok (tt, w2) /\
    store_of w2 = Some store2 /\
    store2 !! "bUseTexture" = Some (UInt 0).
Proof.
  pose proof (SetShaderTexture_run (F:=R) prepared_scene ∅ "stone"
                prepared_scene_store prepared_scene_bound) as Etex.
  destruct (SetShaderColor_clears_texture_flag (F:=R) prepared_scene ∅
              (flt 1) (flt 0) (flt 0) (flt 1) prepared_scene_store) as [_ Hafter].
  destruct (Hafter "stone" _ Etex) as (w2 & store2 & E2 & Hs & Hflag & _).
  eexists _, w2, store2. split; [exact Etex|]. split; [exact E2|].
  split; [exact Hs|exact Hflag].
Defined.

(** The stone texture was loaded first: it is bound as sampler 0. *)
Lemma SetShaderTexture_binds_slot_witness :
  exists w' store',
    SetShaderTexture (F:=R) "stone" prepared_scene = Ok (tt, w') /\
    store_of w' = Some store' /\
    store' !! "bUseTexture" = Some (UInt 1) /\
    store' !! "objectTexture" = Some (USampler2D 0).
Proof.
  destruct (SetShaderTexture_binds_slot (F:=R) prepared_scene ∅ "stone"
              prepared_scene_store prepared_scene_bound)
    as (w' & store' & slot & _ & E & Hs & Hflag & Hsampler & Hfirst & _).
  assert (slot = 0) as ->.
  { apply (Hfirst 0%nat {| ID := 1; tag := "stone" |}).
    - rewrite prepared_scene_occupied. reflexivity.
    - reflexivity.
    - intros j e' Hj. inversion Hj. }
  exists w', store'. split; [exact E|]. split; [exact Hs|]. split; [exact Hflag|exact Hsampler].
Defined.

(** A null shader manager and the material "box1". *)
Lemma null_shader_manager_guards_witness :
  SetShaderColor (F:=R) (flt 1) (flt 1) (flt 1) (flt 1) unattached_scene =
    Ok (tt, unattached_scene) /\
  SetShaderTexture (F:=R) "stone" unattached_scene = Ok (tt, unattached_scene) /\
  SetShaderMaterial leftover "box1" unattached_scene = Undefined NullPointer.
Proof.
  destruct (null_shader_manager_guards (F:=R) unattached_scene unattached_scene_store)
    as (_ & Hcolor & Htexture & _ & Hmaterial & _).
  destruct (unattached_scene_box1 (F:=R)) as [Hne [m Hm]].
  split; [apply Hcolor|]. split; [apply Htexture|].
  exact (Hmaterial leftover "box1" m Hne Hm).
Defined.

(** A tag no material carries: the leftover values reach the store. *)
Lemma SetShaderMaterial_unmatched_still_writes_witness :
  exists w' store',
    SetShaderMaterial leftover "nonexistent" prepared_scene = Ok (tt, w') /\
    store_of w' = Some store' /\
    store' !! "material.shininess" = Some (UFloat 7%R) /\
    calls w' = calls prepared_scene ++ write_calls (material_writes leftover).
Proof.
  assert (m_objectMaterials (this (prepared_scene (F:=R))) <> []) as Hne.
  { intros E. pose proof (prepared_scene_materials (F:=R)) as Hm.
    rewrite E in Hm. discriminate Hm. }
  destruct (SetShaderMaterial_unmatched_still_writes (F:=R) prepared_scene ∅ leftover
              "nonexistent" prepared_scene_store Hne prepared_scene_unmatched)
    as (_ & w' & store' & E & Hs & Hcalls & _ & _ & _ & _ & Hshine).
  exists w', store'. split; [exact E|]. split; [exact Hs|]. split; [exact Hshine|exact Hcalls].
Defined.

(** The seventeenth load. *)
Lemma CreateGLTexture_full_table_overruns_witness :
  CreateGLTexture (F:=R) (decodes_with 3) "seventeenth.jpg" "t16" full_registry =
    Undefined (OutOfBounds 16).
Proof.
  exact (CreateGLTexture_full_table_overruns (F:=R) (decodes_with 3) full_registry
           "seventeenth.jpg" "t16" rgb_image
           (proj1 full_registry_full) (proj2 full_registry_full) eq_refl
           (or_introl eq_refl)).
Defined.

(** An unreadable file and a two-channel image. *)
Lemma CreateGLTexture_failure_keeps_registry_witness :
  (exists w', CreateGLTexture (F:=R) unreadable "missing.jpg" "stone" prepared_scene =
                Ok (false, w') /\ this w' = this prepared_scene) /\
  (exists w', CreateGLTexture (F:=R) (decodes_with 2) "grey.png" "stone" prepared_scene =
                Ok (false, w') /\ this w' = this prepared_scene).
Proof.
  split.
  - destruct (CreateGLTexture_failure_keeps_registry (F:=R) unreadable prepared_scene
                "missing.jpg" "stone" (or_introl eq_refl)) as (w' & E & _ & _ & _ & Hthis).
    exists w'. split; [exact E|exact Hthis].
  - assert (colorChannels two_channel_image <> 3 /\ colorChannels two_channel_image <> 4)
      as [H3 H4] by (split; discriminate).
    destruct (CreateGLTexture_failure_keeps_registry (F:=R) (decodes_with 2) prepared_scene
                "grey.png" "stone"
                (or_intror (ex_intro _ two_channel_image (conj eq_refl (conj H3 H4)))))
      as (w' & E & _ & _ & _ & Hthis).
    exists w'. split; [exact E|exact Hthis].
Defined.

(** The first load into an empty registry, and a tag that sixteen
    loads never mentioned. *)
Lemma load_then_lookup_witness :
  (exists w', CreateGLTexture (F:=R) (decodes_with 3) "stone.jpg" "stone"
                (fresh_scene (Some ∅)) = Ok (true, w') /\
              m_loadedTextures (this w') = 1 /\
              FindTextureSlot "stone" w' = Ok (0, w')) /\
  FindTextureSlot (F:=R) "moss" full_registry = Ok (-1, full_registry).
Proof.
  destruct (load_then_lookup (F:=R) (decodes_with 3) (fresh_scene (Some ∅))
              (fresh_scene_table (Some ∅))) as [Hone Hall].
  split.
  - destruct (CreateGLTexture_succeeds (F:=R) (decodes_with 3) (fresh_scene (Some ∅))
                "stone.jpg" "stone" rgb_image eq_refl (or_introl eq_refl))
      as [w' E]; [split; [reflexivity|reflexivity]|].
    destruct (Hone "stone.jpg" "stone" w' E) as (Hcount & _ & _ & slot & Hfind & _ & _ & _ & Hnew).
    exists w'. split; [exact E|]. split; [exact Hcount|].
    rewrite Hfind, Hnew; [reflexivity|]. intros Hin. inversion Hin.
  - destruct (Hall eq_refl sixteen_requests _ _ sixteen_loads) as (_ & _ & Hnever).
    apply Hnever. vm_compute. intros Hin.
    repeat (apply elem_of_cons in Hin as [Hin|Hin]; [discriminate Hin|]).
    inversion Hin.
Defined.

(** Teardown of the prepared scene, twice. *)
Lemma DestroyGLTextures_releases_nothing_witness :
  exists w' w'',
    DestroyGLTextures (F:=R) prepared_scene = Ok (tt, w') /\
    (forall name, name ∈ [1; 2; 3; 4] -> name ∈ gl_textures w') /\
    length (gl_textures w') = 8%nat /\
    DestroyGLTextures w' = Ok (tt, w'') /\ w'' <> w'.
Proof.
  destruct (DestroyGLTextures_releases_nothing (F:=R) prepared_scene
              (proj1 prepared_scene_table))
    as (w' & names & E & Hlen & Hgl & Hkept & _ & _ & Hagain).
  rewrite (proj2 prepared_scene_table) in Hlen, Hagain.
  destruct (Hagain ltac:(reflexivity)) as (w'' & E' & Hne & _).
  exists w', w''. split; [exact E|].
  split; [rewrite <- (prepared_scene_names (F:=R)); exact Hkept|].
  split; [|split; [exact E'|exact Hne]].
  rewrite Hgl, length_app, prepared_scene_names. cbn.
  apply Nat2Z.inj. rewrite Nat2Z.inj_succ, Nat2Z.inj_succ, Nat2Z.inj_succ, Nat2Z.inj_succ, Hlen.
  reflexivity.
Defined.

(** The prepared scene rendered. *)
Lemma RenderScene_frames_witness :
  exists w' new,
    RenderScene (F:=R) leftover prepared_scene = Ok (tt, w') /\
    calls w' = calls prepared_scene ++ new /\
    draws new = [Plane; Plane; Torus; Box; Box; Box; Box; Prism] /\
    Forall (fun f => frame_as_coded f.1) (frames new).
Proof.
  destruct (RenderScene_frames (F:=R) leftover prepared_scene ∅ prepared_scene_store
              prepared_scene_bound prepared_scene_resolves)
    as (w' & new & E & Hcalls & _ & Hdraws & _ & _ & Hcoded & _).
  exists w', new. split; [exact E|]. split; [exact Hcalls|]. split; [exact Hdraws|exact Hcoded].
Defined.

(** C4, as the claim words it, fails on the prepared scene: the frames
    of [RenderScene] do not each hold a single appearance write, for
    the first frame already holds a color write and a texture write. *)
Lemma RenderScene_not_one_appearance_write :
  ~ (forall w' new,
        RenderScene (F:=R) leftover prepared_scene = Ok (tt, w') ->
        calls w' = calls prepared_scene ++ new ->
        Forall (fun f => frame_as_claimed f.1) (frames new)).
Proof.
  intros Hclaim.
  pose proof (RenderScene_run (F:=R) leftover prepared_scene ∅ prepared_scene_store
                prepared_scene_bound prepared_scene_resolves) as E.
  specialize (Hclaim _ _ E (calls_drawn_all _ _ _)).
  rewrite frames_object_calls in Hclaim.
  apply Forall_map in Hclaim. unfold authored_scene in Hclaim.
  apply Forall_cons in Hclaim as [Hfirst _].
  exact (coded_not_claimed _ (object_frame_as_coded _ _) Hfirst).
Qed.

(** * Further properties of the unit *)

(** ** Lookup of handles and binding to texture units *)

Section TextureUnits.
Context {F : Type} `{Float32 F}.

Lemma first_match_first_entry entries the_tag : forall slot,
  first_match entries the_tag slot =
  match first_entry entries the_tag slot with
  | Some (k, _) => k
  | None => -1
  end.
Proof.
  induction entries as [|e rest IH]; intros slot; [reflexivity|].
  cbn [first_match first_entry]. destruct (String.eqb (tag e) the_tag); [reflexivity|apply IH].
Qed.

Lemma first_entry_lookup entries the_tag : forall slot k e,
  first_entry entries the_tag slot = Some (k, e) ->
  slot <= k < slot + Z.of_nat (length entries) /\
  entries !! Z.to_nat (k - slot) = Some e /\ tag e = the_tag.
Proof.
  induction entries as [|a rest IH]; intros slot k e E; [discriminate|].
  cbn [first_entry] in E. destruct (String.eqb_spec (tag a) the_tag) as [Ht|_].
  - inversion E; subst k e. cbn [length]. split; [lia|].
    replace (Z.to_nat (slot - slot)) with 0%nat by lia. split; [reflexivity|exact Ht].
  - destruct (IH _ _ _ E) as (Hr & He & Ht). cbn [length]. split; [lia|].
    replace (Z.to_nat (k - slot)) with (S (Z.to_nat (k - (slot + 1)))) by lia.
    split; [exact He|exact Ht].
Qed.

Lemma first_entry_none entries the_tag : forall slot,
  first_entry entries the_tag slot = None -> the_tag ∉ map tag entries.
Proof.
  induction entries as [|e rest IH]; intros slot E Hin; [inversion Hin|].
  cbn [first_entry] in E. rewrite map_cons in Hin.
  destruct (String.eqb_spec (tag e) the_tag) as [Ht|Hne]; [discriminate|].
  apply elem_of_cons in Hin as [Hin|Hin]; [congruence|exact (IH _ E Hin)].
Qed.

(** Both lookup loops scan the same entries and stop at the same one. *)
Lemma find_texture_first_entry (w : World F) the_tag found :
  forall remaining index,
    0 <= index ->
    (Z.to_nat index + remaining <= length (m_textureIDs (this w)))%nat ->
    find_texture remaining the_tag index found w =
    Ok (match first_entry (take remaining (drop (Z.to_nat index) (m_textureIDs (this w))))
                the_tag index with
        | Some (k, e) => found k e
        | None => -1
        end, w).
Proof.
  induction remaining as [|r IH]; intros index Hi Hlen; [reflexivity|].
  destruct (lookup_lt_is_Some_2 (m_textureIDs (this w)) (Z.to_nat index)) as [e He]; [lia|].
  cbn [find_texture].
  rewrite (bind_Ok _ _ _ _ _ (textureIDs_at_in w index e Hi He)).
  rewrite (drop_S _ _ _ He). cbn [take first_entry].
  destruct (String.eqb (tag e) the_tag); [reflexivity|].
  rewrite IH by lia.
  replace (Z.to_nat (index + 1)) with (S (Z.to_nat index)) by lia.
  reflexivity.
Qed.

(** A scan that runs past the end of the table without meeting the
    tag. *)
Lemma find_texture_overrun (w : World F) the_tag found :
  forall remaining index,
    0 <= index <= Z.of_nat (length (m_textureIDs (this w))) ->
    (length (m_textureIDs (this w)) < Z.to_nat index + remaining)%nat ->
    the_tag ∉ map tag (drop (Z.to_nat index) (m_textureIDs (this w))) ->
    find_texture remaining the_tag index found w =
    Undefined (OutOfBounds (Z.of_nat (length (m_textureIDs (this w))))).
Proof.
  induction remaining as [|r IH]; intros index Hi Hlen Hnot; [lia|].
  cbn [find_texture].
  destruct (decide (index = Z.of_nat (length (m_textureIDs (this w))))) as [->|Hne].
  - apply bind_Undefined, textureIDs_at_out. lia.
  - destruct (lookup_lt_is_Some_2 (m_textureIDs (this w)) (Z.to_nat index)) as [e He]; [lia|].
    rewrite (bind_Ok _ _ _ _ _ (textureIDs_at_in w index e ltac:(lia) He)).
    rewrite (drop_S _ _ _ He), map_cons in Hnot.
    destruct (String.eqb_spec (tag e) the_tag) as [Ht|_].
    + exfalso. apply Hnot. rewrite Ht. left.
    + apply IH; [lia|lia|].
      replace (Z.to_nat (index + 1)) with (S (Z.to_nat index)) by lia.
      intros Hin. apply Hnot. now right.
Qed.

Lemma int_of_GLuint_small (handle : Z) :
  0 <= handle < 2147483648 -> int_of_GLuint handle = handle.
Proof. intros Hh. unfold int_of_GLuint. rewrite Z.mod_small by lia. lia. Qed.

Lemma int_of_GLuint_large (handle : Z) :
  2147483648 <= handle < 4294967296 -> int_of_GLuint handle = handle - 4294967296.
Proof.
  intros Hh. unfold int_of_GLuint.
  replace (handle + 2147483648) with (handle - 2147483648 + 1 * 4294967296) by lia.
  rewrite Z.mod_add by lia. rewrite Z.mod_small by lia. lia.
Qed.

Lemma lookups_agree (w : World F) (the_tag : string) :
  m_loadedTextures (this w) <= Z.of_nat (length (m_textureIDs (this w))) ->
  exists slot id,
    FindTextureSlot the_tag w = Ok (slot, w) /\
    FindTextureID the_tag w = Ok (id, w) /\
    (the_tag ∉ map tag (occupied (this w)) -> slot = -1 /\ id = -1) /\
    (the_tag ∈ map tag (occupied (this w)) ->
     0 <= slot < m_loadedTextures (this w) /\
     exists e, occupied (this w) !! Z.to_nat slot = Some e /\ tag e = the_tag /\
               id = int_of_GLuint (ID e)).
Proof.
  intros Hn.
  assert (forall found, (fun f => find_texture (Z.to_nat (m_loadedTextures (this w)))
                           the_tag 0 f w) found =
                        Ok (match first_entry (occupied (this w)) the_tag 0 with
                            | Some (k, e) => found k e
                            | None => -1
                            end, w)) as Hscan.
  { intros found. cbn beta. rewrite find_texture_first_entry by (cbn; lia). reflexivity. }
  unfold FindTextureSlot, FindTextureID.
  rewrite !(bind_Ok _ _ w (m_loadedTextures (this w)) w) by reflexivity.
  rewrite (Hscan (fun index _ => index)), (Hscan (fun _ e => int_of_GLuint (ID e))).
  destruct (first_entry (occupied (this w)) the_tag 0) as [[k e]|] eqn:Efirst.
  - exists k, (int_of_GLuint (ID e)). split; [reflexivity|]. split; [reflexivity|].
    destruct (first_entry_lookup _ _ _ _ _ Efirst) as (Hr & He & Ht).
    rewrite Z.sub_0_r in He. split.
    + intros Hnot. exfalso. apply Hnot. apply list_elem_of_fmap. exists e.
      split; [now rewrite Ht|]. eapply list_elem_of_lookup_2, He.
    + intros _. split; [|eauto].
      assert (length (occupied (this w)) <= Z.to_nat (m_loadedTextures (this w)))%nat
        by (unfold occupied; rewrite length_take; lia).
      lia.
  - exists (-1), (-1). split; [reflexivity|]. split; [reflexivity|].
    split; [auto|]. intros Hin. exfalso.
    exact (first_entry_none _ _ _ Efirst Hin).
Qed.

(** X1.  With the counter inside the table, [FindTextureID] and
    [FindTextureSlot] agree up to the conversion of the handle to
    [int]: both leave the object alone, both return -1 when no
    occupied slot holds the tag, and otherwise [FindTextureID]
    returns the handle stored in the slot that [FindTextureSlot]
    returns, converted from [GLuint] to [int].  For a handle below
    2^31 that is the handle itself; a 32-bit handle from 2^31 on
    comes back negative, and the handle 4294967295 comes back as -1,
    the value that stands for a tag not found. *)
Theorem FindTextureID_agrees_with_slot (w : World F) (the_tag : string) :
  m_loadedTextures (this w) <= Z.of_nat (length (m_textureIDs (this w))) ->
  exists slot id,
    FindTextureSlot the_tag w = Ok (slot, w) /\
    FindTextureID the_tag w = Ok (id, w) /\
    (the_tag ∉ map tag (occupied (this w)) -> slot = -1 /\ id = -1) /\
    (the_tag ∈ map tag (occupied (this w)) ->
     0 <= slot < m_loadedTextures (this w) /\
     exists e, occupied (this w) !! Z.to_nat slot = Some e /\ tag e = the_tag /\
               id = int_of_GLuint (ID e) /\
               (0 <= ID e < 2147483648 -> id = ID e) /\
               (2147483648 <= ID e < 4294967296 -> id = ID e - 4294967296 /\ id < 0) /\
               (ID e = 4294967295 -> id = -1)).
Proof.
  intros Hn.
  destruct (lookups_agree w the_tag Hn) as (slot & id & Es & Ei & Hnone & Hsome).
  exists slot, id. split; [exact Es|]. split; [exact Ei|]. split; [exact Hnone|].
  intros Hin. destruct (Hsome Hin) as (Hr & e & He & Ht & Hid).
  split; [exact Hr|]. exists e. split; [exact He|]. split; [exact Ht|].
  split; [exact Hid|]. subst id. split; [|split].
  - apply int_of_GLuint_small.
  - intros Hh. rewrite int_of_GLuint_large by exact Hh. lia.
  - intros ->. reflexivity.
Qed.

(** *** Binding *)

Lemma bind_slot_step (s : SceneManager F) gl (cs : list (call F)) i e :
  0 <= i -> m_textureIDs s !! Z.to_nat i = Some e ->
  (emit (glActiveTexture i);; e ← textureIDs_at i; emit (glBindTexture (ID e)))
    {| this := s; gl_textures := gl; calls := cs |} =
  Ok (tt, {| this := s; gl_textures := gl;
             calls := (cs ++ [glActiveTexture i]) ++ [glBindTexture (ID e)] |}).
Proof.
  intros Hi He. assert ((0 <=? i) = true) as Hle by (apply Z.leb_le; lia).
  unfold mbind, M_bind, emit, textureIDs_at. cbn. rewrite Hle, He. reflexivity.
Qed.

Lemma bind_slot_out (s : SceneManager F) gl (cs : list (call F)) i :
  Z.of_nat (length (m_textureIDs s)) <= i ->
  (emit (glActiveTexture i);; e ← textureIDs_at i; emit (glBindTexture (ID e)))
    {| this := s; gl_textures := gl; calls := cs |} = Undefined (OutOfBounds i).
Proof.
  intros Hi. unfold mbind, M_bind, emit, textureIDs_at. cbn.
  destruct (Z.leb_spec 0 i); [|reflexivity].
  rewrite (proj2 (lookup_ge_None _ _)) by lia. reflexivity.
Qed.

Lemma bind_loop (w : World F) : forall remaining i (cs : list (call F)),
  0 <= i ->
  (Z.to_nat i + remaining <= length (m_textureIDs (this w)))%nat ->
  for_each_loaded remaining i
    (fun i => emit (glActiveTexture i);; e ← textureIDs_at i; emit (glBindTexture (ID e)))
    {| this := this w; gl_textures := gl_textures w; calls := cs |} =
  Ok (tt, {| this := this w; gl_textures := gl_textures w;
             calls := cs ++ bind_calls (take remaining (drop (Z.to_nat i)
                                                          (m_textureIDs (this w)))) i |}).
Proof.
  induction remaining as [|r IH]; intros i cs Hi Hlen.
  - cbn. now rewrite app_nil_r.
  - destruct (lookup_lt_is_Some_2 (m_textureIDs (this w)) (Z.to_nat i)) as [e He]; [lia|].
    cbn [for_each_loaded].
    rewrite (bind_Ok _ _ _ _ _ (bind_slot_step (this w) (gl_textures w) cs i e Hi He)).
    rewrite IH by lia.
    rewrite (drop_S _ _ _ He). cbn [take bind_calls].
    replace (Z.to_nat (i + 1)) with (S (Z.to_nat i)) by lia.
    rewrite <- !app_assoc. reflexivity.
Qed.

Lemma bind_overrun (w : World F) : forall remaining i (cs : list (call F)),
  0 <= i <= Z.of_nat (length (m_textureIDs (this w))) ->
  (length (m_textureIDs (this w)) < Z.to_nat i + remaining)%nat ->
  for_each_loaded remaining i
    (fun i => emit (glActiveTexture i);; e ← textureIDs_at i; emit (glBindTexture (ID e)))
    {| this := this w; gl_textures := gl_textures w; calls := cs |} =
  Undefined (OutOfBounds (Z.of_nat (length (m_textureIDs (this w))))).
Proof.
  induction remaining as [|r IH]; intros i cs Hi Hlen; [lia|].
  cbn [for_each_loaded].
  destruct (decide (i = Z.of_nat (length (m_textureIDs (this w))))) as [->|Hne].
  - apply bind_Undefined, bind_slot_out. lia.
  - destruct (lookup_lt_is_Some_2 (m_textureIDs (this w)) (Z.to_nat i)) as [e He]; [lia|].
    rewrite (bind_Ok _ _ _ _ _
               (bind_slot_step (this w) (gl_textures w) cs i e ltac:(lia) He)).
    apply IH; lia.
Qed.

Lemma BindGLTextures_run (w : World F) :
  m_loadedTextures (this w) <= Z.of_nat (length (m_textureIDs (this w))) ->
  BindGLTextures w =
  Ok (tt, {| this := this w; gl_textures := gl_textures w;
             calls := calls w ++ bind_calls (occupied (this w)) 0 |}).
Proof.
  intros Hn. unfold BindGLTextures.
  rewrite (bind_Ok _ _ w (m_loadedTextures (this w)) w) by reflexivity.
  destruct w as [s gl cs]. cbn [this gl_textures calls] in *.
  exact (bind_loop {| this := s; gl_textures := gl; calls := cs |}
           (Z.to_nat (m_loadedTextures s)) 0 cs ltac:(lia) ltac:(cbn; lia)).
Qed.

Lemma bind_calls_length (entries : list TEXTURE_INFO) : forall unit,
  length (@bind_calls F entries unit) = (2 * length entries)%nat.
Proof.
  induction entries as [|e rest IH]; intros unit; [reflexivity|].
  cbn [bind_calls length]. rewrite IH. lia.
Qed.

Lemma bind_calls_lookup (entries : list TEXTURE_INFO) : forall unit (k : nat) e,
  entries !! k = Some e ->
  @bind_calls F entries unit !! (2 * k)%nat = Some (glActiveTexture (unit + Z.of_nat k)) /\
  @bind_calls F entries unit !! S (2 * k) = Some (glBindTexture (ID e)).
Proof.
  induction entries as [|a rest IH]; intros unit k e He; [now rewrite lookup_nil in He|].
  destruct k as [|k]; cbn in He.
  - inversion He; subst a. cbn. rewrite Z.add_0_r. split; reflexivity.
  - destruct (IH (unit + 1) k e He) as [H1 H2].
    replace (2 * S k)%nat with (S (S (2 * k))) by lia. cbn [bind_calls lookup list_lookup].
    replace (unit + Z.of_nat (S k)) with (unit + 1 + Z.of_nat k) by lia.
    split; assumption.
Qed.

(** X2.  With the counter inside the table, [BindGLTextures] changes
    nothing in the object and generates no texture name; its calls are,
    for each occupied slot in order, the selection of the texture unit
    with the slot's number followed by the binding of the slot's
    handle: two calls per occupied slot, none for an empty registry. *)
Theorem BindGLTextures_binds_each_slot (w : World F) :
  m_loadedTextures (this w) <= Z.of_nat (length (m_textureIDs (this w))) ->
  exists w',
    BindGLTextures w = Ok (tt, w') /\
    this w' = this w /\
    gl_textures w' = gl_textures w /\
    calls w' = calls w ++ bind_calls (occupied (this w)) 0 /\
    length (calls w') = (length (calls w) + 2 * length (occupied (this w)))%nat /\
    (forall (k : nat) e, occupied (this w) !! k = Some e ->
       @bind_calls F (occupied (this w)) 0 !! (2 * k)%nat =
         Some (glActiveTexture (Z.of_nat k)) /\
       @bind_calls F (occupied (this w)) 0 !! S (2 * k) = Some (glBindTexture (ID e))).
Proof.
  intros Hn. eexists. split; [exact (BindGLTextures_run w Hn)|].
  cbn [this gl_textures calls]. do 3 (split; [reflexivity|]).
  split; [rewrite length_app, bind_calls_length; reflexivity|].
  intros k e He. exact (bind_calls_lookup (occupied (this w)) 0 k e He).
Qed.

(** X3.  The sampler index and the texture unit coincide: for a tag
    that [FindTextureSlot] finds in slot k, [BindGLTextures] selects
    texture unit k and binds to it the handle of which
    [FindTextureID] returns the conversion to [int] (the handle
    itself when it is below 2^31). *)
Theorem sampler_index_is_texture_unit (w : World F) (the_tag : string) (slot id : Z) :
  m_loadedTextures (this w) <= Z.of_nat (length (m_textureIDs (this w))) ->
  FindTextureSlot the_tag w = Ok (slot, w) ->
  FindTextureID the_tag w = Ok (id, w) ->
  slot <> -1 ->
  exists w' new handle,
    BindGLTextures w = Ok (tt, w') /\
    calls w' = calls w ++ new /\
    new !! Z.to_nat (2 * slot) = Some (glActiveTexture slot) /\
    new !! Z.to_nat (2 * slot + 1) = Some (glBindTexture handle) /\
    id = int_of_GLuint handle /\
    (0 <= handle < 2147483648 -> id = handle).
Proof.
  intros Hn Hslot Hid Hfound.
  destruct (lookups_agree w the_tag Hn) as (slot' & id' & Es & Ei & Hnone & Hsome).
  rewrite Es in Hslot. rewrite Ei in Hid. inversion Hslot; inversion Hid; subst slot' id'.
  destruct (decide (the_tag ∈ map tag (occupied (this w)))) as [Hin|Hnot];
    [|destruct (Hnone Hnot); contradiction].
  destruct (Hsome Hin) as (Hr & e & He & _ & Hide).
  destruct (bind_calls_lookup (occupied (this w)) 0 (Z.to_nat slot) e He) as [H1 H2].
  eexists _, (bind_calls (occupied (this w)) 0), (ID e).
  split; [exact (BindGLTextures_run w Hn)|]. split; [reflexivity|].
  replace (Z.to_nat (2 * slot)) with (2 * Z.to_nat slot)%nat by lia.
  replace (Z.to_nat (2 * slot + 1)) with (S (2 * Z.to_nat slot)) by lia.
  rewrite H1, H2. split; [f_equal; f_equal; lia|]. split; [reflexivity|].
  split; [exact Hide|]. intros Hh. rewrite Hide. now apply int_of_GLuint_small.
Qed.

(** X4.  The three loops trust the counter.  When [m_loadedTextures]
    is larger than the table, [BindGLTextures] reads past the last
    slot, and so does a lookup of a tag that no slot of the table
    holds, instead of returning -1. *)
Theorem counter_beyond_table_overruns (w : World F) (the_tag : string) :
  Z.of_nat (length (m_textureIDs (this w))) < m_loadedTextures (this w) ->
  BindGLTextures w = Undefined (OutOfBounds (Z.of_nat (length (m_textureIDs (this w))))) /\
  (the_tag ∉ map tag (m_textureIDs (this w)) ->
   FindTextureSlot the_tag w =
     Undefined (OutOfBounds (Z.of_nat (length (m_textureIDs (this w))))) /\
   FindTextureID the_tag w =
     Undefined (OutOfBounds (Z.of_nat (length (m_textureIDs (this w)))))).
Proof.
  intros Hn. split.
  - unfold BindGLTextures.
    rewrite (bind_Ok _ _ w (m_loadedTextures (this w)) w) by reflexivity.
    destruct w as [s gl cs]. cbn [this gl_textures calls] in *.
    exact (bind_overrun {| this := s; gl_textures := gl; calls := cs |}
             (Z.to_nat (m_loadedTextures s)) 0 cs ltac:(lia) ltac:(cbn; lia)).
  - intros Hnot. unfold FindTextureSlot, FindTextureID.
    rewrite !(bind_Ok _ _ w (m_loadedTextures (this w)) w) by reflexivity.
    split; apply find_texture_overrun; try lia; exact Hnot.
Qed.
End TextureUnits.

(** ** Loading: the calls made, the names generated, the slots filled *)

Section Loading.
Context {F : Type} `{Float32 F}.
Variable stbi_load : string -> option Image.

Lemma fresh_name_above (used : list Z) : forall x, x ∈ used -> x < fresh_name used.
Proof.
  unfold fresh_name. induction used as [|a rest IH]; intros x Hin; [inversion Hin|].
  cbn [foldr]. apply elem_of_cons in Hin as [->|Hin]; [lia|].
  specialize (IH x Hin). lia.
Qed.

Lemma fresh_name_positive (used : list Z) : 0 < fresh_name used.
Proof.
  unfold fresh_name. assert (0 <= foldr Z.max 0 used); [|lia].
  induction used as [|a rest IH]; cbn [foldr]; lia.
Qed.

Lemma CreateGLTexture_unsupported_run (w : World F) filename the_tag image :
  stbi_load filename = Some image -> ~ supported image ->
  CreateGLTexture stbi_load filename the_tag w =
  Ok (false,
      {| this := this w;
         gl_textures := gl_textures w ++ [fresh_name (gl_textures w)];
         calls := calls w ++ opening_calls filename image (fresh_name (gl_textures w)) ++
                  [cout (Not_implemented_to_handle_image (colorChannels image))] |}).
Proof.
  intros E Hno. unfold CreateGLTexture. rewrite E.
  unfold mbind, M_bind, emit, gen_texture. cbn.
  rewrite upload_image_unsupported by exact Hno. cbn.
  rewrite <- !app_assoc. reflexivity.
Qed.

Lemma upload_image_run (image : Image) (w : World F) :
  supported image ->
  upload_image image w =
  Ok (true, {| this := this w; gl_textures := gl_textures w;
               calls := calls w ++
                 [ if colorChannels image =? 3
                   then glTexImage2D GL_RGB8 (width image) (height image) GL_RGB
                   else glTexImage2D GL_RGBA8 (width image) (height image) GL_RGBA ] |}).
Proof.
  intros [E|E]; unfold upload_image; rewrite E; reflexivity.
Qed.

Lemma CreateGLTexture_supported_run (w : World F) filename the_tag image :
  stbi_load filename = Some image -> supported image ->
  0 <= m_loadedTextures (this w) < Z.of_nat (length (m_textureIDs (this w))) ->
  CreateGLTexture stbi_load filename the_tag w =
  Ok (true,
      {| this := {| m_pShaderManager := m_pShaderManager (this w);
                    m_loadedTextures := m_loadedTextures (this w) + 1;
                    m_textureIDs :=
                      <[Z.to_nat (m_loadedTextures (this w)) :=
                          {| ID := fresh_name (gl_textures w); tag := the_tag |}]>
                        (m_textureIDs (this w));
                    m_objectMaterials := m_objectMaterials (this w) |};
         gl_textures := gl_textures w ++ [fresh_name (gl_textures w)];
         calls := calls w ++ opening_calls filename image (fresh_name (gl_textures w)) ++
                  [ (if colorChannels image =? 3
                     then glTexImage2D GL_RGB8 (width image) (height image) GL_RGB
                     else glTexImage2D GL_RGBA8 (width image) (height image) GL_RGBA);
                    glGenerateMipmap; stbi_image_free; glBindTexture 0 ] |}).
Proof.
  intros E Hyes Hn. unfold CreateGLTexture. rewrite E.
  unfold mbind, M_bind, emit, gen_texture. cbn -[register_texture upload_image].
  rewrite upload_image_run by exact Hyes. cbn -[register_texture].
  rewrite register_texture_in by exact Hn. cbn.
  rewrite <- !app_assoc. reflexivity.
Qed.

Lemma decodes_true (request : string * string) :
  decodes stbi_load request = true ->
  exists image, stbi_load request.1 = Some image /\ supported image.
Proof.
  unfold decodes, supported. destruct (stbi_load request.1) as [image|]; [|discriminate].
  intros Hb. exists image. split; [reflexivity|].
  apply orb_true_iff in Hb as [Hb|Hb]; apply Z.eqb_eq in Hb; auto.
Qed.

Lemma decodes_false (request : string * string) :
  decodes stbi_load request = false ->
  stbi_load request.1 = None \/
  exists image, stbi_load request.1 = Some image /\ ~ supported image.
Proof.
  unfold decodes, supported. destruct (stbi_load request.1) as [image|]; [|now left].
  intros Hb. right. exists image. split; [reflexivity|].
  apply orb_false_iff in Hb as [H3 H4].
  apply Z.eqb_neq in H3. apply Z.eqb_neq in H4. tauto.
Qed.

(** One load, by what the decoder delivers. *)
Lemma CreateGLTexture_by_decodes (w : World F) filename the_tag :
  0 <= m_loadedTextures (this w) < Z.of_nat (length (m_textureIDs (this w))) ->
  exists w', CreateGLTexture stbi_load filename the_tag w =
               Ok (decodes stbi_load (filename, the_tag), w').
Proof.
  intros Hn. destruct (decodes stbi_load (filename, the_tag)) eqn:Ed.
  - destruct (decodes_true _ Ed) as (image & E & Hyes).
    exact (CreateGLTexture_succeeds stbi_load w filename the_tag image E Hyes Hn).
  - destruct (decodes_false _ Ed) as [E|(image & E & Hno)].
    + destruct (CreateGLTexture_unreadable stbi_load w filename the_tag E) as (w' & E' & _).
      eauto.
    + rewrite (CreateGLTexture_unsupported_run w filename the_tag image E Hno). eauto.
Qed.

Lemma load_all_run (requests : list (string * string)) : forall w : World F,
  0 <= m_loadedTextures (this w) ->
  m_loadedTextures (this w) + Z.of_nat (length requests)
    <= Z.of_nat (length (m_textureIDs (this w))) ->
  exists w', load_all stbi_load requests w = Ok (map (decodes stbi_load) requests, w').
Proof.
  induction requests as [|[f t] rest IH]; intros w H0 Hroom; [eexists; reflexivity|].
  cbn [length] in Hroom.
  destruct (CreateGLTexture_by_decodes w f t ltac:(lia)) as [w1 E1].
  assert (0 <= m_loadedTextures (this w1) /\
          m_loadedTextures (this w1) <= m_loadedTextures (this w) + 1 /\
          length (m_textureIDs (this w1)) = length (m_textureIDs (this w))) as (Ha & Hb & Hc).
  { destruct (CreateGLTexture_cases stbi_load w w1 f t _ E1)
      as [(_ & Hthis & _)|(_ & _ & _ & Hthis)]; rewrite Hthis; cbn;
      rewrite ?length_insert; lia. }
  destruct (IH w1 Ha ltac:(lia)) as [w' E'].
  exists w'. cbn [load_all map].
  rewrite (bind_Ok _ _ _ _ _ E1), (bind_Ok _ _ _ _ _ E'). reflexivity.
Qed.

Lemma CreateGLTexture_keeps (w w' : World F) filename the_tag b :
  CreateGLTexture stbi_load filename the_tag w = Ok (b, w') ->
  m_pShaderManager (this w') = m_pShaderManager (this w) /\
  m_objectMaterials (this w') = m_objectMaterials (this w).
Proof.
  intros E. destruct (CreateGLTexture_cases stbi_load w w' filename the_tag b E)
    as [(_ & Hthis & _)|(_ & _ & _ & Hthis)]; rewrite Hthis; split; reflexivity.
Qed.

Lemma load_all_keeps (requests : list (string * string)) : forall (w w' : World F) results,
  load_all stbi_load requests w = Ok (results, w') ->
  m_pShaderManager (this w') = m_pShaderManager (this w) /\
  m_objectMaterials (this w') = m_objectMaterials (this w).
Proof.
  induction requests as [|[f t] rest IH]; intros w w' results E.
  - cbn in E. inversion E; subst. split; reflexivity.
  - cbn [load_all] in E. unfold mbind, M_bind in E.
    destruct (CreateGLTexture stbi_load f t w) as [[b w1]|u] eqn:E1; [|discriminate].
    destruct (load_all stbi_load rest w1) as [[bs w2]|u] eqn:E2; [|discriminate].
    cbn in E. inversion E; subst.
    destruct (CreateGLTexture_keeps w w1 f t b E1) as [Hp Hm].
    destruct (IH w1 w' bs E2) as [Hp' Hm']. split; congruence.
Qed.

(** X5.  While free slots remain, loading cannot go wrong: a run of
    load calls that fits into the table completes, each call returns
    true exactly when its file decodes with 3 or 4 channels, the
    counter grows by the number of such calls and stays inside the
    table, and the new slots carry the tags of those calls in call
    order. *)
Theorem load_all_completes (w : World F) (requests : list (string * string)) :
  0 <= m_loadedTextures (this w) ->
  m_loadedTextures (this w) + Z.of_nat (length requests)
    <= Z.of_nat (length (m_textureIDs (this w))) ->
  exists w',
    load_all stbi_load requests w = Ok (map (decodes stbi_load) requests, w') /\
    m_loadedTextures (this w') =
      m_loadedTextures (this w) +
      Z.of_nat (length (List.filter (decodes stbi_load) requests)) /\
    m_loadedTextures (this w') <= Z.of_nat (length (m_textureIDs (this w'))) /\
    map tag (occupied (this w')) =
      map tag (occupied (this w)) ++ map snd (List.filter (decodes stbi_load) requests).
Proof.
  intros H0 Hroom.
  destruct (load_all_run requests w H0 Hroom) as [w' E].
  destruct (load_all_occupied stbi_load requests w w' _ ltac:(lia) E)
    as (Htags & Hcount & _ & Hrange).
  assert (forall rs : list (string * string),
    loaded_tags rs (map (decodes stbi_load) rs) = map snd (List.filter (decodes stbi_load) rs))
    as Hloaded.
  { induction rs as [|[f t] rs IHrs]; [reflexivity|].
    cbn [map loaded_tags List.filter].
    destruct (decodes stbi_load (f, t)); cbn [map snd]; now rewrite IHrs. }
  rewrite Hloaded in Htags, Hcount. rewrite length_map in Hcount.
  exists w'. split; [exact E|]. split; [exact Hcount|]. split; [lia|exact Htags].
Qed.

(** X6.  A readable image with neither 3 nor 4 channels is rejected
    only after a texture name has been generated and bound: the call
    returns false and leaves the registry alone, but OpenGL holds one
    name more than before, which no slot records; the image is not
    freed and the texture stays bound. *)
Theorem CreateGLTexture_unsupported_leaks (w : World F) (filename the_tag : string)
    (image : Image) :
  stbi_load filename = Some image ->
  ~ supported image ->
  exists w' name new,
    CreateGLTexture stbi_load filename the_tag w = Ok (false, w') /\
    this w' = this w /\
    gl_textures w' = gl_textures w ++ [name] /\
    (name ∉ gl_textures w) /\
    calls w' = calls w ++ new /\
    (glGenTextures name ∈ new) /\
    (glBindTexture name ∈ new) /\
    (stbi_image_free ∉ new) /\
    (glBindTexture 0 ∉ new).
Proof.
  intros E Hno.
  exists {| this := this w;
            gl_textures := gl_textures w ++ [fresh_name (gl_textures w)];
            calls := calls w ++ opening_calls filename image (fresh_name (gl_textures w)) ++
                     [cout (Not_implemented_to_handle_image (colorChannels image))] |},
         (fresh_name (gl_textures w)),
         (opening_calls filename image (fresh_name (gl_textures w)) ++
          [cout (Not_implemented_to_handle_image (colorChannels image))]).
  pose proof (fresh_name_positive (gl_textures w)) as Hpos.
  split; [exact (CreateGLTexture_unsupported_run w filename the_tag image E Hno)|].
  cbn [this gl_textures calls]. split; [reflexivity|]. split; [reflexivity|].
  split; [intros Hin; apply fresh_name_above in Hin; lia|].
  split; [reflexivity|]. unfold opening_calls. cbn [app].
  split; [do 2 right; left|]. split; [do 3 right; left|].
  split; intros Hin;
    repeat (apply elem_of_cons in Hin as [Hin|Hin]; [try discriminate Hin|]);
    try (inversion Hin; fail).
  injection Hin as Hin. lia.
Qed.

(** X7.  A successful load makes its calls in a fixed order: the name
    is generated and bound, wrapping is set to repeat and filtering to
    linear, the pixels are uploaded as RGB for 3 channels and as RGBA
    for 4, mipmaps are generated, the image is freed and the texture
    is unbound; the generated name is new, and it is the handle
    stored, with the tag, in the slot numbered by the old counter. *)
Theorem CreateGLTexture_success_protocol (w : World F) (filename the_tag : string)
    (image : Image) :
  stbi_load filename = Some image ->
  supported image ->
  0 <= m_loadedTextures (this w) < Z.of_nat (length (m_textureIDs (this w))) ->
  exists w' name upload,
    CreateGLTexture stbi_load filename the_tag w = Ok (true, w') /\
    calls w' = calls w ++ opening_calls filename image name ++
               [upload; glGenerateMipmap; stbi_image_free; glBindTexture 0] /\
    (colorChannels image = 3 ->
     upload = glTexImage2D GL_RGB8 (width image) (height image) GL_RGB) /\
    (colorChannels image = 4 ->
     upload = glTexImage2D GL_RGBA8 (width image) (height image) GL_RGBA) /\
    gl_textures w' = gl_textures w ++ [name] /\
    (name ∉ gl_textures w) /\
    m_textureIDs (this w') !! Z.to_nat (m_loadedTextures (this w)) =
      Some {| ID := name; tag := the_tag |} /\
    m_pShaderManager (this w') = m_pShaderManager (this w) /\
    m_objectMaterials (this w') = m_objectMaterials (this w).
Proof.
  intros E Hyes Hn.
  eexists _, (fresh_name (gl_textures w)), _.
  split; [exact (CreateGLTexture_supported_run w filename the_tag image E Hyes Hn)|].
  cbn [this gl_textures calls m_textureIDs m_pShaderManager m_objectMaterials].
  split; [reflexivity|].
  split; [intros ->; reflexivity|]. split; [intros ->; reflexivity|].
  split; [reflexivity|].
  split; [intros Hin; apply fresh_name_above in Hin; lia|].
  split; [apply list_lookup_insert_eq; lia|]. split; reflexivity.
Qed.

(** *** The handles in the registry *)

Lemma handles_ok_append (w w' : World F) the_tag :
  handles_ok w ->
  occupied (this w') =
    occupied (this w) ++ [{| ID := fresh_name (gl_textures w); tag := the_tag |}] ->
  gl_textures w' = gl_textures w ++ [fresh_name (gl_textures w)] ->
  handles_ok w'.
Proof.
  intros [Hnodup Hall] Hocc Hgl. unfold handles_ok.
  rewrite Hocc, Hgl, map_app. cbn [map ID]. split.
  - apply NoDup_app. split; [exact Hnodup|]. split; [|apply NoDup_singleton].
    intros x Hx Hnew. apply list_elem_of_singleton in Hnew. subst x.
    rewrite Forall_forall in Hall. destruct (Hall _ Hx) as [_ Hin].
    apply fresh_name_above in Hin. lia.
  - apply Forall_app. split.
    + eapply Forall_impl; [exact Hall|]. intros x [Hp Hin]. split; [exact Hp|].
      apply elem_of_app. now left.
    + apply Forall_singleton. split; [apply fresh_name_positive|].
      apply elem_of_app. right. left.
Qed.

Lemma handles_ok_same (w w' : World F) :
  handles_ok w -> this w' = this w ->
  (forall x, x ∈ gl_textures w -> x ∈ gl_textures w') ->
  handles_ok w'.
Proof.
  intros [Hnodup Hall] Hthis Hgl. unfold handles_ok. rewrite Hthis.
  split; [exact Hnodup|]. eapply Forall_impl; [exact Hall|].
  intros x [Hp Hin]. auto.
Qed.

Lemma CreateGLTexture_handles (w w' : World F) filename the_tag b :
  handles_ok w ->
  CreateGLTexture stbi_load filename the_tag w = Ok (b, w') ->
  handles_ok w'.
Proof.
  intros Hok E.
  destruct (CreateGLTexture_cases stbi_load w w' filename the_tag b E)
    as [(-> & Hthis & [Hnone|(image & Hsome & Hno)])|(-> & (image & Hsome & Hyes) & Hn & _)].
  - destruct (CreateGLTexture_unreadable stbi_load w filename the_tag Hnone)
      as (w1 & E1 & _ & Hgl).
    rewrite E1 in E. inversion E; subst w1.
    apply (handles_ok_same w w' Hok Hthis). intros x. now rewrite Hgl.
  - pose proof (CreateGLTexture_unsupported_run w filename the_tag image Hsome Hno) as E1.
    rewrite E1 in E. inversion E; subst w'.
    eapply handles_ok_same; [exact Hok|reflexivity|].
    intros x Hx. cbn. apply elem_of_app. now left.
  - destruct (occupied_after_load stbi_load w w' filename the_tag E) as (_ & _ & _ & Hocc).
    pose proof (CreateGLTexture_supported_run w filename the_tag image Hsome Hyes Hn) as E1.
    rewrite E1 in E. injection E as Hw.
    eapply handles_ok_append; [exact Hok|exact Hocc|].
    rewrite <- Hw. reflexivity.
Qed.

Lemma load_all_handles (requests : list (string * string)) : forall (w w' : World F) results,
  handles_ok w ->
  load_all stbi_load requests w = Ok (results, w') ->
  handles_ok w'.
Proof.
  induction requests as [|[f t] rest IH]; intros w w' results Hok E.
  - cbn in E. now inversion E; subst.
  - cbn [load_all] in E. unfold mbind, M_bind in E.
    destruct (CreateGLTexture stbi_load f t w) as [[b w1]|u] eqn:E1; [|discriminate].
    destruct (load_all stbi_load rest w1) as [[bs w2]|u] eqn:E2; [|discriminate].
    cbn in E. inversion E; subst.
    exact (IH w1 w' bs (CreateGLTexture_handles w w1 f t b Hok E1) E2).
Qed.

(** X8.  Loading keeps the handles sound.  If the occupied slots hold
    pairwise distinct, positive texture names that OpenGL generated,
    as is the case for an empty registry, they still do after any run
    of load calls that completes, whatever the calls returned; two
    tags found in different slots therefore never share a handle. *)
Theorem load_all_keeps_handles_distinct (w w' : World F)
    (requests : list (string * string)) (results : list bool) :
  handles_ok w ->
  load_all stbi_load requests w = Ok (results, w') ->
  handles_ok w' /\
  forall (i j : nat) a b,
    occupied (this w') !! i = Some a -> occupied (this w') !! j = Some b ->
    i <> j -> ID a <> ID b /\ ID a <> 0.
Proof.
  intros Hok E. pose proof (load_all_handles requests w w' results Hok E) as Hok'.
  split; [exact Hok'|]. destruct Hok' as [Hnodup Hall].
  intros i j a b Hi Hj Hne. split.
  - intros Heq. apply Hne.
    apply (NoDup_lookup (map ID (occupied (this w'))) i j (ID a)); [exact Hnodup| |].
    + rewrite list_lookup_fmap, Hi. reflexivity.
    + rewrite list_lookup_fmap, Hj, Heq. reflexivity.
  - rewrite Forall_forall in Hall.
    destruct (Hall (ID a)) as [Hp _]; [|lia].
    apply list_elem_of_fmap. exists a. split; [reflexivity|].
    eapply list_elem_of_lookup_2, Hi.
Qed.

(** *** [LoadSceneTextures] *)

Lemma LoadSceneTextures_load_all (w : World F) :
  LoadSceneTextures stbi_load w =
  match load_all stbi_load scene_textures w with
  | Ok (_, w1) => BindGLTextures w1
  | Undefined u => Undefined u
  end.
Proof.
  cbv [LoadSceneTextures load_all scene_textures mbind M_bind mret M_ret].
  repeat
    (match goal with
     | |- context [CreateGLTexture stbi_load ?f ?t ?w0] =>
         destruct (CreateGLTexture stbi_load f t w0) as [[? ?]|?]
     end; try reflexivity).
Qed.

(** X9.  [LoadSceneTextures] ignores what its loads return.  From a
    registry with four free slots it always completes; it registers
    the textures whose files decode with 3 or 4 channels, in the order
    stone, bush, ground, sky, so that a texture takes the slot left by
    one that failed before it; and it ends by binding exactly the
    occupied slots.  The material registry and the shader manager are
    not touched. *)
Theorem LoadSceneTextures_registers_what_decodes (w : World F) :
  0 <= m_loadedTextures (this w) ->
  m_loadedTextures (this w) + 4 <= Z.of_nat (length (m_textureIDs (this w))) ->
  exists w1 w',
    load_all stbi_load scene_textures w = Ok (map (decodes stbi_load) scene_textures, w1) /\
    LoadSceneTextures stbi_load w = Ok (tt, w') /\
    this w' = this w1 /\
    map tag (occupied (this w')) =
      map tag (occupied (this w)) ++
      map snd (List.filter (decodes stbi_load) scene_textures) /\
    calls w' = calls w1 ++ bind_calls (occupied (this w')) 0 /\
    m_objectMaterials (this w') = m_objectMaterials (this w) /\
    m_pShaderManager (this w') = m_pShaderManager (this w).
Proof.
  intros H0 Hroom.
  destruct (load_all_run scene_textures w H0 ltac:(cbn; lia)) as [w1 E].
  destruct (load_all_occupied stbi_load scene_textures w w1 _ ltac:(lia) E)
    as (Htags & _ & _ & Hrange).
  destruct (load_all_keeps scene_textures w w1 _ E) as [Hp Hm].
  assert (forall rs : list (string * string),
    loaded_tags rs (map (decodes stbi_load) rs) = map snd (List.filter (decodes stbi_load) rs))
    as Hloaded.
  { induction rs as [|[f t] rs IHrs]; [reflexivity|].
    cbn [map loaded_tags List.filter].
    destruct (decodes stbi_load (f, t)); cbn [map snd]; now rewrite IHrs. }
  rewrite Hloaded in Htags.
  eexists w1, _. split; [exact E|].
  split; [rewrite LoadSceneTextures_load_all, E; apply BindGLTextures_run; lia|].
  cbn [this calls]. repeat split; assumption || reflexivity.
Qed.
End Loading.

(** ** Rendering: what a frame writes and what it leaves alone *)

Section Frames.
Context {F : Type} `{Float32 F}.
Variable leftover_local : OBJECT_MATERIAL F.

(** *** Sequences of writes *)

Lemma apply_writes_app (a b : list (string * uniform F)) (store : ShaderManager F) :
  apply_writes (a ++ b) store = apply_writes b (apply_writes a store).
Proof. unfold apply_writes. apply foldl_app. Qed.

Lemma lookup_apply_writes (ws : list (string * uniform F)) :
  forall (store : ShaderManager F) name,
    apply_writes ws store !! name =
    match last_write ws name with
    | Some v => Some v
    | None => store !! name
    end.
Proof.
  induction ws as [|[n v] rest IH]; intros store name; [reflexivity|].
  change (apply_writes ((n, v) :: rest) store) with (apply_writes rest (<[n := v]> store)).
  rewrite IH. cbn [last_write].
  destruct (last_write rest name); [reflexivity|].
  destruct (String.eqb_spec n name) as [->|Hne].
  - apply lookup_insert_eq.
  - now apply lookup_insert_ne.
Qed.

Lemma last_write_app (a b : list (string * uniform F)) name :
  last_write (a ++ b) name =
  match last_write b name with
  | Some v => Some v
  | None => last_write a name
  end.
Proof.
  induction a as [|[n v] rest IH]; cbn [app last_write].
  - now destruct (last_write b name).
  - rewrite IH. now destruct (last_write b name).
Qed.

(** Writing the same sequence a second time changes nothing. *)
Lemma apply_writes_twice (ws : list (string * uniform F)) (store : ShaderManager F) :
  apply_writes ws (apply_writes ws store) = apply_writes ws store.
Proof.
  apply map_eq. intros name. rewrite !lookup_apply_writes.
  now destruct (last_write ws name).
Qed.

Lemma last_write_other_key (ws : list (string * uniform F)) name :
  Forall (fun kv => render_key kv.1 = true) ws ->
  render_key name = false ->
  last_write ws name = None.
Proof.
  intros Hall Hname. induction Hall as [|[n v] rest Hn _ IH]; [reflexivity|].
  cbn [last_write]. rewrite IH.
  destruct (String.eqb_spec n name) as [->|_]; [|reflexivity].
  cbn in Hn. congruence.
Qed.

Lemma object_writes_keys (s : SceneManager F) (o : RenderObject) :
  Forall (fun kv => render_key kv.1 = true) (object_writes s o).
Proof.
  unfold object_writes, transform_writes, color_writes, texture_writes,
    bound_material_writes, material_writes.
  destruct (lookup_material s (materialTag o)); repeat constructor.
Qed.

Lemma scene_writes_keys (s : SceneManager F) (scene : list RenderObject) :
  Forall (fun kv => render_key kv.1 = true) (concat (map (object_writes s) scene)).
Proof.
  induction scene as [|o rest IH]; [constructor|].
  cbn [map concat]. apply Forall_app. split; [apply object_writes_keys|exact IH].
Qed.

(** *** The world after a frame *)

Lemma drawn_all_world (s : SceneManager F) (scene : list RenderObject) :
  forall w : World F,
    m_loadedTextures (this (foldl (drawn s) w scene)) = m_loadedTextures (this w) /\
    m_textureIDs (this (foldl (drawn s) w scene)) = m_textureIDs (this w) /\
    m_objectMaterials (this (foldl (drawn s) w scene)) = m_objectMaterials (this w) /\
    gl_textures (foldl (drawn s) w scene) = gl_textures w /\
    m_pShaderManager (this (foldl (drawn s) w scene)) =
      apply_writes (concat (map (object_writes s) scene)) <$> m_pShaderManager (this w).
Proof.
  induction scene as [|o rest IH]; intros w; cbn [foldl map concat].
  - repeat split; try reflexivity. now destruct (m_pShaderManager (this w)).
  - destruct (IH (drawn s w o)) as (Hn & Ht & Hm & Hgl & Hp).
    rewrite Hn, Ht, Hm, Hgl, Hp. repeat split; try reflexivity.
    unfold drawn, with_call, with_writes. cbn [this m_pShaderManager].
    destruct (m_pShaderManager (this w)) as [g|]; [|reflexivity].
    cbn [fmap option_fmap option_map]. now rewrite apply_writes_app.
Qed.

Lemma materials_resolve_registry (s s' : SceneManager F) :
  m_objectMaterials s' = m_objectMaterials s -> materials_resolve s -> materials_resolve s'.
Proof.
  intros Hm. unfold materials_resolve, resolves, lookup_material. now rewrite Hm.
Qed.

Lemma scene_writes_registry (s s' : SceneManager F) (scene : list RenderObject) :
  m_loadedTextures s' = m_loadedTextures s ->
  m_textureIDs s' = m_textureIDs s ->
  m_objectMaterials s' = m_objectMaterials s ->
  map (object_writes s') scene = map (object_writes s) scene /\
  map (object_calls s') scene = map (object_calls s) scene.
Proof.
  intros Hn Ht Hm. split; apply map_ext; intros o; unfold object_calls;
    now rewrite (object_writes_registry s s' o Hn Ht Hm).
Qed.

(** X10.  A frame changes nothing but the store and the call log: the
    texture table, its counter, the material registry and the texture
    names are as before.  Rendering is repeatable: a second frame makes
    the same calls as the first and leaves the store exactly as the
    first left it. *)
Theorem RenderScene_repeatable (w : World F) (store : ShaderManager F) :
  store_of w = Some store ->
  m_loadedTextures (this w) <= Z.of_nat (length (m_textureIDs (this w))) ->
  materials_resolve (this w) ->
  exists w1 w2 new,
    RenderScene leftover_local w = Ok (tt, w1) /\
    RenderScene leftover_local w1 = Ok (tt, w2) /\
    m_loadedTextures (this w1) = m_loadedTextures (this w) /\
    m_textureIDs (this w1) = m_textureIDs (this w) /\
    m_objectMaterials (this w1) = m_objectMaterials (this w) /\
    gl_textures w1 = gl_textures w /\
    calls w1 = calls w ++ new /\
    calls w2 = calls w1 ++ new /\
    store_of w1 = Some (apply_writes (scene_writes (this w)) store) /\
    this w2 = this w1.
Proof.
  intros Hsm Hbound Hres.
  pose proof (RenderScene_run leftover_local w store Hsm Hbound Hres) as E1.
  destruct (drawn_all_world (this w) authored_scene w) as (Hn & Ht & Hm & Hgl & Hp).
  set (w1 := foldl (drawn (this w)) w authored_scene) in *.
  assert (store_of w1 = Some (apply_writes (scene_writes (this w)) store)) as Hsm1.
  { unfold store_of in *. rewrite Hp, Hsm. reflexivity. }
  pose proof (RenderScene_run leftover_local w1 _ Hsm1
                ltac:(rewrite Hn, Ht; exact Hbound)
                (materials_resolve_registry (this w) (this w1) Hm Hres)) as E2.
  destruct (scene_writes_registry (this w) (this w1) authored_scene Hn Ht Hm) as [Hws Hcs].
  destruct (drawn_all_world (this w1) authored_scene w1) as (Hn2 & Ht2 & Hm2 & _ & Hp2).
  exists w1, (foldl (drawn (this w1)) w1 authored_scene),
         (concat (map (object_calls (this w)) authored_scene)).
  split; [exact E1|]. split; [exact E2|].
  split; [exact Hn|]. split; [exact Ht|]. split; [exact Hm|]. split; [exact Hgl|].
  split; [apply calls_drawn_all|].
  split; [rewrite calls_drawn_all, Hcs; reflexivity|].
  split; [exact Hsm1|].
  set (w2 := foldl (drawn (this w1)) w1 authored_scene) in *.
  assert (m_pShaderManager (this w2) = m_pShaderManager (this w1)) as Hp21.
  { rewrite Hp2, Hws. unfold store_of in Hsm1. rewrite Hsm1.
    cbn [fmap option_fmap option_map]. unfold scene_writes.
    now rewrite apply_writes_twice. }
  destruct (this w2) as [p2 n2 t2 m2], (this w1) as [p1 n1' t1 m1].
  cbn in *. congruence.
Qed.

(** X11.  A frame writes only the model matrix, the texture flag, the
    color, the sampler and the material parameters.  Every other key
    of the store keeps its value: the UV scale set by
    [SetTextureUVScale] is still in force after the frame. *)
Theorem RenderScene_leaves_other_keys (w : World F) (store : ShaderManager F) :
  store_of w = Some store ->
  m_loadedTextures (this w) <= Z.of_nat (length (m_textureIDs (this w))) ->
  materials_resolve (this w) ->
  (exists w1 store1,
      RenderScene leftover_local w = Ok (tt, w1) /\
      store_of w1 = Some store1 /\
      forall name, render_key name = false -> store1 !! name = store !! name) /\
  (forall u v, exists w0 w1 store1,
      SetTextureUVScale u v w = Ok (tt, w0) /\
      RenderScene leftover_local w0 = Ok (tt, w1) /\
      store_of w1 = Some store1 /\
      store1 !! "UVscale" = Some (UVec2 (glm.Vec2 u v))).
Proof.
  intros Hsm Hbound Hres.
  assert (forall (w0 : World F) st0,
    store_of w0 = Some st0 ->
    m_loadedTextures (this w0) <= Z.of_nat (length (m_textureIDs (this w0))) ->
    materials_resolve (this w0) ->
    exists w1 store1,
      RenderScene leftover_local w0 = Ok (tt, w1) /\
      store_of w1 = Some store1 /\
      forall name, render_key name = false -> store1 !! name = st0 !! name) as Hframe.
  { intros w0 st0 H0 Hb0 Hr0.
    destruct (drawn_all_world (this w0) authored_scene w0) as (_ & _ & _ & _ & Hp).
    eexists _, _. split; [exact (RenderScene_run leftover_local w0 st0 H0 Hb0 Hr0)|].
    split; [unfold store_of in *; rewrite Hp, H0; reflexivity|].
    intros name Hname. rewrite lookup_apply_writes.
    now rewrite (last_write_other_key _ name (scene_writes_keys (this w0) authored_scene)
                   Hname). }
  split; [exact (Hframe w store Hsm Hbound Hres)|].
  intros u v.
  assert (SetTextureUVScale u v w =
          Ok (tt, with_writes [("UVscale", UVec2 (glm.Vec2 u v))] w)) as E0.
  { destruct w as [[ptr n table ms] gl cs]. cbn in Hsm. subst ptr. reflexivity. }
  destruct (Hframe (with_writes [("UVscale", UVec2 (glm.Vec2 u v))] w)
              (apply_writes [("UVscale", UVec2 (glm.Vec2 u v))] store)
              (with_writes_attached w store _ Hsm) Hbound Hres)
    as (w1 & store1 & E1 & Hs1 & Hkeep).
  exists (with_writes [("UVscale", UVec2 (glm.Vec2 u v))] w), w1, store1.
  split; [exact E0|]. split; [exact E1|]. split; [exact Hs1|].
  rewrite (Hkeep "UVscale" eq_refl). apply lookup_insert_eq.
Qed.
End Frames.

(** ** Rendering: the store at each draw, and a null shader manager *)

Section Draws.
Context {F : Type} `{Float32 F}.
Variable leftover_local : OBJECT_MATERIAL F.

Lemma draw_states_block (ws : list (string * uniform F)) (k : mesh) rest :
  forall store : ShaderManager F,
    draw_states (write_calls ws ++ DrawMesh k :: rest) store =
    (k, apply_writes ws store) :: draw_states rest (apply_writes ws store).
Proof.
  induction ws as [|[n v] ws IH]; intros store; [reflexivity|].
  cbn [write_calls map app draw_states]. exact (IH (<[n := v]> store)).
Qed.

Lemma object_writes_in_force (s : SceneManager F) (o : RenderObject)
    (store : ShaderManager F) :
  drawn_with s o (meshKind o, apply_writes (object_writes s o) store).
Proof.
  unfold drawn_with. cbn [fst snd]. split; [reflexivity|].
  rewrite !lookup_apply_writes.
  unfold object_writes, transform_writes, color_writes, texture_writes,
    bound_material_writes, material_writes.
  destruct (lookup_material s (materialTag o)); repeat split; reflexivity.
Qed.

Lemma draw_states_scene (s : SceneManager F) (scene : list RenderObject) :
  forall store : ShaderManager F,
    Forall2 (drawn_with s) scene
      (draw_states (concat (map (object_calls s) scene)) store).
Proof.
  induction scene as [|o rest IH]; intros store; [constructor|].
  cbn [map concat]. unfold object_calls at 1. rewrite <- app_assoc. cbn [app].
  rewrite draw_states_block. constructor; [apply object_writes_in_force|apply IH].
Qed.

(** X12.  Every object is drawn in texture mode.  At each of the
    eight draw calls the store holds the object's own model matrix and
    color, the texture flag 1 and, as sampler, the slot of the
    object's texture tag (-1 if the tag is not loaded): the color
    written for an object never decides how it is drawn. *)
Theorem RenderScene_draws_in_texture_mode (w : World F) (store : ShaderManager F) :
  store_of w = Some store ->
  m_loadedTextures (this w) <= Z.of_nat (length (m_textureIDs (this w))) ->
  materials_resolve (this w) ->
  exists w' new,
    RenderScene leftover_local w = Ok (tt, w') /\
    calls w' = calls w ++ new /\
    Forall2 (drawn_with (this w)) authored_scene (draw_states new store) /\
    Forall (fun d => d.2 !! "bUseTexture" = Some (UInt 1))
      (draw_states new store) /\
    (m_loadedTextures (this w) <= 0 ->
     Forall (fun d => d.2 !! "objectTexture" = Some (USampler2D (-1)))
       (draw_states new store)).
Proof.
  intros Hsm Hbound Hres.
  pose proof (draw_states_scene (this w) authored_scene store) as Hall.
  eexists _, (concat (map (object_calls (this w)) authored_scene)).
  split; [exact (RenderScene_run leftover_local w store Hsm Hbound Hres)|].
  split; [apply calls_drawn_all|]. split; [exact Hall|]. split.
  - clear -Hall. induction Hall as [|o d os ds Hd _ IH]; constructor; [|exact IH].
    destruct Hd as (_ & Hflag & _). exact Hflag.
  - intros Hempty.
    assert (forall t, lookup_by_tag (this w) t = -1) as Hnone.
    { intros t. unfold lookup_by_tag, occupied.
      replace (Z.to_nat (m_loadedTextures (this w))) with 0%nat by lia. reflexivity. }
    clear -Hall Hnone. induction Hall as [|o d os ds Hd _ IH]; constructor; [|exact IH].
    destruct Hd as (_ & _ & Hsampler & _). now rewrite Hnone in Hsampler.
Qed.

(** *** A null shader manager *)




End Draws.

(** ** Lights *)

Section Lights.
Context {F : Type} `{Float32 F}.
Variable leftover_local : OBJECT_MATERIAL F.

Lemma shader_set_run (w : World F) store name v :
  store_of w = Some store -> shader_set name v w = Ok (tt, with_writes [(name, v)] w).
Proof.
  intros Hsm. destruct w as [[ptr n table ms] gl cs]. cbn in Hsm. subst ptr. reflexivity.
Qed.

Ltac light_step :=
  match goal with
  | Hs : store_of ?w = Some ?st |- mbind _ (shader_set ?n ?v) ?w = _ =>
      rewrite (bind_Ok _ _ _ _ _ (shader_set_run w st n v Hs));
      let Hs' := fresh "Hs" in
      pose proof (with_writes_attached w st [(n, v)] Hs) as Hs'; clear Hs
  end.

Lemma SetupSceneLights_run (w : World F) store :
  store_of w = Some store -> SetupSceneLights w = Ok (tt, with_writes light_writes w).
Proof.
  intros Hs. unfold SetupSceneLights, setVec3Value3, setFloatValue, setBoolValue.
  do 21 light_step.
  match goal with
  | Hs : store_of ?w = Some ?st |- shader_set ?n ?v ?w = _ =>
      rewrite (shader_set_run w st n v Hs)
  end.
  rewrite !with_writes_app. reflexivity.
Qed.

Lemma light_keys : Forall (fun kv => render_key kv.1 = false) (light_writes (F:=F)).
Proof. unfold light_writes. repeat (constructor; [reflexivity|]). constructor. Qed.

Lemma last_write_render_key (ws : list (string * uniform F)) name v :
  Forall (fun kv => render_key kv.1 = true) ws ->
  last_write ws name = Some v -> render_key name = true.
Proof.
  induction 1 as [|[n x] ws Hk _ IH]; cbn [last_write]; [discriminate|].
  destruct (last_write ws name); [exact IH|].
  destruct (String.eqb_spec n name) as [->|_]; [intros _; exact Hk|discriminate].
Qed.

Lemma last_write_light_key name v :
  last_write (light_writes (F:=F)) name = Some v -> render_key name = false.
Proof.
  pose proof light_keys as Hk. revert Hk. generalize (light_writes (F:=F)).
  induction 1 as [|[n x] ws Hk _ IH]; cbn [last_write]; [discriminate|].
  destruct (last_write ws name); [exact IH|].
  destruct (String.eqb_spec n name) as [->|_]; [intros _; exact Hk|discriminate].
Qed.

(** X14.  [SetupSceneLights] has no null check: with a null shader
    manager its first write dereferences the null pointer.  With a
    shader manager attached it makes its 22 writes and changes
    nothing else; a frame rendered afterwards leaves every one of
    them in force, lighting stays enabled, and the focal strengths of
    lights 1 to 3, which the method does not write, still hold what
    the store held before. *)
Theorem SetupSceneLights_outlives_frames (w : World F) :
  (store_of w = None -> SetupSceneLights w = Undefined NullPointer) /\
  (forall store,
     store_of w = Some store ->
     m_loadedTextures (this w) <= Z.of_nat (length (m_textureIDs (this w))) ->
     materials_resolve (this w) ->
     exists w1 w2 store2,
       SetupSceneLights w = Ok (tt, w1) /\
       m_loadedTextures (this w1) = m_loadedTextures (this w) /\
       m_textureIDs (this w1) = m_textureIDs (this w) /\
       m_objectMaterials (this w1) = m_objectMaterials (this w) /\
       gl_textures w1 = gl_textures w /\
       calls w1 = calls w ++ write_calls light_writes /\
       RenderScene leftover_local w1 = Ok (tt, w2) /\
       store_of w2 = Some store2 /\
       (forall name v, last_write light_writes name = Some v -> store2 !! name = Some v) /\
       store2 !! "bUseLighting" = Some (UBool true) /\
       Forall (fun name => store2 !! name = store !! name)
         [ "lightSources[1].focalStrength"; "lightSources[2].focalStrength";
           "lightSources[3].focalStrength" ]).
Proof.
  split.
  - intros Hnull. destruct w as [[ptr n table ms] gl cs]. cbn in Hnull. subst ptr.
    reflexivity.
  - intros store Hs Hbound Hres.
    pose proof (SetupSceneLights_run w store Hs) as E1.
    pose proof (with_writes_attached w store light_writes Hs) as Hs1.
    pose proof (RenderScene_run leftover_local (with_writes light_writes w) _ Hs1
                  Hbound Hres) as E2.
    destruct (drawn_all_world (this (with_writes light_writes w)) authored_scene
                (with_writes light_writes w)) as (_ & _ & _ & _ & Hp2).
    unfold store_of in Hs1. rewrite Hs1 in Hp2. cbn [fmap option_fmap option_map] in Hp2.
    assert (forall name, render_key name = false ->
              apply_writes (concat (map (object_writes (this (with_writes light_writes w)))
                                      authored_scene))
                (apply_writes light_writes store) !! name =
              apply_writes light_writes store !! name) as Hframe.
    { intros name Hk. rewrite lookup_apply_writes.
      now rewrite (last_write_other_key _ name (scene_writes_keys _ authored_scene) Hk). }
    eexists _, _, _. split; [exact E1|].
    do 5 (split; [reflexivity|]). split; [exact E2|]. split; [exact Hp2|].
    split; [|split].
    + intros name v Hv. rewrite (Hframe name (last_write_light_key name v Hv)).
      now rewrite lookup_apply_writes, Hv.
    + now rewrite (Hframe "bUseLighting" eq_refl), lookup_apply_writes.
    + repeat (constructor; [rewrite Hframe by reflexivity;
                              now rewrite lookup_apply_writes|]).
      constructor.
Qed.
End Lights.

(** ** The material registry *)

Section Registry.
Context {F : Type} `{Float32 F}.

Lemma DefineObjectMaterials_run (w : World F) :
  DefineObjectMaterials w =
  Ok (tt, {| this := {| m_pShaderManager := m_pShaderManager (this w);
                        m_loadedTextures := m_loadedTextures (this w);
                        m_textureIDs := m_textureIDs (this w);
                        m_objectMaterials := m_objectMaterials (this w) ++ scene_materials |};
             gl_textures := gl_textures w; calls := calls w |}).
Proof.
  destruct w as [[ptr n table ms] gl cs].
  unfold DefineObjectMaterials, define_material, push_back_m_objectMaterials,
    mbind, M_bind.
  cbn [this m_pShaderManager m_loadedTextures m_textureIDs m_objectMaterials
       gl_textures calls].
  rewrite <- !app_assoc. reflexivity.
Qed.

Lemma find_material_app (a b : list (OBJECT_MATERIAL F)) the_tag material :
  find_material (a ++ b) the_tag material =
  match List.find (fun m => String.eqb (material_tag m) the_tag) a with
  | Some _ => find_material a the_tag material
  | None => find_material b the_tag material
  end.
Proof.
  induction a as [|m a IH]; [reflexivity|].
  cbn [app find_material List.find].
  destruct (String.eqb (material_tag m) the_tag); [reflexivity|exact IH].
Qed.

Lemma find_app_first {A} (f : A -> bool) (a b : list A) :
  List.find f (a ++ b) =
  match List.find f a with
  | Some x => Some x
  | None => List.find f b
  end.
Proof.
  induction a as [|x a IH]; [reflexivity|].
  cbn [app List.find]. destruct (f x); [reflexivity|exact IH].
Qed.

Lemma authored_tags_defined :
  Forall (fun o : RenderObject =>
            is_Some (List.find (fun m => String.eqb (material_tag m) (materialTag o))
                       (scene_materials (F:=F))))
    authored_scene.
Proof. repeat (constructor; [eexists; reflexivity|]). constructor. Qed.

Lemma FindMaterial_run (w : World F) the_tag material :
  FindMaterial the_tag material w =
  Ok (match m_objectMaterials (this w) with
      | [] => (false, material)
      | _ :: _ => (true, find_material (m_objectMaterials (this w)) the_tag material)
      end, w).
Proof.
  destruct w as [[ptr n table ms] gl cs]. unfold FindMaterial, mbind, M_bind, get.
  cbn. now destruct ms.
Qed.

(** X15.  [DefineObjectMaterials] needs no shader manager and makes
    no call: it appends its eight materials to whatever the registry
    holds.  A tag the registry already defines keeps its earlier
    material, since lookup stops at the first match; every material
    tag [RenderScene] uses resolves afterwards; and the method does
    not reject duplicates: a second call grows the registry by eight
    more entries, none of which any lookup can reach. *)
Theorem DefineObjectMaterials_appends (w : World F) :
  exists w1 w2,
    DefineObjectMaterials w = Ok (tt, w1) /\
    DefineObjectMaterials w1 = Ok (tt, w2) /\
    m_objectMaterials (this w1) = m_objectMaterials (this w) ++ scene_materials /\
    m_objectMaterials (this w2) = m_objectMaterials (this w1) ++ scene_materials /\
    m_pShaderManager (this w2) = m_pShaderManager (this w) /\
    m_loadedTextures (this w2) = m_loadedTextures (this w) /\
    m_textureIDs (this w2) = m_textureIDs (this w) /\
    gl_textures w2 = gl_textures w /\
    calls w2 = calls w /\
    (forall the_tag m,
       lookup_material (this w) the_tag = Some m ->
       lookup_material (this w1) the_tag = Some m) /\
    materials_resolve (this w1) /\
    (forall the_tag material,
       exists found,
         FindMaterial the_tag material w1 = Ok (found, w1) /\
         FindMaterial the_tag material w2 = Ok (found, w2)).
Proof.
  eexists _, _. split; [apply DefineObjectMaterials_run|].
  split; [apply DefineObjectMaterials_run|].
  cbn [this m_pShaderManager m_loadedTextures m_textureIDs m_objectMaterials
       gl_textures calls].
  do 7 (split; [reflexivity|]).
  split; [|split].
  - intros the_tag m Hm. unfold lookup_material in *.
    cbn [m_objectMaterials]. now rewrite find_app_first, Hm.
  - unfold materials_resolve.
    eapply Forall_impl; [exact authored_tags_defined|].
    intros o [m Hm]. right. unfold lookup_material. cbn [m_objectMaterials].
    rewrite find_app_first.
    destruct (List.find _ (m_objectMaterials (this w))); [eexists; reflexivity|].
    now exists m.
  - intros the_tag material. eexists. rewrite !FindMaterial_run.
    cbn [this m_objectMaterials]. split; [reflexivity|].
    f_equal.
    assert (exists m0 ms0, m_objectMaterials (this w) ++ scene_materials = m0 :: ms0)
      as (m0 & ms0 & Hne).
    { destruct (m_objectMaterials (this w)); cbn; eauto. }
    rewrite (find_material_app (m_objectMaterials (this w) ++ scene_materials)).
    rewrite Hne. cbn [app]. rewrite <- Hne. f_equal.
    destruct (List.find _ (m_objectMaterials (this w) ++ scene_materials)) eqn:Efind;
      [reflexivity|].
    rewrite find_app_first in Efind.
    destruct (List.find _ (m_objectMaterials (this w))) eqn:Eold; [discriminate|].
    rewrite find_material_app, Eold.
    reflexivity.
Qed.
End Registry.

(** ** Teardown and lookups *)

Section Teardown.
Context {F : Type} `{Float32 F}.

Lemma fresh_name_new (used : list Z) : fresh_name used ∉ used.
Proof. intros Hin. pose proof (fresh_name_above used _ Hin). lia. Qed.

(** The loop of [DestroyGLTextures] slot by slot: slots outside its
    range keep their entry, slots inside keep their tag and receive a
    name that did not exist when the loop began. *)
Lemma regenerate_all_handles remaining : forall i (w : World F),
  0 <= i ->
  (Z.to_nat i + remaining <= length (m_textureIDs (this w)))%nat ->
  exists w',
    for_each_loaded remaining i regenerate_slot w = Ok (tt, w') /\
    m_loadedTextures (this w') = m_loadedTextures (this w) /\
    length (m_textureIDs (this w')) = length (m_textureIDs (this w)) /\
    map tag (m_textureIDs (this w')) = map tag (m_textureIDs (this w)) /\
    (forall x, x ∈ gl_textures w -> x ∈ gl_textures w') /\
    (forall j, (j < Z.to_nat i \/ Z.to_nat i + remaining <= j)%nat ->
       m_textureIDs (this w') !! j = m_textureIDs (this w) !! j) /\
    (forall j e, (Z.to_nat i <= j < Z.to_nat i + remaining)%nat ->
       m_textureIDs (this w') !! j = Some e ->
       (ID e ∉ gl_textures w) /\ (ID e ∈ gl_textures w')).
Proof.
  induction remaining as [|r IH]; intros i w Hi Hlen.
  - exists w. cbn. repeat split; auto; intros; lia.
  - destruct (lookup_lt_is_Some_2 (m_textureIDs (this w)) (Z.to_nat i)) as [e He]; [lia|].
    cbn [for_each_loaded].
    rewrite (bind_Ok _ _ _ _ _ (regenerate_slot_in w i e Hi He)).
    match goal with
    | |- context [for_each_loaded r (i + 1) regenerate_slot ?w1] =>
        destruct (IH (i + 1) w1 ltac:(lia) ltac:(cbn; rewrite length_insert; lia))
          as (w' & E & Hcount & Hl & Htags & Hgl & Hout & Hin)
    end.
    cbn [this gl_textures m_loadedTextures m_textureIDs] in Hcount, Hl, Htags, Hgl, Hout, Hin.
    exists w'. split; [exact E|]. split; [exact Hcount|].
    split; [rewrite Hl; apply length_insert|].
    split; [rewrite Htags, list_fmap_insert; cbn; apply list_insert_id;
            rewrite list_lookup_fmap, He; reflexivity|].
    split; [intros x Hx; apply Hgl, elem_of_app; now left|].
    split.
    + intros j Hj. rewrite Hout by lia. apply list_lookup_insert_ne. lia.
    + intros j e' Hj He'.
      destruct (decide (j = Z.to_nat i)) as [->|Hne].
      * rewrite Hout in He' by lia.
        rewrite list_lookup_insert_eq in He' by (eapply lookup_lt_Some, He).
        inversion He'; subst e'. cbn [set_ID ID]. split; [apply fresh_name_new|].
        apply Hgl, elem_of_app. right. left.
      * destruct (Hin j e' ltac:(lia) He') as [Hnew Hthere]. split; [|exact Hthere].
        intros Hold. apply Hnew, elem_of_app. now left.
Qed.

Lemma occupied_lookup (s : SceneManager F) j e :
  occupied s !! j = Some e ->
  (j < Z.to_nat (m_loadedTextures s))%nat /\ m_textureIDs s !! j = Some e.
Proof.
  unfold occupied. intros He.
  apply lookup_take_Some in He. tauto.
Qed.

Lemma DestroyGLTextures_run (w : World F) :
  0 <= m_loadedTextures (this w) <= Z.of_nat (length (m_textureIDs (this w))) ->
  exists w',
    DestroyGLTextures w = Ok (tt, w') /\
    m_loadedTextures (this w') = m_loadedTextures (this w) /\
    length (m_textureIDs (this w')) = length (m_textureIDs (this w)) /\
    map tag (occupied (this w')) = map tag (occupied (this w)) /\
    (forall x, x ∈ gl_textures w -> x ∈ gl_textures w') /\
    Forall (fun e => (ID e ∉ gl_textures w) /\ (ID e ∈ gl_textures w'))
      (occupied (this w')).
Proof.
  intros Hn.
  destruct (regenerate_all_handles (Z.to_nat (m_loadedTextures (this w))) 0 w
              ltac:(lia) ltac:(lia))
    as (w' & E & Hcount & Hl & Htags & Hgl & _ & Hin).
  exists w'. unfold DestroyGLTextures.
  rewrite (bind_Ok _ _ w (m_loadedTextures (this w)) w) by reflexivity.
  split; [exact E|]. split; [exact Hcount|]. split; [exact Hl|].
  split; [unfold occupied; rewrite Hcount, <- !List.firstn_map, Htags; reflexivity|].
  split; [exact Hgl|].
  apply Forall_lookup. intros j e He.
  apply occupied_lookup in He as [Hj He]. rewrite Hcount in Hj.
  exact (Hin j e ltac:(lia) He).
Qed.

Lemma first_match_tags (a : list TEXTURE_INFO) the_tag : forall b slot,
  map tag a = map tag b -> first_match a the_tag slot = first_match b the_tag slot.
Proof.
  induction a as [|x a IH]; intros [|y b] slot Hab; try discriminate; [reflexivity|].
  cbn [map] in Hab. injection Hab as Hxy Hab.
  cbn [first_match]. rewrite Hxy. destruct (String.eqb (tag y) the_tag); [reflexivity|].
  now apply IH.
Qed.

(** X16.  What [DestroyGLTextures] does to lookups.  Every tag still
    resolves, and to the same slot as before; but what
    [FindTextureID] returns for a loaded tag is now the conversion to
    [int] of a name generated by the teardown, one that did not exist
    before the call and that no image was ever uploaded to.  The
    textures created by the loads still exist and can no longer be
    reached through the registry. *)
Theorem DestroyGLTextures_orphans_textures (w : World F) :
  0 <= m_loadedTextures (this w) <= Z.of_nat (length (m_textureIDs (this w))) ->
  exists w',
    DestroyGLTextures w = Ok (tt, w') /\
    (forall x, x ∈ gl_textures w -> x ∈ gl_textures w') /\
    (forall the_tag, exists slot,
       FindTextureSlot the_tag w = Ok (slot, w) /\
       FindTextureSlot the_tag w' = Ok (slot, w')) /\
    (forall the_tag, the_tag ∈ map tag (occupied (this w)) ->
       exists id handle,
         FindTextureID the_tag w' = Ok (id, w') /\
         id = int_of_GLuint handle /\
         (0 <= handle < 2147483648 -> id = handle) /\
         (handle ∉ gl_textures w) /\ (handle ∈ gl_textures w')).
Proof.
  intros Hn.
  destruct (DestroyGLTextures_run w Hn) as (w' & E & Hcount & Hl & Htags & Hgl & Hids).
  exists w'. split; [exact E|]. split; [exact Hgl|]. split.
  - intros the_tag. exists (lookup_by_tag (this w) the_tag).
    split; [apply FindTextureSlot_lookup; lia|].
    rewrite FindTextureSlot_lookup by lia.
    unfold lookup_by_tag. now rewrite (first_match_tags _ _ _ 0 Htags).
  - intros the_tag Hin. rewrite <- Htags in Hin.
    destruct (lookups_agree w' the_tag ltac:(lia)) as (slot & id & _ & Eid & _ & Hfound).
    destruct (Hfound Hin) as (_ & e & He & _ & Hid).
    exists id, (ID e). split; [exact Eid|]. split; [exact Hid|].
    split; [intros Hh; rewrite Hid; now apply int_of_GLuint_small|].
    exact (proj1 (Forall_lookup _ _) Hids _ _ He).
Qed.
End Teardown.

(** ** Scene preparation *)

Section Preparation.
Context {F : Type} `{Float32 F}.
Variable stbi_load : string -> option Image.
Variable leftover_local : OBJECT_MATERIAL F.

Lemma LoadSceneTextures_run (w : World F) :
  0 <= m_loadedTextures (this w) ->
  m_loadedTextures (this w) + 4 <= Z.of_nat (length (m_textureIDs (this w))) ->
  exists w',
    LoadSceneTextures stbi_load w = Ok (tt, w') /\
    m_loadedTextures (this w') <= Z.of_nat (length (m_textureIDs (this w'))) /\
    m_objectMaterials (this w') = m_objectMaterials (this w) /\
    m_pShaderManager (this w') = m_pShaderManager (this w).
Proof.
  intros H0 Hroom.
  destruct (load_all_run stbi_load scene_textures w H0 ltac:(cbn; lia)) as [w1 E].
  destruct (load_all_occupied stbi_load scene_textures w w1 _ ltac:(lia) E)
    as (_ & _ & _ & Hrange).
  destruct (load_all_keeps stbi_load scene_textures w w1 _ E) as [Hp Hm].
  eexists. split; [rewrite LoadSceneTextures_load_all, E; apply BindGLTextures_run; lia|].
  cbn [this]. split; [lia|]. split; assumption.
Qed.

Lemma last_write_not_written (ws : list (string * uniform F)) name :
  name ∉ map fst ws -> last_write ws name = None.
Proof.
  induction ws as [|[n v] ws IH]; [reflexivity|]. cbn [map fst last_write].
  intros Hnot. rewrite IH by (intros Hin; apply Hnot; now right).
  destruct (String.eqb_spec n name) as [->|_]; [|reflexivity].
  exfalso. apply Hnot. left.
Qed.

Lemma unbound_writes_keys (s : SceneManager F) (scene : list RenderObject) :
  m_objectMaterials s = [] ->
  Forall (fun n => n ∈ ["model"; "bUseTexture"; "objectColor"; "objectTexture"])
    (map fst (concat (map (object_writes s) scene))).
Proof.
  intros Hempty. induction scene as [|o rest IH]; [constructor|].
  cbn [map concat]. rewrite map_app. apply Forall_app. split; [|exact IH].
  unfold object_writes, bound_material_writes, lookup_material. rewrite Hempty.
  cbn. repeat (constructor; [repeat constructor|]). constructor.
Qed.

Lemma unbound_material_count (s : SceneManager F) (scene : list RenderObject) :
  m_objectMaterials s = [] ->
  material_count (concat (map (object_calls s) scene)) = 0%nat.
Proof.
  intros Hempty. unfold material_count.
  induction scene as [|o rest IH]; [reflexivity|].
  cbn [map concat]. rewrite count_app, IH.
  unfold object_calls, object_writes, bound_material_writes, lookup_material.
  rewrite Hempty. reflexivity.
Qed.

(** X17.  [PrepareScene] followed by a frame.  [PrepareScene] loads
    the textures and the five meshes and defines neither materials
    nor lights.  On an object with room for four textures and an
    empty material registry it completes; the frame rendered next
    draws only meshes that were loaded (the tapered cylinder is
    loaded and never drawn), writes no material parameter, and
    leaves every store key other than the model matrix, the texture
    flag, the color and the sampler as it was, the lighting switch
    among them. *)
Theorem PrepareScene_then_RenderScene (st : Stage F) (store : ShaderManager F) :
  store_of (world st) = Some store ->
  0 <= m_loadedTextures (this (world st)) ->
  m_loadedTextures (this (world st)) + 4
    <= Z.of_nat (length (m_textureIDs (this (world st)))) ->
  m_objectMaterials (this (world st)) = [] ->
  exists st' w2 new store2,
    PrepareScene stbi_load st = Ok (tt, st') /\
    m_basicMeshes st' = m_basicMeshes st ++ [Plane; Torus; Box; TaperedCylinder; Prism] /\
    m_objectMaterials (this (world st')) = [] /\
    RenderScene leftover_local (world st') = Ok (tt, w2) /\
    calls w2 = calls (world st') ++ new /\
    Forall (fun k => k ∈ m_basicMeshes st') (draws new) /\
    (TaperedCylinder ∉ draws new) /\
    material_count new = 0%nat /\
    store_of w2 = Some store2 /\
    (forall name,
       name ∉ ["model"; "bUseTexture"; "objectColor"; "objectTexture"] ->
       store2 !! name = store !! name) /\
    store2 !! "bUseLighting" = store !! "bUseLighting".
Proof.
  intros Hs H0 Hroom Hempty.
  destruct (LoadSceneTextures_run (world st) H0 Hroom) as (w1 & E1 & Hbound & Hm & Hp).
  assert (store_of w1 = Some store) as Hs1 by (unfold store_of; now rewrite Hp).
  assert (m_objectMaterials (this w1) = []) as Hempty1 by now rewrite Hm.
  assert (materials_resolve (this w1)) as Hres.
  { unfold materials_resolve. apply Forall_forall. intros o _. now left. }
  pose proof (RenderScene_run leftover_local w1 store Hs1 Hbound Hres) as E2.
  destruct (drawn_all_world (this w1) authored_scene w1) as (_ & _ & _ & _ & Hp2).
  unfold store_of in Hs1. rewrite Hs1 in Hp2. cbn [fmap option_fmap option_map] in Hp2.
  assert (forall name,
            name ∉ ["model"; "bUseTexture"; "objectColor"; "objectTexture"] ->
            apply_writes (concat (map (object_writes (this w1)) authored_scene)) store
              !! name = store !! name) as Hframe.
  { intros name Hname. rewrite lookup_apply_writes, last_write_not_written; [reflexivity|].
    intros Hin.
    exact (Hname (proj1 (Forall_forall _ _)
                    (unbound_writes_keys (this w1) authored_scene Hempty1) _ Hin)). }
  eexists {| world := w1; m_basicMeshes := _ |}, _,
    (concat (map (object_calls (this w1)) authored_scene)), _.
  split; [unfold PrepareScene; rewrite E1; reflexivity|].
  cbn [world m_basicMeshes].
  split; [reflexivity|]. split; [exact Hempty1|]. split; [exact E2|].
  split; [apply calls_drawn_all|].
  rewrite draws_object_calls.
  split; [|split].
  - apply Forall_forall. intros k Hk. apply elem_of_app. right.
    cbn in Hk.
    repeat (apply elem_of_cons in Hk as [-> | Hk]; [repeat constructor|]).
    inversion Hk.
  - cbn. intros Hin.
    repeat (apply elem_of_cons in Hin as [Hin | Hin]; [discriminate|]).
    inversion Hin.
  - split; [exact (unbound_material_count (this w1) authored_scene Hempty1)|].
    split; [exact Hp2|]. split; [exact Hframe|].
    apply Hframe. intros Hin.
    repeat (apply elem_of_cons in Hin as [Hin | Hin]; [discriminate|]).
    inversion Hin.
Qed.
End Preparation.

(** ** Worked instances of the further properties *)

Section FurtherScenes.
Context {F : Type} `{Float32 F}.

Lemma prepared_scene_ground :
  FindTextureSlot "ground" (prepared_scene (F:=F)) = Ok (2, prepared_scene) /\
  FindTextureID "ground" (prepared_scene (F:=F)) = Ok (3, prepared_scene).
Proof. vm_compute. split; reflexivity. Qed.

Lemma prepared_scene_range :
  0 <= m_loadedTextures (this (prepared_scene (F:=F)))
    <= Z.of_nat (length (m_textureIDs (this (prepared_scene (F:=F))))).
Proof. destruct (prepared_scene_table (F:=F)) as [[Hlen Hn] _]. lia. Qed.

Lemma fresh_scene_room p :
  0 <= m_loadedTextures (this (fresh_scene (F:=F) p)) /\
  m_loadedTextures (this (fresh_scene (F:=F) p)) + 4
    <= Z.of_nat (length (m_textureIDs (this (fresh_scene (F:=F) p)))).
Proof. vm_compute. split; discriminate. Qed.

Lemma fresh_scene_slots p :
  0 <= m_loadedTextures (this (fresh_scene (F:=F) p))
    < Z.of_nat (length (m_textureIDs (this (fresh_scene (F:=F) p)))) /\
  m_loadedTextures (this (fresh_scene (F:=F) p)) + Z.of_nat (length (scene_textures))
    <= Z.of_nat (length (m_textureIDs (this (fresh_scene (F:=F) p)))).
Proof. vm_compute. repeat split; discriminate || reflexivity. Qed.

Lemma fresh_scene_handles p : handles_ok (fresh_scene (F:=F) p).
Proof. split; constructor. Qed.

Lemma overcounted_over :
  Z.of_nat (length (m_textureIDs (this (overcounted (F:=F)))))
    < m_loadedTextures (this (overcounted (F:=F))).
Proof. reflexivity. Qed.

Lemma blank_table_tags the_tag :
  the_tag <> "" -> the_tag ∉ map tag (m_textureIDs (this (overcounted (F:=F)))).
Proof.
  intros Hne Hin. apply list_elem_of_fmap in Hin as (e & -> & Hin).
  cbn in Hin. apply Hne.
  repeat (apply elem_of_cons in Hin as [-> | Hin]; [reflexivity|]).
  inversion Hin.
Qed.
End FurtherScenes.

Lemma FindTextureID_agrees_with_slot_witness :
  exists slot id,
    FindTextureSlot (F:=R) "bush" prepared_scene = Ok (slot, prepared_scene) /\
    FindTextureID (F:=R) "bush" prepared_scene = Ok (id, prepared_scene) /\
    0 <= slot < m_loadedTextures (this (prepared_scene (F:=R))) /\
    exists e, occupied (this (prepared_scene (F:=R))) !! Z.to_nat slot = Some e /\
              tag e = "bush" /\ id = int_of_GLuint (ID e).
Proof.
  destruct (FindTextureID_agrees_with_slot (F:=R) prepared_scene "bush" prepared_scene_bound)
    as (slot & id & Es & Ei & _ & Hsome).
  exists slot, id. split; [exact Es|]. split; [exact Ei|].
  destruct Hsome as (Hr & e & He & Ht & Hid & _).
  { rewrite prepared_scene_occupied. cbn. repeat constructor. }
  split; [exact Hr|]. exists e. split; [exact He|]. split; [exact Ht|exact Hid].
Defined.

Lemma BindGLTextures_binds_each_slot_witness :
  exists w',
    BindGLTextures (F:=R) prepared_scene = Ok (tt, w') /\
    this w' = this prepared_scene /\
    calls w' = calls prepared_scene ++
      [ glActiveTexture 0; glBindTexture 1; glActiveTexture 1; glBindTexture 2;
        glActiveTexture 2; glBindTexture 3; glActiveTexture 3; glBindTexture 4 ].
Proof.
  destruct (BindGLTextures_binds_each_slot (F:=R) prepared_scene prepared_scene_bound)
    as (w' & E & Hthis & _ & Hcalls & _).
  exists w'. split; [exact E|]. split; [exact Hthis|].
  rewrite Hcalls, prepared_scene_occupied. reflexivity.
Defined.

Lemma sampler_index_is_texture_unit_witness :
  exists w' new handle,
    BindGLTextures (F:=R) prepared_scene = Ok (tt, w') /\
    calls w' = calls prepared_scene ++ new /\
    new !! 4%nat = Some (glActiveTexture 2) /\
    new !! 5%nat = Some (glBindTexture handle) /\
    3 = int_of_GLuint handle /\
    (0 <= handle < 2147483648 -> 3 = handle).
Proof.
  exact (sampler_index_is_texture_unit (F:=R) prepared_scene "ground" 2 3
           prepared_scene_bound (proj1 prepared_scene_ground) (proj2 prepared_scene_ground)
           ltac:(discriminate)).
Defined.

Lemma counter_beyond_table_overruns_witness :
  BindGLTextures (F:=R) overcounted = Undefined (OutOfBounds 16) /\
  FindTextureSlot (F:=R) "moss" overcounted = Undefined (OutOfBounds 16) /\
  FindTextureID (F:=R) "moss" overcounted = Undefined (OutOfBounds 16).
Proof.
  destruct (counter_beyond_table_overruns (F:=R) overcounted "moss" overcounted_over)
    as [Hbind Hfind].
  split; [exact Hbind|].
  exact (Hfind (blank_table_tags "moss" ltac:(discriminate))).
Defined.

Lemma load_all_completes_witness :
  exists w',
    load_all (F:=R) stone_missing scene_textures (fresh_scene (Some ∅)) =
      Ok ([false; true; true; true], w') /\
    m_loadedTextures (this w') = 3 /\
    map tag (occupied (this w')) = ["bush"; "ground"; "sky"].
Proof.
  destruct (load_all_completes (F:=R) stone_missing (fresh_scene (Some ∅)) scene_textures
              (proj1 (fresh_scene_room _)) (proj2 (fresh_scene_slots _)))
    as (w' & E & Hcount & _ & Htags).
  exists w'. split; [exact E|]. split; [exact Hcount|exact Htags].
Defined.

Lemma CreateGLTexture_unsupported_leaks_witness :
  exists w' name new,
    CreateGLTexture (F:=R) (decodes_with 2) "grey.png" "stone" prepared_scene =
      Ok (false, w') /\
    this w' = this prepared_scene /\
    gl_textures w' = gl_textures prepared_scene ++ [name] /\
    calls w' = calls prepared_scene ++ new /\
    (glGenTextures name ∈ new) /\
    (stbi_image_free ∉ new).
Proof.
  assert (~ supported two_channel_image) as Hno.
  { intros [H3 | H4]; discriminate. }
  destruct (CreateGLTexture_unsupported_leaks (F:=R) (decodes_with 2) prepared_scene
              "grey.png" "stone" two_channel_image eq_refl Hno)
    as (w' & name & new & E & Hthis & Hgl & _ & Hcalls & Hgen & _ & Hfree & _).
  exists w', name, new. repeat split; assumption.
Defined.

Lemma CreateGLTexture_success_protocol_witness :
  exists w' name,
    CreateGLTexture (F:=R) (decodes_with 3) "stone.jpg" "stone" (fresh_scene (Some ∅)) =
      Ok (true, w') /\
    calls w' = opening_calls "stone.jpg" rgb_image name ++
               [ glTexImage2D GL_RGB8 64 64 GL_RGB; glGenerateMipmap; stbi_image_free;
                 glBindTexture 0 ] /\
    m_textureIDs (this w') !! 0%nat = Some {| ID := name; tag := "stone" |}.
Proof.
  destruct (CreateGLTexture_success_protocol (F:=R) (decodes_with 3) (fresh_scene (Some ∅))
              "stone.jpg" "stone" rgb_image eq_refl (or_introl eq_refl)
              (proj1 (fresh_scene_slots _)))
    as (w' & name & upload & E & Hcalls & Hrgb & _ & _ & _ & Hslot & _).
  exists w', name. split; [exact E|]. split; [|exact Hslot].
  rewrite Hcalls, (Hrgb eq_refl). reflexivity.
Defined.

Lemma load_all_keeps_handles_distinct_witness :
  handles_ok (full_registry (F:=R)) /\
  forall (i j : nat) a b,
    occupied (this (full_registry (F:=R))) !! i = Some a ->
    occupied (this (full_registry (F:=R))) !! j = Some b ->
    i <> j -> ID a <> ID b /\ ID a <> 0.
Proof.
  exact (load_all_keeps_handles_distinct (F:=R) (decodes_with 3) (fresh_scene (Some ∅))
           full_registry sixteen_requests (replicate 16 true)
           (fresh_scene_handles (Some ∅)) sixteen_loads).
Defined.

Lemma LoadSceneTextures_registers_what_decodes_witness :
  exists w',
    LoadSceneTextures (F:=R) stone_missing (fresh_scene (Some ∅)) = Ok (tt, w') /\
    map tag (occupied (this w')) = ["bush"; "ground"; "sky"] /\
    m_objectMaterials (this w') = [].
Proof.
  destruct (LoadSceneTextures_registers_what_decodes (F:=R) stone_missing
              (fresh_scene (Some ∅)) (proj1 (fresh_scene_room _)) (proj2 (fresh_scene_room _)))
    as (w1 & w' & _ & E & _ & Htags & _ & Hm & _).
  exists w'. split; [exact E|]. split; [exact Htags|exact Hm].
Defined.

Lemma RenderScene_repeatable_witness :
  exists w1 w2 new,
    RenderScene (F:=R) leftover prepared_scene = Ok (tt, w1) /\
    RenderScene leftover w1 = Ok (tt, w2) /\
    calls w1 = calls prepared_scene ++ new /\
    calls w2 = calls w1 ++ new /\
    this w2 = this w1.
Proof.
  destruct (RenderScene_repeatable (F:=R) leftover prepared_scene ∅
              prepared_scene_store prepared_scene_bound prepared_scene_resolves)
    as (w1 & w2 & new & E1 & E2 & _ & _ & _ & _ & Hc1 & Hc2 & _ & Hthis).
  exists w1, w2, new. repeat split; assumption.
Defined.

Lemma RenderScene_leaves_other_keys_witness :
  exists w0 w1 store1,
    SetTextureUVScale (F:=R) (flt 2) (flt 2) prepared_scene = Ok (tt, w0) /\
    RenderScene leftover w0 = Ok (tt, w1) /\
    store_of w1 = Some store1 /\
    store1 !! "UVscale" = Some (UVec2 (glm.Vec2 (flt 2) (flt 2))).
Proof.
  destruct (RenderScene_leaves_other_keys (F:=R) leftover prepared_scene ∅
              prepared_scene_store prepared_scene_bound prepared_scene_resolves)
    as [_ Huv].
  exact (Huv (flt 2) (flt 2)).
Defined.

Lemma RenderScene_draws_in_texture_mode_witness :
  exists w' new,
    RenderScene (F:=R) leftover prepared_scene = Ok (tt, w') /\
    calls w' = calls prepared_scene ++ new /\
    Forall2 (drawn_with (this prepared_scene)) authored_scene (draw_states new ∅) /\
    Forall (fun d => d.2 !! "bUseTexture" = Some (UInt 1)) (draw_states new ∅).
Proof.
  destruct (RenderScene_draws_in_texture_mode (F:=R) leftover prepared_scene ∅
              prepared_scene_store prepared_scene_bound prepared_scene_resolves)
    as (w' & new & E & Hcalls & Hall & Hflag & _).
  exists w', new. repeat split; assumption.
Defined.


Lemma SetupSceneLights_outlives_frames_witness :
  SetupSceneLights (F:=R) unattached_scene = Undefined NullPointer /\
  exists w1 w2 store2,
    SetupSceneLights (F:=R) prepared_scene = Ok (tt, w1) /\
    RenderScene leftover w1 = Ok (tt, w2) /\
    store_of w2 = Some store2 /\
    store2 !! "bUseLighting" = Some (UBool true) /\
    store2 !! "lightSources[1].focalStrength" = None.
Proof.
  split.
  - exact (proj1 (SetupSceneLights_outlives_frames (F:=R) leftover unattached_scene)
             unattached_scene_store).
  - destruct (proj2 (SetupSceneLights_outlives_frames (F:=R) leftover prepared_scene) ∅
                prepared_scene_store prepared_scene_bound prepared_scene_resolves)
      as (w1 & w2 & store2 & E1 & _ & _ & _ & _ & _ & E2 & Hs & _ & Hon & Hfocal).
    exists w1, w2, store2. split; [exact E1|]. split; [exact E2|].
    split; [exact Hs|]. split; [exact Hon|].
    exact (List.Forall_inv Hfocal).
Defined.

Lemma DestroyGLTextures_orphans_textures_witness :
  exists w' id handle,
    DestroyGLTextures (F:=R) prepared_scene = Ok (tt, w') /\
    FindTextureID "stone" w' = Ok (id, w') /\
    id = int_of_GLuint handle /\
    (handle ∉ [1; 2; 3; 4]) /\
    (forall x, x ∈ [1; 2; 3; 4] -> x ∈ gl_textures w').
Proof.
  destruct (DestroyGLTextures_orphans_textures (F:=R) prepared_scene prepared_scene_range)
    as (w' & E & Hkept & _ & Hids).
  destruct (Hids "stone") as (id & handle & Eid & Hid & _ & Hnew & _).
  { rewrite prepared_scene_occupied. cbn. repeat constructor. }
  exists w', id, handle. split; [exact E|]. split; [exact Eid|]. split; [exact Hid|].
  rewrite <- (prepared_scene_names (F:=R)). split; [exact Hnew|exact Hkept].
Defined.

Lemma PrepareScene_then_RenderScene_witness :
  exists st' w2 new,
    PrepareScene (F:=R) (decodes_with 3) empty_stage = Ok (tt, st') /\
    m_basicMeshes st' = [Plane; Torus; Box; TaperedCylinder; Prism] /\
    RenderScene leftover (world st') = Ok (tt, w2) /\
    calls w2 = calls (world st') ++ new /\
    material_count new = 0%nat /\
    store_of w2 <> None.
Proof.
  destruct (PrepareScene_then_RenderScene (F:=R) (decodes_with 3) leftover empty_stage ∅
              eq_refl (proj1 (fresh_scene_room _)) (proj2 (fresh_scene_room _)) eq_refl)
    as (st' & w2 & new & store2 & E1 & Hmeshes & _ & E2 & Hcalls & _ & _ & Hcount & Hs & _).
  exists st', w2, new. split; [exact E1|]. split; [exact Hmeshes|].
  split; [exact E2|]. split; [exact Hcalls|]. split; [exact Hcount|].
  rewrite Hs. discriminate.
Defined.
